(** * The reliability core of the analysis pipeline

    A shallow embedding of [src/data/cache.py] (the merge cache) and of
    [src/utils/llm.py] with the part of [src/llm/models.py] it calls (the
    LLM invocation wrapper), of their callers in [src/tools/api.py] (the
    data tools) and [src/agents/warren_buffett.py] (the agent's output
    function), and the properties of all of them.

    Python dictionaries are finite maps, lists are lists, a function that
    can raise returns a [result], and a method that reads or assigns
    attributes of [self] (or of another shared object) runs in a small
    state-and-exception monad. *)

From Stdlib Require Import ZArith String Ascii SpecFloat.
From Stdlib Require OrderedTypeEx.
From stdpp Require Import gmap strings list pretty sorting.

Set Warnings "-register-all".

Local Open Scope Z_scope.

(** ** Exceptions and results *)

(** The exception classes the embedded code can meet.  All of them derive
    from [Exception], so an [except Exception] clause catches each one. *)
Inductive exn : Type :=
  | KeyError (key : string)
  | TypeError (msg : string)
  | ValueError (msg : string)
  | AttributeError (msg : string)
  | IndexError (msg : string)
  | ValidationError (model : string)
  | JSONDecodeError (msg : string)
  | NameError (msg : string)
  | BackendError (msg : string).

Inductive result (A : Type) : Type :=
  | Ok (a : A)
  | Raise (e : exn).
Arguments Ok {A} a.
Arguments Raise {A} e.

Definition is_ok {A} (r : result A) : bool :=
  match r with Ok _ => true | Raise _ => false end.

Definition result_bind {A B} (r : result A) (k : A → result B) : result B :=
  match r with
  | Ok a => k a
  | Raise e => Raise e
  end.

Definition result_map {A B} (f : A → B) (r : result A) : result B :=
  match r with
  | Ok a => Ok (f a)
  | Raise e => Raise e
  end.

#[global] Instance result_ret : MRet result := @Ok.
#[global] Instance result_fmap : FMap result := @result_map.
#[global] Instance result_mbind : MBind result := λ A B k r, result_bind r k.

(** ** A state-and-exception monad

    [M S A] is a computation over a mutable object of type [S]: it ends
    with a value or with a raised exception, and in both cases with the
    state the object is in at that moment. *)
Definition M (S A : Type) : Type := S → result A * S.

Definition m_ret {S A} (a : A) : M S A := λ s, (Ok a, s).
Definition m_bind {S A B} (m : M S A) (k : A → M S B) : M S B :=
  λ s, match m s with
       | (Ok a, s') => k a s'
       | (Raise e, s') => (Raise e, s')
       end.
Definition m_gets {S A} (f : S → A) : M S A := λ s, (Ok (f s), s).
Definition m_modify {S} (f : S → S) : M S unit := λ s, (Ok tt, f s).
Definition m_lift {S A} (r : result A) : M S A := λ s, (r, s).
(** [try: m except Exception as e: h e]. *)
Definition m_catch {S A} (m : M S A) (h : exn → M S A) : M S A :=
  λ s, match m s with
       | (Ok a, s') => (Ok a, s')
       | (Raise e, s') => h e s'
       end.

(** The state a computation leaves behind (also when it raises). *)
Definition exec {S A} (m : M S A) (s : S) : S := (m s).2.

#[global] Instance M_ret {S} : MRet (M S) := @m_ret S.
#[global] Instance M_mbind {S} : MBind (M S) := λ A B k m, m_bind m k.

(** ** The merge cache ([src/data/cache.py]) *)
Module Cache.

(** The values a cached record holds.  The records are [model_dump()]s of
    the models of [src/data/models.py]; the identity fields ([time],
    [report_period], [filing_date], [date]) are all declared [str].
    Floating-point fields are never compared by the cache and are left out
    of the universe; a list stands for the values Python cannot hash. *)
Inductive pyval : Type :=
  | PNone
  | PInt (z : Z)
  | PStr (s : string)
  | PList (l : list pyval).

(** Structural equality of values is decidable. *)
Fixpoint pyval_eqb (a b : pyval) {struct a} : bool :=
  match a, b with
  | PNone, PNone => true
  | PInt x, PInt y => bool_decide (x = y)
  | PStr s, PStr t => bool_decide (s = t)
  | PList l, PList m =>
      (fix go (l m : list pyval) {struct l} : bool :=
         match l, m with
         | [], [] => true
         | x :: l', y :: m' => pyval_eqb x y && go l' m'
         | _, _ => false
         end) l m
  | _, _ => false
  end.

Fixpoint pyval_ind' (P : pyval → Prop)
    (HN : P PNone) (HI : ∀ z, P (PInt z)) (HS : ∀ s, P (PStr s))
    (HL : ∀ l, Forall P l → P (PList l)) (v : pyval) {struct v} : P v :=
  match v with
  | PNone => HN
  | PInt z => HI z
  | PStr s => HS s
  | PList l =>
      HL l ((fix go (l : list pyval) : Forall P l :=
               match l with
               | [] => @List.Forall_nil _ P
               | x :: l' =>
                   @List.Forall_cons _ P x l' (pyval_ind' P HN HI HS HL x) (go l')
               end) l)
  end.

Lemma pyval_eqb_spec (a b : pyval) : pyval_eqb a b = true ↔ a = b.
Proof.
  revert b. induction a as [| z | s | l IH] using pyval_ind'; intros b.
  - destruct b; simpl; split; congruence.
  - destruct b; simpl; try (split; congruence).
    rewrite bool_decide_eq_true. split; congruence.
  - destruct b; simpl; try (split; congruence).
    rewrite bool_decide_eq_true. split; congruence.
  - destruct b as [| | | m]; simpl; try (split; congruence).
    revert m. induction IH as [| x l' Hx _ IHl]; intros m.
    + destruct m; split; congruence.
    + destruct m as [| y m']; [split; congruence |].
      rewrite andb_true_iff, Hx. specialize (IHl m').
      split.
      * intros [-> Hgo]. apply IHl in Hgo. congruence.
      * intros [= -> ->]. split; [done |]. by apply IHl.
Qed.

#[global] Instance pyval_eq_dec : EqDecision pyval.
Proof.
  intros a b. destruct (pyval_eqb a b) eqn:E.
  - left. by apply pyval_eqb_spec.
  - right. intros H. apply pyval_eqb_spec in H. congruence.
Defined.

(** The hashable values: what can sit in a [set] or be tested with
    [in] against one.  On them Python's [==] is structural equality. *)
Inductive hkey : Type :=
  | HNone
  | HInt (z : Z)
  | HStr (s : string).

#[global] Instance hkey_eq_dec : EqDecision hkey.
Proof. solve_decision. Defined.

#[global] Instance hkey_countable : Countable hkey.
Proof.
  refine (inj_countable'
    (λ h, match h with
          | HNone => inl ()
          | HInt z => inr (inl z)
          | HStr s => inr (inr s)
          end)
    (λ x, match x with
          | inl _ => HNone
          | inr (inl z) => HInt z
          | inr (inr s) => HStr s
          end) _).
  by intros [].
Defined.

(** [hash(v)]: raises [TypeError] on an unhashable value. *)
Definition py_hash (v : pyval) : result hkey :=
  match v with
  | PNone => Ok HNone
  | PInt z => Ok (HInt z)
  | PStr s => Ok (HStr s)
  | PList _ => Raise (TypeError "unhashable type: 'list'")
  end.

(** A record is a [dict[str, any]]. *)
Abbreviation record := (gmap string pyval).

(** [item[key_field]]: raises [KeyError] when the key is absent. *)
Definition getitem (item : record) (key_field : string) : result pyval :=
  match item !! key_field with
  | Some v => Ok v
  | None => Raise (KeyError key_field)
  end.

(** The hashed identity value of a record: the [item[key_field]] that the
    set comprehension stores and the membership test looks up. *)
Definition item_key (key_field : string) (item : record) : result hkey :=
  v ← getitem item key_field; py_hash v.

(** [{item[key_field] for item in existing}], evaluated left to right. *)
Fixpoint existing_keys_of (key_field : string) (existing : list record)
  : result (gset hkey) :=
  match existing with
  | [] => Ok ∅
  | item :: rest =>
      h ← item_key key_field item;
      ks ← existing_keys_of key_field rest;
      Ok ({[h]} ∪ ks)
  end.

(** [[item for item in new_data if item[key_field] not in existing_keys]],
    evaluated left to right. *)
Fixpoint new_items (key_field : string) (existing_keys : gset hkey)
    (new_data : list record) : result (list record) :=
  match new_data with
  | [] => Ok []
  | item :: rest =>
      h ← item_key key_field item;
      kept ← new_items key_field existing_keys rest;
      Ok (if decide (h ∈ existing_keys) then kept else item :: kept)
  end.

(** [Cache._merge_data].  [existing] is [None] when the ticker was never
    cached ([dict.get] found nothing); [not existing] is true for [None]
    and for the empty list.  [existing.copy()] followed by [extend] is
    list concatenation on a fresh list. *)
Definition _merge_data (existing : option (list record))
    (new_data : list record) (key_field : string) : result (list record) :=
  match existing with
  | None | Some [] => Ok new_data
  | Some existing =>
      existing_keys ← existing_keys_of key_field existing;
      let merged := existing in
      fresh ← new_items key_field existing_keys new_data;
      Ok (merged ++ fresh)
  end.

(** The [Cache] object: one dictionary per kind of data. *)
Record t : Type := mk {
  _prices_cache : gmap string (list record);
  _financial_metrics_cache : gmap string (list record);
  _line_items_cache : gmap string (list record);
  _insider_trades_cache : gmap string (list record);
  _company_news_cache : gmap string (list record);
}.

(** [Cache.__init__]. *)
Definition init : t := mk ∅ ∅ ∅ ∅ ∅.

Definition get_prices (ticker : string) : M t (option (list record)) :=
  m_gets (λ self, _prices_cache self !! ticker).

Definition set_prices (ticker : string) (data : list record) : M t unit :=
  existing ← m_gets (λ self, _prices_cache self !! ticker);
  merged ← m_lift (_merge_data existing data "time");
  m_modify (λ self,
    mk (<[ticker := merged]> (_prices_cache self))
       (_financial_metrics_cache self) (_line_items_cache self)
       (_insider_trades_cache self) (_company_news_cache self)).

Definition get_financial_metrics (ticker : string)
  : M t (option (list record)) :=
  m_gets (λ self, _financial_metrics_cache self !! ticker).

Definition set_financial_metrics (ticker : string) (data : list record)
  : M t unit :=
  existing ← m_gets (λ self, _financial_metrics_cache self !! ticker);
  merged ← m_lift (_merge_data existing data "report_period");
  m_modify (λ self,
    mk (_prices_cache self)
       (<[ticker := merged]> (_financial_metrics_cache self))
       (_line_items_cache self)
       (_insider_trades_cache self) (_company_news_cache self)).

Definition get_line_items (ticker : string) : M t (option (list record)) :=
  m_gets (λ self, _line_items_cache self !! ticker).

Definition set_line_items (ticker : string) (data : list record)
  : M t unit :=
  existing ← m_gets (λ self, _line_items_cache self !! ticker);
  merged ← m_lift (_merge_data existing data "report_period");
  m_modify (λ self,
    mk (_prices_cache self) (_financial_metrics_cache self)
       (<[ticker := merged]> (_line_items_cache self))
       (_insider_trades_cache self) (_company_news_cache self)).

Definition get_insider_trades (ticker : string)
  : M t (option (list record)) :=
  m_gets (λ self, _insider_trades_cache self !! ticker).

Definition set_insider_trades (ticker : string) (data : list record)
  : M t unit :=
  existing ← m_gets (λ self, _insider_trades_cache self !! ticker);
  merged ← m_lift (_merge_data existing data "filing_date");
  m_modify (λ self,
    mk (_prices_cache self) (_financial_metrics_cache self)
       (_line_items_cache self)
       (<[ticker := merged]> (_insider_trades_cache self))
       (_company_news_cache self)).

Definition get_company_news (ticker : string)
  : M t (option (list record)) :=
  m_gets (λ self, _company_news_cache self !! ticker).

Definition set_company_news (ticker : string) (data : list record)
  : M t unit :=
  existing ← m_gets (λ self, _company_news_cache self !! ticker);
  merged ← m_lift (_merge_data existing data "date");
  m_modify (λ self,
    mk (_prices_cache self) (_financial_metrics_cache self)
       (_line_items_cache self) (_insider_trades_cache self)
       (<[ticker := merged]> (_company_news_cache self))).

(** The five kinds, to speak about "a set operation of any kind". *)
Inductive kind : Type :=
  | Prices | FinancialMetrics | LineItems | InsiderTrades | CompanyNews.

Definition identity_field (k : kind) : string :=
  match k with
  | Prices => "time"
  | FinancialMetrics => "report_period"
  | LineItems => "report_period"
  | InsiderTrades => "filing_date"
  | CompanyNews => "date"
  end.

Definition bucket (k : kind) (self : t) : gmap string (list record) :=
  match k with
  | Prices => _prices_cache self
  | FinancialMetrics => _financial_metrics_cache self
  | LineItems => _line_items_cache self
  | InsiderTrades => _insider_trades_cache self
  | CompanyNews => _company_news_cache self
  end.

Definition get (k : kind) : string → M t (option (list record)) :=
  match k with
  | Prices => get_prices
  | FinancialMetrics => get_financial_metrics
  | LineItems => get_line_items
  | InsiderTrades => get_insider_trades
  | CompanyNews => get_company_news
  end.

Definition set (k : kind) : string → list record → M t unit :=
  match k with
  | Prices => set_prices
  | FinancialMetrics => set_financial_metrics
  | LineItems => set_line_items
  | InsiderTrades => set_insider_trades
  | CompanyNews => set_company_news
  end.

(** *** Vocabulary of the specification *)

(** The record carries the identity field, with a value that can be
    hashed: the caller's side of the contract. *)
Definition has_identity (key_field : string) (item : record) : bool :=
  is_ok (item_key key_field item).

(** The identity-field value of [item] occurs in [existing]. *)
Definition identity_seen (key_field : string) (existing : list record)
    (item : record) : Prop :=
  item !! key_field ∈ ((.!! key_field) <$> existing).

#[global] Instance identity_seen_dec key_field existing item :
  Decision (identity_seen key_field existing item).
Proof. unfold identity_seen. apply _. Defined.

(** The merge in the words of the specification: [existing], followed by
    the records of [incoming] whose identity value is not in [existing],
    in [incoming]'s order. *)
Definition merge_spec (existing incoming : list record)
    (key_field : string) : list record :=
  existing ++ filter (λ item, ¬ identity_seen key_field existing item) incoming.

(** How many times a record occurs in a sequence. *)
Definition occurrences (item : record) (l : list record) : nat :=
  length (filter (λ x, x = item) l).

(** The bucket invariant: no two records share a value of the identity
    field. *)
Definition unique_identities (key_field : string) (l : list record) : Prop :=
  NoDup (omap (.!! key_field) l).

(** A caller performing one [set] after another on one ticker, going on
    after a [set] that raised. *)
Definition run_sets (k : kind) (ticker : string)
    (batches : list (list record)) (self : t) : t :=
  foldl (λ c data, exec (set k ticker data) c) self batches.

(** The assignment [cache[ticker] = l] on the dictionary of kind [k]. *)
Definition store (k : kind) (ticker : string) (l : list record) (self : t) : t :=
  match k with
  | Prices =>
      mk (<[ticker := l]> (_prices_cache self))
         (_financial_metrics_cache self) (_line_items_cache self)
         (_insider_trades_cache self) (_company_news_cache self)
  | FinancialMetrics =>
      mk (_prices_cache self)
         (<[ticker := l]> (_financial_metrics_cache self))
         (_line_items_cache self)
         (_insider_trades_cache self) (_company_news_cache self)
  | LineItems =>
      mk (_prices_cache self) (_financial_metrics_cache self)
         (<[ticker := l]> (_line_items_cache self))
         (_insider_trades_cache self) (_company_news_cache self)
  | InsiderTrades =>
      mk (_prices_cache self) (_financial_metrics_cache self)
         (_line_items_cache self)
         (<[ticker := l]> (_insider_trades_cache self))
         (_company_news_cache self)
  | CompanyNews =>
      mk (_prices_cache self) (_financial_metrics_cache self)
         (_line_items_cache self) (_insider_trades_cache self)
         (<[ticker := l]> (_company_news_cache self))
  end.

(** *** Sample records *)
Definition rec_A1 : record := {[ "id" := PStr "A"; "v" := PInt 1 ]}.
Definition rec_A2 : record := {[ "id" := PStr "A"; "v" := PInt 2 ]}.
Definition rec_B3 : record := {[ "id" := PStr "B"; "v" := PInt 3 ]}.
Definition price_1 : record := {[ "time" := PStr "2024-01-02"; "volume" := PInt 10 ]}.
Definition price_1' : record := {[ "time" := PStr "2024-01-02"; "volume" := PInt 20 ]}.
Definition price_2 : record := {[ "time" := PStr "2024-01-03"; "volume" := PInt 30 ]}.
Definition price_untimed : record := {[ "volume" := PInt 40 ]}.

End Cache.

(** ** The LLM invocation wrapper ([src/utils/llm.py], [src/llm/models.py]) *)
Module Llm.

(** *** Python values *)

(** The arguments a [Literal[...]] annotation can list. *)
Inductive literal : Type :=
  | LitStr (s : string)
  | LitInt (z : Z)
  | LitBool (b : bool)
  | LitNone.

(** The annotation of a model field, as far as [create_default_response]
    inspects it: the classes [str], [float], [int], other plain classes
    (they have neither [__origin__] nor [__args__]), and the parameterised
    forms, which have both. *)
Inductive annotation : Type :=
  | TStr
  | TFloat
  | TInt
  | TBool
  | TDictClass                          (* the bare class [dict] *)
  | TClass (name : string)              (* any other plain class *)
  | TDict (k v : annotation)            (* [Dict[k, v]], [dict[k, v]] *)
  | TList (a : annotation)              (* [List[a]], [list[a]] *)
  | TOptional (a : annotation)          (* [Optional[a]] *)
  | TLiteral (args : list literal).     (* [Literal[x, ...]] *)

(** The objects that travel through [call_llm]: JSON data, the message a
    chat model returns, instances of pydantic models, and type objects
    (an [__args__] entry can be one). *)
Inductive value : Type :=
  | VNone
  | VBool (b : bool)
  | VInt (z : Z)
  | VFloat (f : spec_float)
  | VStr (s : string)
  | VList (l : list value)
  | VDict (d : list (string * value))
  | VType (a : annotation)
  | VMessage (content : value)
  | VModel (cls : string) (fields : list (string * value)).

Definition value_of_literal (x : literal) : value :=
  match x with
  | LitStr s => VStr s
  | LitInt z => VInt z
  | LitBool b => VBool b
  | LitNone => VNone
  end.

Definition literal_matches (x : literal) (v : value) : bool :=
  match x, v with
  | LitStr s, VStr s' => bool_decide (s = s')
  | LitInt z, VInt z' => bool_decide (z = z')
  | LitBool b, VBool b' => bool_decide (b = b')
  | LitNone, VNone => true
  | _, _ => false
  end.

(** [0.0] *)
Definition float_zero : spec_float := S754_zero false.

(** [bool(v)] *)
Definition truthy (v : value) : bool :=
  match v with
  | VNone => false
  | VBool b => b
  | VInt z => negb (z =? 0)
  | VFloat (S754_zero _) => false
  | VFloat _ => true
  | VStr s => negb (bool_decide (s = EmptyString))
  | VList l => negb (bool_decide (length l = 0%nat))
  | VDict d => negb (bool_decide (length d = 0%nat))
  | VType _ | VMessage _ | VModel _ _ => true
  end.

(** *** Pydantic models *)

(** A model class: its name and its [model_fields]. *)
Record schema : Type := mk_schema {
  cls_name : string;
  model_fields : gmap string annotation;
}.

(** A value is of the declared type: validation takes it as it is. *)
Fixpoint conforms (a : annotation) (v : value) {struct a} : bool :=
  match a, v with
  | TStr, VStr _ => true
  | TFloat, VFloat _ => true
  | TInt, VInt _ => true
  | TBool, VBool _ => true
  | TDictClass, VDict _ => true
  | TClass name, VModel cls _ => bool_decide (name = cls)
  | TDict k x, VDict d =>
      forallb (λ kv, conforms k (VStr kv.1) && conforms x kv.2) d
  | TList x, VList l => forallb (conforms x) l
  | TOptional x, v => match v with VNone => true | _ => conforms x v end
  | TLiteral args, v => existsb (λ x, literal_matches x v) args
  | _, _ => false
  end.

(** The inputs that validation refuses whatever its mode: [None] for a
    field that is not optional, and a type object for a field of a data
    type.  (A field annotated with another plain class is left to the
    validator below.) *)
Fixpoint rejects (a : annotation) (v : value) {struct a} : bool :=
  match v with
  | VNone | VType _ =>
      match a with
      | TClass _ => false
      | TOptional x => rejects x v
      | _ => true
      end
  | _ => false
  end.

(** Pydantic is outside the repository.  Its validation of a field is
    fixed here where it needs no conversion (a value of the declared type
    is kept) and where it cannot succeed; for every other input, one that
    its default mode may convert (an [int] given for a [float] field, a
    numeric string, a list whose items need converting), what it does is
    the parameter [lax]. *)
Section Pydantic.
Variable lax : annotation → value → result value.

Definition validate (model : string) (a : annotation) (v : value)
  : result value :=
  if conforms a v then Ok v
  else if rejects a v then Raise (ValidationError model)
  else lax a v.

(** Every declared field is required and validated; keyword arguments
    that name no field are ignored. *)
Fixpoint validate_fields (model : string)
    (fields : list (string * annotation)) (kwargs : gmap string value)
  : result (list (string * value)) :=
  match fields with
  | [] => Ok []
  | (name, a) :: rest =>
      match kwargs !! name with
      | None => Raise (ValidationError model)
      | Some v =>
          x ← validate model a v;
          xs ← validate_fields model rest kwargs;
          Ok ((name, x) :: xs)
      end
  end.

(** Calling [model_class] with the keyword arguments [kwargs]. *)
Definition construct (model_class : schema) (kwargs : gmap string value)
  : result value :=
  fields ← validate_fields (cls_name model_class)
             (map_to_list (model_fields model_class)) kwargs;
  Ok (VModel (cls_name model_class) fields).

(** Calling [model_class] with an arbitrary object [v] unpacked into
    keyword arguments: only a mapping can be unpacked. *)
Definition construct_from (model_class : schema) (v : value) : result value :=
  match v with
  | VDict d => construct model_class (list_to_map d)
  | _ => Raise (TypeError "argument after ** must be a mapping")
  end.

(** *** [create_default_response] *)

(** [hasattr(a, "__origin__") and a.__origin__ == dict] *)
Definition origin_is_dict (a : annotation) : bool :=
  match a with
  | TDict _ _ => true
  | _ => false
  end.

(** [a.__args__], when [hasattr(a, "__args__")]. *)
Definition args_of (a : annotation) : option (list value) :=
  match a with
  | TDict k v => Some [VType k; VType v]
  | TList x => Some [VType x]
  | TOptional x => Some [VType x; VType (TClass "NoneType")]
  | TLiteral args => Some (value_of_literal <$> args)
  | _ => None
  end.

(** The body of the loop over [model_fields]: the default of one field. *)
Definition default_value (a : annotation) : result value :=
  match a with
  | TStr => Ok (VStr "Error in analysis, using default")
  | TFloat => Ok (VFloat float_zero)
  | TInt => Ok (VInt 0)
  | _ =>
      if origin_is_dict a then Ok (VDict [])
      else match args_of a with
           | Some (x :: _) => Ok x
           | Some [] => Raise (IndexError "tuple index out of range")
           | None => Ok VNone
           end
  end.

Fixpoint default_values_of (fields : list (string * annotation))
    (default_values : gmap string value) : result (gmap string value) :=
  match fields with
  | [] => Ok default_values
  | (field_name, a) :: rest =>
      v ← default_value a;
      default_values_of rest (<[field_name := v]> default_values)
  end.

Definition create_default_response (model_class : schema) : result value :=
  default_values ←
    default_values_of (map_to_list (model_fields model_class)) ∅;
  construct model_class default_values.

End Pydantic.

(** *** Strings *)

(** [s.find(sub)]: the first index at which [sub] occurs, if any. *)
Definition find (sub s : string) : option nat := String.index 0 sub s.

(** [s[n:]] and [s[:n]] *)
Fixpoint str_drop (n : nat) (s : string) : string :=
  match n, s with
  | O, _ => s
  | S n', String _ s' => str_drop n' s'
  | S _, EmptyString => EmptyString
  end.

Fixpoint str_take (n : nat) (s : string) : string :=
  match n, s with
  | O, _ => EmptyString
  | S n', String c s' => String c (str_take n' s')
  | S _, EmptyString => EmptyString
  end.

(** [c.isspace()] on the code points below 256. *)
Definition isspace (c : ascii) : bool :=
  let n := nat_of_ascii c in
  ((9 <=? n) && (n <=? 13) || (28 <=? n) && (n <=? 32)
   || (n =? 133) || (n =? 160))%nat.

Fixpoint lstrip (s : string) : string :=
  match s with
  | String c s' => if isspace c then lstrip s' else s
  | EmptyString => EmptyString
  end.

Fixpoint rstrip (s : string) : string :=
  match s with
  | String c s' =>
      match rstrip s' with
      | EmptyString => if isspace c then EmptyString else String c EmptyString
      | t => String c t
      end
  | EmptyString => EmptyString
  end.

(** [s.strip()] *)
Definition strip (s : string) : string := rstrip (lstrip s).

(** *** Models and providers ([src/llm/models.py]) *)

(** The enumeration [ModelProvider], a [str] enumeration of three
    members. *)
Inductive ModelProvider : Type :=
  | OPENAI | GROQ | ANTHROPIC.

#[global] Instance ModelProvider_eq_dec : EqDecision ModelProvider.
Proof. solve_decision. Defined.

(** [member.value], the string a member is equal to. *)
Definition ModelProvider_value (member : ModelProvider) : string :=
  match member with
  | OPENAI => "OpenAI"
  | GROQ => "Groq"
  | ANTHROPIC => "Anthropic"
  end.

(** The attribute access [ModelProvider.<name>]: the member of that
    name, [AttributeError] for a name the enumeration does not declare. *)
Definition ModelProvider_getattr (name : string) : result ModelProvider :=
  if bool_decide (name = "OPENAI") then Ok OPENAI
  else if bool_decide (name = "GROQ") then Ok GROQ
  else if bool_decide (name = "ANTHROPIC") then Ok ANTHROPIC
  else Raise (AttributeError name).

Record LLMModel : Type := mk_model {
  display_name : string;
  model_name : string;
  provider : ModelProvider;
}.

(** [LLMModel.to_choice_tuple] *)
Definition to_choice_tuple (self : LLMModel) : string * string * string :=
  (display_name self, model_name self, ModelProvider_value (provider self)).

(** [LLMModel.is_deepseek] *)
Definition is_deepseek (self : LLMModel) : bool :=
  String.prefix "deepseek" (model_name self).

(** One entry of the table:
    [LLMModel(display_name=..., model_name=..., provider=ModelProvider.<member>)],
    the attribute access evaluated with the arguments. *)
Definition table_entry (display_name model_name member : string)
  : result LLMModel :=
  provider ← ModelProvider_getattr member;
  Ok (mk_model display_name model_name provider).

(** A list display: its elements are evaluated from left to right, and
    the first one that raises ends the evaluation. *)
Fixpoint list_display {A} (elements : list (result A)) : result (list A) :=
  match elements with
  | [] => Ok []
  | element :: rest =>
      x ← element; xs ← list_display rest; Ok (x :: xs)
  end.

(** The module-level assignment of [AVAILABLE_MODELS]. *)
Definition AVAILABLE_MODELS : result (list LLMModel) :=
  list_display [
    table_entry "[anthropic] claude-3.5-haiku" "claude-3-5-haiku-latest"
      "ANTHROPIC";
    table_entry "[anthropic] claude-3.5-sonnet" "claude-3-5-sonnet-latest"
      "ANTHROPIC";
    table_entry "[anthropic] claude-3.7-sonnet" "claude-3-7-sonnet-latest"
      "ANTHROPIC";
    table_entry "[deepseek] deepseek-r1" "deepseek-reasoner" "DEEPSEEK";
    table_entry "[deepseek] deepseek-v3" "deepseek-chat" "DEEPSEEK";
    table_entry "[gemini] gemini-2.0-flash" "gemini-2.0-flash" "GEMINI";
    table_entry "[gemini] gemini-2.0-pro" "gemini-2.0-pro-exp-02-05" "GEMINI";
    table_entry "[groq] llama-3.3 70b" "llama-3.3-70b-versatile" "GROQ";
    table_entry "[openai] gpt-4o" "gpt-4o" "OPENAI";
    table_entry "[openai] o1" "o1" "OPENAI";
    table_entry "[openai] o3-mini" "o3-mini" "OPENAI"
  ].

(** The body of the module, run from top to bottom as an import runs it:
    the classes, the table, [LLM_ORDER], and then the two functions, which
    see the table as a global.  The client libraries named at its head
    are outside the repository.  [Ok table] is a module that ran to its
    end. *)
Definition import_llm_models : result (list LLMModel) :=
  table ← AVAILABLE_MODELS;
  let LLM_ORDER := List.map to_choice_tuple table in
  Ok table.

(** [get_model_info]: the first model of that name in the table, or
    [None]. *)
Definition get_model_info (table : list LLMModel) (name : string)
  : option LLMModel :=
  List.find (λ model, bool_decide (model_name model = name)) table.

(** The client objects [get_model] can build: the three classes that the
    module imports. *)
Inductive chat_model : Type :=
  | ChatGroq (model api_key : string)
  | ChatOpenAI (model api_key : string)
  | ChatAnthropic (model api_key : string).

(** What [llm] is bound to in [call_llm]: the client itself, or the
    client wrapped by [with_structured_output(pydantic_model,
    method="json_mode")]. *)
Inductive runnable : Type :=
  | Chat (client : chat_model)
  | StructuredOutput (client : chat_model) (pydantic_model : schema).

(** *** The world [call_llm] runs in

    The process environment, the shared [progress] tracker, and three
    counters that record what was called: they are not in the code and
    only let the properties count calls. *)
Record World : Type := mk_world {
  environ : gmap string string;
  agent_status : gmap string (string * option string);
  status_calls : list (string * option string * string);
  invocations : nat;
  factory_calls : nat;
}.

(** [os.getenv(name)] *)
Definition getenv (name : string) : M World (option string) :=
  m_gets (λ w, environ w !! name).

(** [not api_key] *)
Definition missing (api_key : option string) : bool :=
  match api_key with
  | None => true
  | Some s => bool_decide (s = EmptyString)
  end.

(** One branch of [get_model]: read the key, raise [ValueError] without
    it, build the client with it. *)
Definition connect (variable message : string)
    (client : string → result chat_model) : M World (option chat_model) :=
  api_key ← getenv variable;
  if missing api_key then m_lift (Raise (ValueError message))
  else
    llm ← m_lift (client (default EmptyString api_key));
    mret (Some llm).

(** [get_model].  [model_provider] is a member of the enumeration or the
    string it is equal to; each [==] of the chain evaluates its right-hand
    side, an attribute of [ModelProvider], first.  The names
    [ChatDeepSeek] and [ChatGoogleGenerativeAI] are bound nowhere in the
    module.  The [print] before each [raise] is left out. *)
Definition get_model (model_name model_provider : string)
  : M World (option chat_model) :=
  groq ← m_lift (ModelProvider_getattr "GROQ");
  if bool_decide (model_provider = ModelProvider_value groq) then
    connect "GROQ_API_KEY"
      "Groq API key not found. Please make sure GROQ_API_KEY is set in your .env file."
      (λ api_key, Ok (ChatGroq model_name api_key))
  else
  openai ← m_lift (ModelProvider_getattr "OPENAI");
  if bool_decide (model_provider = ModelProvider_value openai) then
    connect "OPENAI_API_KEY"
      "OpenAI API key not found. Please make sure OPENAI_API_KEY is set in your .env file."
      (λ api_key, Ok (ChatOpenAI model_name api_key))
  else
  anthropic ← m_lift (ModelProvider_getattr "ANTHROPIC");
  if bool_decide (model_provider = ModelProvider_value anthropic) then
    connect "ANTHROPIC_API_KEY"
      "Anthropic API key not found. Please make sure ANTHROPIC_API_KEY is set in your .env file."
      (λ api_key, Ok (ChatAnthropic model_name api_key))
  else
  deepseek ← m_lift (ModelProvider_getattr "DEEPSEEK");
  if bool_decide (model_provider = ModelProvider_value deepseek) then
    connect "DEEPSEEK_API_KEY"
      "DeepSeek API key not found.  Please make sure DEEPSEEK_API_KEY is set in your .env file."
      (λ _, Raise (NameError "name 'ChatDeepSeek' is not defined"))
  else
  gemini ← m_lift (ModelProvider_getattr "GEMINI");
  if bool_decide (model_provider = ModelProvider_value gemini) then
    connect "GOOGLE_API_KEY"
      "Google API key not found.  Please make sure GOOGLE_API_KEY is set in your .env file."
      (λ _, Raise (NameError "name 'ChatGoogleGenerativeAI' is not defined"))
  else mret None.

(** The text [f"Error - retry {attempt + 1}/{max_retries}"]. *)
Definition status_message (attempt max_retries : Z) : string :=
  "Error - retry " +:+ pretty (attempt + 1) +:+ "/" +:+ pretty max_retries.

(** [AgentProgress.update_status] ([src/utils/progress.py]); redrawing the
    table changes nothing that [call_llm] can observe and is left out. *)
Definition update_status (agent_name : string) (ticker : option string)
    (status : string) : M World unit :=
  m_modify (λ w,
    let entry := default (EmptyString, None) (agent_status w !! agent_name) in
    let entry :=
      match ticker with
      | Some t => if bool_decide (t = EmptyString) then entry else (entry.1, Some t)
      | None => entry
      end in
    let entry :=
      if bool_decide (status = EmptyString) then entry else (status, entry.2) in
    mk_world (environ w) (<[agent_name := entry]> (agent_status w))
      (status_calls w ++ [(agent_name, ticker, status)])
      (invocations w) (factory_calls w)).

(** *** [extract_json_from_deepseek_response] and [call_llm]

    [json.loads] and the model backends are outside the repository: the
    parser is a parameter, and so is what a call of [llm.invoke(prompt)]
    does, given the object it is called on and the number of calls made
    before it.  The conversions of the model classes are the parameter
    [lax] of the section above. *)
Section Backend.
Context {Prompt : Type}.
Variable lax : annotation → value → result value.
Variable json_loads : string → result value.
Variable backend : runnable → Prompt → nat → result value.

(** The body of the [try] block, on a [str]. *)
Definition extract_from_text (content : string) : result value :=
  match find "```json" content with
  | Some json_start =>
      let json_text := str_drop (json_start + 7) content in
      match find "```" json_text with
      | Some json_end =>
          let json_text := strip (str_take json_end json_text) in
          json_loads json_text
      | None => Ok VNone
      end
  | None => Ok VNone
  end.

(** [extract_json_from_deepseek_response]: [None] when a fence is
    missing and when anything in the [try] block raises; only a [str]
    has a [find] method. *)
Definition extract_json_from_deepseek_response (content : value) : value :=
  let attempt :=
    match content with
    | VStr text => extract_from_text text
    | _ => Raise (AttributeError "object has no attribute 'find'")
    end in
  match attempt with
  | Ok parsed => parsed
  | Raise _ => VNone
  end.

(** [llm.invoke(prompt)] *)
Definition invoke (llm : option runnable) (prompt : Prompt) : M World value :=
  match llm with
  | None =>
      m_lift (Raise (AttributeError "'NoneType' object has no attribute 'invoke'"))
  | Some r =>
      λ w, (backend r prompt (invocations w),
            mk_world (environ w) (agent_status w) (status_calls w)
              (S (invocations w)) (factory_calls w))
  end.

(** [result.content] *)
Definition content_of (obj : value) : result value :=
  match obj with
  | VMessage content => Ok content
  | VModel _ fields =>
      match (list_to_map fields : gmap string value) !! "content" with
      | Some content => Ok content
      | None => Raise (AttributeError "object has no attribute 'content'")
      end
  | _ => Raise (AttributeError "object has no attribute 'content'")
  end.

(** [default_factory()] *)
Definition call_factory (default_factory : result value) : M World value :=
  λ w, (default_factory,
        mk_world (environ w) (agent_status w) (status_calls w)
          (invocations w) (S (factory_calls w))).

(** [if agent_name:] *)
Definition named (agent_name : option string) : option string :=
  match agent_name with
  | Some name => if bool_decide (name = EmptyString) then None else Some name
  | None => None
  end.

Section call.
Context (prompt : Prompt) (model_name model_provider : string)
  (pydantic_model : schema)
  (agent_name : option string) (max_retries : Z)
  (default_factory : option (result value)).

(** [model_info and model_info.is_deepseek()] *)
Definition deepseek_mode (model_info : option LLMModel) : bool :=
  match model_info with
  | Some info => is_deepseek info
  | None => false
  end.

(** The [try] block of one attempt: [Some v] when it executes
    [return v], [None] when control falls out of it. *)
Definition try_block (model_info : option LLMModel)
    (llm : option runnable) : M World (option value) :=
  result ← invoke llm prompt;
  if deepseek_mode model_info then
    content ← m_lift (content_of result);
    let parsed_result := extract_json_from_deepseek_response content in
    if truthy parsed_result then
      instance ← m_lift (construct_from lax pydantic_model parsed_result);
      mret (Some instance)
    else mret None
  else mret (Some result).

(** The [except Exception] block of attempt number [attempt]. *)
Definition except_block (attempt : Z) (e : exn) : M World (option value) :=
  _ ← match named agent_name with
      | Some name =>
          update_status name None (status_message attempt max_retries)
      | None => mret tt
      end;
  if bool_decide (attempt = max_retries - 1) then
    match default_factory with
    | Some factory =>
        instance ← call_factory factory; mret (Some instance)
    | None =>
        instance ← m_lift (create_default_response lax pydantic_model);
        mret (Some instance)
    end
  else mret None.

(** The [for attempt in range(max_retries)] loop, over the attempts
    still to make, and the [return] that follows it. *)
Fixpoint retry_loop (model_info : option LLMModel)
    (llm : option runnable) (attempts : list Z) : M World value :=
  match attempts with
  | [] => m_lift (create_default_response lax pydantic_model)
  | attempt :: rest =>
      outcome ← m_catch (try_block model_info llm) (except_block attempt);
      match outcome with
      | Some instance => mret instance
      | None => retry_loop model_info llm rest
      end
  end.

(** [llm.with_structured_output(pydantic_model, method="json_mode")],
    an attribute access that fails on [None]. *)
Definition with_structured_output (llm : option chat_model)
  : result (option runnable) :=
  match llm with
  | Some client => Ok (Some (StructuredOutput client pydantic_model))
  | None =>
      Raise (AttributeError
               "'NoneType' object has no attribute 'with_structured_output'")
  end.

(** [call_llm].  Its first statement imports [get_model] and
    [get_model_info] from [llm.models], which runs the body of that
    module; the two functions exist when it has run to its end.  The
    [print] of the handler writes to standard output and is left out. *)
Definition call_llm : M World value :=
  table ← m_lift import_llm_models;
  let model_info := get_model_info table model_name in
  llm ← get_model model_name model_provider;
  llm ← (if negb (deepseek_mode model_info)
         then m_lift (with_structured_output llm)
         else mret (Chat <$> llm));
  retry_loop model_info llm (seqZ 0 max_retries).
End call.
End Backend.

(** *** Vocabulary of the specification *)

(** [v] is an instance of the model class: it was built by that class and
    every declared field holds a value of its declared type. *)
Definition is_instance (model_class : schema) (v : value) : Prop :=
  match v with
  | VModel cls fields =>
      cls = cls_name model_class ∧
      ∀ name a, model_fields model_class !! name = Some a →
        ∃ x, (list_to_map fields : gmap string value) !! name = Some x ∧
             conforms a x = true
  | _ => False
  end.

(** The conversions of the validator keep the declared type. *)
Definition lax_sound (lax : annotation → value → result value) : Prop :=
  ∀ a v x, lax a v = Ok x → conforms a x = true.

(** The field of an instance, [None] for any other object. *)
Definition field_of (v : value) (name : string) : option value :=
  match v with
  | VModel _ fields => (list_to_map fields : gmap string value) !! name
  | _ => None
  end.

Definition field_of_result (r : result value) (name : string) : option value :=
  match r with
  | Ok v => field_of v name
  | Raise _ => None
  end.

(** The annotations for which the specification names a default. *)
Definition supported (a : annotation) : bool :=
  match a with
  | TStr | TFloat | TInt | TDict _ _ => true
  | TLiteral (_ :: _) => true
  | _ => false
  end.

(** The default the specification names for a supported annotation. *)
Definition spec_default (a : annotation) : value :=
  match a with
  | TStr => VStr "Error in analysis, using default"
  | TFloat => VFloat float_zero
  | TInt => VInt 0
  | TDict _ _ => VDict []
  | TLiteral (x :: _) => value_of_literal x
  | _ => VNone
  end.

(** The world after the handler has reported the failure of [attempt]. *)
Definition reported (agent_name : option string) (max_retries attempt : Z)
    (w : World) : World :=
  match named agent_name with
  | Some name =>
      exec (update_status name None (status_message attempt max_retries)) w
  | None => w
  end.

(** The world after one more call of the fallback factory. *)
Definition factory_called (w : World) : World :=
  mk_world (environ w) (agent_status w) (status_calls w)
    (invocations w) (S (factory_calls w)).

(** The world after one more call of [invoke]. *)
Definition invoked (w : World) : World :=
  mk_world (environ w) (agent_status w) (status_calls w)
    (S (invocations w)) (factory_calls w).

(** [i] is the first index at which [sub] occurs in [s]. *)
Definition first_occurrence (sub s : string) (i : nat) : Prop :=
  substring i (String.length sub) s = sub ∧
  ∀ p, (p < i)%nat → substring p (String.length sub) s ≠ sub.

(** [sub] occurs nowhere in [s]. *)
Definition no_occurrence (sub s : string) : Prop :=
  ∀ p, substring p (String.length sub) s ≠ sub.

(** Annotations whose default the model class rejects: [None] for [bool]
    and for the bare [dict], a type object for a list and for an optional
    primitive. *)
Definition default_rejected (a : annotation) : bool :=
  match a with
  | TBool | TDictClass | TList _ => true
  | TOptional (TStr | TFloat | TInt | TBool) => true
  | _ => false
  end.

(** The status calls that [call_llm] makes for the attempts [attempts],
    when each of them is reported. *)
Definition reports (agent_name : option string) (max_retries : Z)
    (attempts : list Z) : list (string * option string * string) :=
  match named agent_name with
  | Some name =>
      (λ attempt, (name, None, status_message attempt max_retries)) <$> attempts
  | None => []
  end.

(** What at most [n] attempts of [call_llm] can have done to the world. *)
Definition reachable_in (agent_name : option string) (n : nat)
    (w w' : World) : Prop :=
  environ w' = environ w ∧
  (invocations w ≤ invocations w' ≤ invocations w + n)%nat ∧
  (∃ extra, status_calls w' = status_calls w ++ extra ∧
            (length extra ≤ n)%nat) ∧
  (factory_calls w ≤ factory_calls w' ≤ S (factory_calls w))%nat ∧
  (∀ a, named agent_name ≠ Some a →
        agent_status w' !! a = agent_status w !! a) ∧
  (∀ a, agent_status w' !! a ≫= snd = agent_status w !! a ≫= snd).

(** *** Sample data *)

(** The signal schema of the Warren Buffett agent
    ([src/agents/warren_buffett.py]); it is the schema of the
    specification's example. *)
Definition WarrenBuffettSignal : schema :=
  mk_schema "WarrenBuffettSignal"
    {[ "signal" := TLiteral [LitStr "bullish"; LitStr "bearish"; LitStr "neutral"];
       "confidence" := TFloat;
       "reasoning" := TStr ]}.

(** A model with a field declared [bool], as [AgentStateMetadata] in
    [src/data/models.py] has. *)
Definition Flagged : schema :=
  mk_schema "Flagged" {[ "show_reasoning" := TBool ]}.

(** A model with a field declared as the bare class [dict]. *)
Definition Tagged : schema :=
  mk_schema "Tagged" {[ "tags" := TDictClass ]}.

(** The fallback factory of the Warren Buffett agent:
    [WarrenBuffettSignal(signal="neutral", confidence=0.0,
    reasoning="Analysis error")]. *)
Definition create_default_signal (lax : annotation → value → result value)
  : result value :=
  construct lax WarrenBuffettSignal
    {[ "signal" := VStr "neutral";
       "confidence" := VFloat float_zero;
       "reasoning" := VStr "Analysis error" ]}.

(** The instance that the factory builds. *)
Definition neutral_signal : value :=
  VModel "WarrenBuffettSignal"
    (map_to_list
       ({[ "signal" := VStr "neutral";
           "confidence" := VFloat float_zero;
           "reasoning" := VStr "Analysis error" ]} : gmap string value)).

(** A process with API keys in its environment, and one without. *)
Definition world_with_keys : World :=
  mk_world {[ "OPENAI_API_KEY" := "sk-test"; "GROQ_API_KEY" := "gsk-test" ]}
    ∅ [] 0 0.

Definition world_without_keys : World := mk_world ∅ ∅ [] 0 0.

(** [80.0] as a binary64 number: [5 * 2^50 * 2^-46]. *)
Definition float_80 : spec_float := S754_finite false 5629499534213120 (-46).

(** A validator that knows one conversion: the [int] 80 given for a
    [float] field becomes [80.0]. *)
Definition sample_lax (a : annotation) (v : value) : result value :=
  match a, v with
  | TFloat, VInt n =>
      if bool_decide (n = 80) then Ok (VFloat float_80)
      else Raise (ValidationError "conversion")
  | _, _ => Raise (ValidationError "conversion")
  end.

(** The objects the loop of [call_llm] can be entered with: a client
    wrapped for structured output, with the table entry of its model, and
    a bare client with a model whose name starts with deepseek. *)
Definition gpt_4o : LLMModel := mk_model "[openai] gpt-4o" "gpt-4o" OPENAI.

Definition structured_gpt_4o (pydantic_model : schema) : runnable :=
  StructuredOutput (ChatOpenAI "gpt-4o" "sk-test") pydantic_model.

Definition deepseek_r1 : LLMModel :=
  mk_model "[groq] deepseek-r1 distill" "deepseek-r1-distill-llama-70b" GROQ.

Definition chat_deepseek_r1 : runnable :=
  Chat (ChatGroq "deepseek-r1-distill-llama-70b" "gsk-test").

(** A backend that is down, and one that answers in prose. *)
Definition backend_down : runnable → string → nat → result value :=
  λ _ _ _, Raise (BackendError "connection refused").

Definition backend_prose : runnable → string → nat → result value :=
  λ _ _ _, Ok (VMessage (VStr "I cannot answer in JSON.")).

(** The text of the specification's extraction example, and a parser
    that knows the one JSON document in it. *)
Definition dq : string := String (ascii_of_nat 34) EmptyString.
Definition nl : string := String (ascii_of_nat 10) EmptyString.

Definition sample_json : string :=
  "{" +:+ dq +:+ "signal" +:+ dq +:+ ":" +:+ dq +:+ "bullish" +:+ dq +:+ ","
  +:+ dq +:+ "confidence" +:+ dq +:+ ":80.0,"
  +:+ dq +:+ "reasoning" +:+ dq +:+ ":" +:+ dq +:+ "x" +:+ dq +:+ "}".

Definition sample_text : string :=
  "preamble ```json" +:+ nl +:+ sample_json +:+ nl +:+ "```" +:+ nl
  +:+ "trailing".

Definition sample_object : value :=
  VDict [("signal", VStr "bullish"); ("confidence", VFloat float_80);
         ("reasoning", VStr "x")].

Definition sample_loads (s : string) : result value :=
  if bool_decide (s = sample_json) then Ok sample_object
  else Raise (JSONDecodeError "Expecting value").

(** The instance that the signal class builds from [sample_object]. *)
Definition bullish_signal : value :=
  VModel "WarrenBuffettSignal"
    (map_to_list
       ({[ "signal" := VStr "bullish";
           "confidence" := VFloat float_80;
           "reasoning" := VStr "x" ]} : gmap string value)).

(** A backend whose first two calls fail and whose later calls return a
    signal, one that answers with the extraction example, and one that
    answers with an empty fenced object; a parser that also knows the
    empty object. *)
Definition backend_flaky : runnable → string → nat → result value :=
  λ _ _ n, if (n <? 2)%nat then Raise (BackendError "rate limit")
           else Ok neutral_signal.

Definition backend_fenced : runnable → string → nat → result value :=
  λ _ _ _, Ok (VMessage (VStr sample_text)).

Definition backend_empty_object : runnable → string → nat → result value :=
  λ _ _ _, Ok (VMessage (VStr "```json{}```")).

Definition loads_objects (s : string) : result value :=
  if bool_decide (s = "{}") then Ok (VDict []) else sample_loads s.

(** The same answer with the confidence written as an integer. *)
Definition int_json : string :=
  "{" +:+ dq +:+ "signal" +:+ dq +:+ ":" +:+ dq +:+ "bullish" +:+ dq +:+ ","
  +:+ dq +:+ "confidence" +:+ dq +:+ ":80,"
  +:+ dq +:+ "reasoning" +:+ dq +:+ ":" +:+ dq +:+ "x" +:+ dq +:+ "}".

Definition int_text : string := "```json" +:+ nl +:+ int_json +:+ nl +:+ "```".

Definition int_object : list (string * value) :=
  [("signal", VStr "bullish"); ("confidence", VInt 80);
   ("reasoning", VStr "x")].

Definition loads_int (s : string) : result value :=
  if bool_decide (s = int_json) then Ok (VDict int_object)
  else Raise (JSONDecodeError "Expecting value").

Definition backend_int : runnable → string → nat → result value :=
  λ _ _ _, Ok (VMessage (VStr int_text)).

End Llm.

(** ** The data tools ([src/tools/api.py]) *)
Module Api.

(** [Exception(msg)], the plain exception that the tools raise on a failed
    request.  It belongs to none of the named classes; in the universe of
    exceptions it is the one that carries a message and nothing else. *)
Definition Exception_ (msg : string) : exn := BackendError msg.

(** What the code reads of a [requests.Response]: [response.status_code],
    [response.text] and what [response.json()] returns or raises. *)
Record Response (Json : Type) : Type := mk_response {
  status_code : Z;
  text : string;
  json : result Json;
}.
Arguments mk_response {Json} status_code text json.
Arguments status_code {Json} r.
Arguments text {Json} r.
Arguments json {Json} r.

(** The process as the tools see it: the module-global [_cache], the
    environment, and the requests sent so far (URL and headers). *)
Record World : Type := mk_world {
  _cache : Cache.t;
  environ : gmap string string;
  requests : list (string * gmap string string);
}.

(** A method call on the shared [_cache] object. *)
Definition on_cache {A} (m : M Cache.t A) : M World A :=
  λ w, ((m (_cache w)).1, mk_world (m (_cache w)).2 (environ w) (requests w)).

(** [os.environ.get(name)]. *)
Definition environ_get (name : string) : M World (option string) :=
  m_gets (λ w, environ w !! name).

(** [a <= b] on two [str]: the lexicographic order of the code points,
    which on UTF-8 text is the lexicographic order of the bytes. *)
Definition str_le (a b : string) : bool := String.leb a b.

(** [start_date <= t <= end_date]. *)
Definition within (start_date end_date t : string) : bool :=
  str_le start_date t && str_le t end_date.

(** [start_date <= price["time"] <= end_date]: [KeyError] without the
    key, [TypeError] when the value is no [str]. *)
Definition in_range (start_date end_date : string) (price : Cache.record)
  : result bool :=
  t ← Cache.getitem price "time";
  match t with
  | Cache.PStr t => Ok (within start_date end_date t)
  | Cache.PNone =>
      Raise (TypeError
        "'<=' not supported between instances of 'str' and 'NoneType'")
  | Cache.PInt _ =>
      Raise (TypeError
        "'<=' not supported between instances of 'str' and 'int'")
  | Cache.PList _ =>
      Raise (TypeError
        "'<=' not supported between instances of 'str' and 'list'")
  end.

(** The headers of a request: the API key, when the environment has a
    non-empty one. *)
Definition headers_of (api_key : option string) : gmap string string :=
  match api_key with
  | Some ((String _ _) as api_key) => {[ "X-API-KEY" := api_key ]}
  | _ => ∅
  end.

Definition prices_url (ticker start_date end_date : string) : string :=
  "https://api.financialdatasets.ai/prices/?ticker=" +:+ ticker
  +:+ "&interval=day&interval_multiplier=1&start_date=" +:+ start_date
  +:+ "&end_date=" +:+ end_date.

Definition error_message {Json} (ticker : string) (response : Response Json)
  : string :=
  "Error fetching data: " +:+ ticker +:+ " - "
  +:+ pretty (status_code response) +:+ " - " +:+ text response.

(** Pydantic and [requests] are outside the repository.  The class
    [Price] is given by its constructor, called with the items of a
    cached dictionary as keyword arguments, and by [model_dump];
    [PriceResponse] by the [prices] of the instance built in the same way
    from a decoded document; and
    [requests.get] by what it answers to a URL and headers, given the
    number of requests sent before. *)
Section Service.
Context {Json PriceT : Type}.
Variable Price : Cache.record → result PriceT.
Variable model_dump : PriceT → Cache.record.
Variable PriceResponse_prices : Json → result (list PriceT).
Variable requests_get :
  string → gmap string string → nat → result (Response Json).

(** The list comprehension that makes a [Price] of every record of
    [cached_data] with [start_date <= price["time"] <= end_date],
    evaluated left to right: the test of a record, then its conversion,
    then the next record. *)
Fixpoint filtered_data_of (start_date end_date : string)
    (cached_data : list Cache.record) : result (list PriceT) :=
  match cached_data with
  | [] => Ok []
  | price :: rest =>
      keep ← in_range start_date end_date price;
      if keep : bool then
        p ← Price price;
        ps ← filtered_data_of start_date end_date rest;
        Ok (p :: ps)
      else filtered_data_of start_date end_date rest
  end.

(** [requests.get(url, headers=headers)]. *)
Definition get (url : string) (headers : gmap string string)
  : M World (Response Json) :=
  λ w, (requests_get url headers (length (requests w)),
        mk_world (_cache w) (environ w) (requests w ++ [(url, headers)])).

(** The part of [get_prices] after the cache lookup. *)
Definition fetch_prices (ticker start_date end_date : string)
  : M World (list PriceT) :=
  api_key ← environ_get "FINANCIAL_DATASETS_API_KEY";
  let headers := headers_of api_key in
  let url := prices_url ticker start_date end_date in
  response ← get url headers;
  if bool_decide (status_code response ≠ 200) then
    m_lift (Raise (Exception_ (error_message ticker response)))
  else
    doc ← m_lift (json response);
    prices ← m_lift (PriceResponse_prices doc);
    match prices with
    | [] => mret []
    | _ :: _ =>
        _ ← on_cache (Cache.set_prices ticker (model_dump <$> prices));
        mret prices
    end.

(** [get_prices].  The cached list is used when it is not empty and at
    least one of its records falls in the range. *)
Definition get_prices (ticker start_date end_date : string)
  : M World (list PriceT) :=
  cached_data ← on_cache (Cache.get_prices ticker);
  filtered_data ←
    match cached_data with
    | Some ((_ :: _) as cached_data) =>
        m_lift (filtered_data_of start_date end_date cached_data)
    | _ => mret []
    end;
  match filtered_data with
  | _ :: _ => mret filtered_data
  | [] => fetch_prices ticker start_date end_date
  end.

End Service.

(** [metric["report_period"] <= end_date]: [KeyError] without the key,
    [TypeError] when the value is no [str]. *)
Definition reported_by (end_date : string) (metric : Cache.record)
  : result bool :=
  t ← Cache.getitem metric "report_period";
  match t with
  | Cache.PStr t => Ok (str_le t end_date)
  | Cache.PNone =>
      Raise (TypeError
        "'<=' not supported between instances of 'NoneType' and 'str'")
  | Cache.PInt _ =>
      Raise (TypeError
        "'<=' not supported between instances of 'int' and 'str'")
  | Cache.PList _ =>
      Raise (TypeError
        "'<=' not supported between instances of 'list' and 'str'")
  end.

(** [l.sort(key=key, reverse=True)] on [str] keys: the stable sort into
    descending order, records with equal keys keeping their order. *)
Fixpoint insert_desc {A} (key : A → string) (x : A) (l : list A) : list A :=
  match l with
  | [] => [x]
  | y :: l' =>
      if String.ltb (key x) (key y) then y :: insert_desc key x l'
      else x :: l
  end.

Definition sort_desc {A} (key : A → string) (l : list A) : list A :=
  foldr (insert_desc key) [] l.

(** [l[:limit]]: a negative [limit] counts from the end. *)
Definition slice_to {A} (limit : Z) (l : list A) : list A :=
  if bool_decide (limit < 0) then take (Z.to_nat (Z.of_nat (length l) + limit)) l
  else take (Z.to_nat limit) l.

(** The truth value of a [float]: false for the two zeros only. *)
Definition float_truthy (f : spec_float) : bool :=
  match f with
  | S754_zero _ => false
  | _ => true
  end.

Definition metrics_url (ticker end_date : string) (limit : Z)
    (period : string) : string :=
  "https://api.financialdatasets.ai/financial-metrics/?ticker=" +:+ ticker
  +:+ "&report_period_lte=" +:+ end_date
  +:+ "&limit=" +:+ pretty limit +:+ "&period=" +:+ period.

(** The class [FinancialMetrics] is given by its constructor on the items
    of a cached dictionary, by the attributes [report_period] and
    [market_cap] of an instance and by [model_dump];
    [FinancialMetricsResponse] by the [financial_metrics] of the instance
    built from a decoded document. *)
Section Metrics.
Context {Json MetricsT : Type}.
Variable FinancialMetrics : Cache.record → result MetricsT.
Variable report_period : MetricsT → string.
Variable market_cap : MetricsT → option spec_float.
Variable model_dump : MetricsT → Cache.record.
Variable FinancialMetricsResponse_financial_metrics :
  Json → result (list MetricsT).
Variable requests_get :
  string → gmap string string → nat → result (Response Json).

(** The list comprehension that makes a [FinancialMetrics] of every
    record of [cached_data] with [metric["report_period"] <= end_date],
    evaluated left to right. *)
Fixpoint filtered_metrics_of (end_date : string)
    (cached_data : list Cache.record) : result (list MetricsT) :=
  match cached_data with
  | [] => Ok []
  | metric :: rest =>
      keep ← reported_by end_date metric;
      if keep : bool then
        m ← FinancialMetrics metric;
        ms ← filtered_metrics_of end_date rest;
        Ok (m :: ms)
      else filtered_metrics_of end_date rest
  end.

(** The part of [get_financial_metrics] after the cache lookup. *)
Definition fetch_financial_metrics (ticker end_date period : string)
    (limit : Z) : M World (list MetricsT) :=
  api_key ← environ_get "FINANCIAL_DATASETS_API_KEY";
  let headers := headers_of api_key in
  let url := metrics_url ticker end_date limit period in
  response ← get requests_get url headers;
  if bool_decide (status_code response ≠ 200) then
    m_lift (Raise (Exception_ (error_message ticker response)))
  else
    doc ← m_lift (json response);
    financial_metrics ←
      m_lift (FinancialMetricsResponse_financial_metrics doc);
    match financial_metrics with
    | [] => mret []
    | _ :: _ =>
        _ ← on_cache (Cache.set_financial_metrics ticker
                        (model_dump <$> financial_metrics));
        mret financial_metrics
    end.

(** [get_financial_metrics]; the defaults of [period] and [limit] are
    ["ttm"] and [10]. *)
Definition get_financial_metrics (ticker end_date period : string)
    (limit : Z) : M World (list MetricsT) :=
  cached_data ← on_cache (Cache.get_financial_metrics ticker);
  filtered_data ←
    match cached_data with
    | Some ((_ :: _) as cached_data) =>
        filtered_data ← m_lift (filtered_metrics_of end_date cached_data);
        mret (sort_desc report_period filtered_data)
    | _ => mret []
    end;
  match filtered_data with
  | _ :: _ => mret (slice_to limit filtered_data)
  | [] => fetch_financial_metrics ticker end_date period limit
  end.

(** [get_market_cap]. *)
Definition get_market_cap (ticker end_date : string)
  : M World (option spec_float) :=
  financial_metrics ← get_financial_metrics ticker end_date "ttm" 10;
  let market_cap :=
    match financial_metrics with
    | latest :: _ => market_cap latest
    | [] => None
    end in
  match market_cap with
  | Some f => if float_truthy f then mret (Some f) else mret None
  | None => mret None
  end.

End Metrics.

(** The JSON body of the line-item search. *)
Record line_items_query : Type := mk_query {
  query_tickers : list string;
  query_line_items : list string;
  query_end_date : string;
  query_period : string;
  query_limit : Z;
}.

(** The class [LineItemResponse] is given by the [search_results] of the
    instance built from a decoded document, and [requests.post] by what
    it answers to a URL, headers and a body, given the number of requests
    sent before. *)
Section LineItems.
Context {Json LineItemT : Type}.
Variable LineItemResponse_search_results : Json → result (list LineItemT).
Variable requests_post :
  string → gmap string string → line_items_query → nat
  → result (Response Json).

(** [requests.post(url, headers=headers, json=body)]. *)
Definition post (url : string) (headers : gmap string string)
    (body : line_items_query) : M World (Response Json) :=
  λ w, (requests_post url headers body (length (requests w)),
        mk_world (_cache w) (environ w) (requests w ++ [(url, headers)])).

(** [search_line_items]; the defaults of [period] and [limit] are
    ["ttm"] and [10]. *)
Definition search_line_items (ticker : string) (line_items : list string)
    (end_date period : string) (limit : Z) : M World (list LineItemT) :=
  api_key ← environ_get "FINANCIAL_DATASETS_API_KEY";
  let headers := headers_of api_key in
  let url := "https://api.financialdatasets.ai/financials/search/line-items" in
  let body := mk_query [ticker] line_items end_date period limit in
  response ← post url headers body;
  if bool_decide (status_code response ≠ 200) then
    m_lift (Raise (Exception_ (error_message ticker response)))
  else
    data ← m_lift (json response);
    search_results ← m_lift (LineItemResponse_search_results data);
    match search_results with
    | [] => mret []
    | _ :: _ => mret (slice_to limit search_results)
    end.

End LineItems.

(** [s.split('T')[0]]: what comes before the first [T], the whole string
    when there is none. *)
Fixpoint before_T (s : string) : string :=
  match s with
  | EmptyString => EmptyString
  | String c s' =>
      if Ascii.eqb c "T" then EmptyString else String c (before_T s')
  end.

(** [min] of a non-empty sequence of [str]. *)
Definition min_str (first : string) (others : list string) : string :=
  foldl (λ m x, if String.ltb x m then x else m) first others.

(** A [str | None] that is truthy: a non-empty string. *)
Definition nonempty (s : option string) : option string :=
  match s with
  | Some ((String _ _) as s) => Some s
  | _ => None
  end.

(** The test of the comprehension in [get_company_news]:
    [(start_date is None or news["date"] >= start_date)
     and news["date"] <= end_date]. *)
Definition news_in_range (start_date : option string) (end_date : string)
    (news : Cache.record) : result bool :=
  after ←
    match start_date with
    | None => Ok true
    | Some start_date =>
        d ← Cache.getitem news "date";
        match d with
        | Cache.PStr d => Ok (str_le start_date d)
        | Cache.PNone =>
            Raise (TypeError
              "'>=' not supported between instances of 'NoneType' and 'str'")
        | Cache.PInt _ =>
            Raise (TypeError
              "'>=' not supported between instances of 'int' and 'str'")
        | Cache.PList _ =>
            Raise (TypeError
              "'>=' not supported between instances of 'list' and 'str'")
        end
    end;
  if after : bool then
    d ← Cache.getitem news "date";
    match d with
    | Cache.PStr d => Ok (str_le d end_date)
    | Cache.PNone =>
        Raise (TypeError
          "'<=' not supported between instances of 'NoneType' and 'str'")
    | Cache.PInt _ =>
        Raise (TypeError
          "'<=' not supported between instances of 'int' and 'str'")
    | Cache.PList _ =>
        Raise (TypeError
          "'<=' not supported between instances of 'list' and 'str'")
    end
  else Ok false.

Definition news_url (ticker current_end_date : string)
    (start_date : option string) (limit : Z) : string :=
  let url := "https://api.financialdatasets.ai/news/?ticker=" +:+ ticker
             +:+ "&end_date=" +:+ current_end_date in
  let url := match nonempty start_date with
             | Some start_date => url +:+ "&start_date=" +:+ start_date
             | None => url
             end in
  url +:+ "&limit=" +:+ pretty limit.

(** The class [CompanyNews] is given by its constructor on the items of a
    cached dictionary, by the attribute [date] of an instance and by
    [model_dump]; [CompanyNewsResponse] by the [news] of the instance
    built from a decoded document. *)
Section News.
Context {Json NewsT : Type}.
Variable CompanyNews : Cache.record → result NewsT.
Variable date : NewsT → string.
Variable model_dump : NewsT → Cache.record.
Variable CompanyNewsResponse_news : Json → result (list NewsT).
Variable requests_get :
  string → gmap string string → nat → result (Response Json).

Fixpoint filtered_news_of (start_date : option string) (end_date : string)
    (cached_data : list Cache.record) : result (list NewsT) :=
  match cached_data with
  | [] => Ok []
  | news :: rest =>
      keep ← news_in_range start_date end_date news;
      if keep : bool then
        n ← CompanyNews news;
        ns ← filtered_news_of start_date end_date rest;
        Ok (n :: ns)
      else filtered_news_of start_date end_date rest
  end.

(** The [while True] loop of [get_company_news], run for at most [fuel]
    iterations: [Some all_news] when the loop is left by a [break],
    [None] when the iterations are used up. *)
Fixpoint pagination (fuel : nat) (ticker : string)
    (start_date : option string) (limit : Z)
    (headers : gmap string string) (current_end_date : string)
    (all_news : list NewsT) : M World (option (list NewsT)) :=
  match fuel with
  | O => mret None
  | S fuel =>
      let url := news_url ticker current_end_date start_date limit in
      response ← get requests_get url headers;
      if bool_decide (status_code response ≠ 200) then
        m_lift (Raise (Exception_ (error_message ticker response)))
      else
        data ← m_lift (json response);
        company_news ← m_lift (CompanyNewsResponse_news data);
        match company_news with
        | [] => mret (Some all_news)
        | first :: others =>
            let all_news := all_news ++ company_news in
            match nonempty start_date with
            | None => mret (Some all_news)
            | Some start_date' =>
                if bool_decide (Z.of_nat (length company_news) < limit) then
                  mret (Some all_news)
                else
                  let current_end_date :=
                    before_T (min_str (date first) (date <$> others)) in
                  if str_le current_end_date start_date' then
                    mret (Some all_news)
                  else
                    pagination fuel ticker start_date limit headers
                      current_end_date all_news
            end
        end
  end.

(** [get_company_news], with the iterations its loop may use. *)
Definition get_company_news (fuel : nat) (ticker end_date : string)
    (start_date : option string) (limit : Z)
  : M World (option (list NewsT)) :=
  cached_data ← on_cache (Cache.get_company_news ticker);
  filtered_data ←
    match cached_data with
    | Some ((_ :: _) as cached_data) =>
        filtered_data ←
          m_lift (filtered_news_of start_date end_date cached_data);
        mret (sort_desc date filtered_data)
    | _ => mret []
    end;
  match filtered_data with
  | _ :: _ => mret (Some filtered_data)
  | [] =>
      api_key ← environ_get "FINANCIAL_DATASETS_API_KEY";
      let headers := headers_of api_key in
      all_news ← pagination fuel ticker start_date limit headers end_date [];
      match all_news with
      | None => mret None
      | Some [] => mret (Some [])
      | Some ((_ :: _) as all_news) =>
          _ ← on_cache (Cache.set_company_news ticker
                          (model_dump <$> all_news));
          mret (Some all_news)
      end
  end.

End News.

(** *** Vocabulary *)

(** The record carries a [str] timestamp inside the range. *)
Definition dated_within (start_date end_date : string)
    (price : Cache.record) : bool :=
  match price !! "time" with
  | Some (Cache.PStr t) => within start_date end_date t
  | _ => false
  end.

(** The record carries a [str] timestamp. *)
Definition timed (price : Cache.record) : bool :=
  match price !! "time" with
  | Some (Cache.PStr _) => true
  | _ => false
  end.

(** What is cached for the ticker, the empty list when nothing is. *)
Definition cached_prices (ticker : string) (w : World) : list Cache.record :=
  default [] (Cache._prices_cache (_cache w) !! ticker).

Definition cached_metrics (ticker : string) (w : World) : list Cache.record :=
  default [] (Cache._financial_metrics_cache (_cache w) !! ticker).

(** The record carries a [str] report period, and one that is not after
    [end_date]. *)
Definition periodic (metric : Cache.record) : bool :=
  match metric !! "report_period" with
  | Some (Cache.PStr _) => true
  | _ => false
  end.

Definition reported_until (end_date : string) (metric : Cache.record) : bool :=
  match metric !! "report_period" with
  | Some (Cache.PStr t) => str_le t end_date
  | _ => false
  end.

Definition cached_news (ticker : string) (w : World) : list Cache.record :=
  default [] (Cache._company_news_cache (_cache w) !! ticker).

(** The length of [l[:limit]] for a list of length [n]. *)
Definition slice_length (limit : Z) (n : nat) : nat :=
  if bool_decide (limit < 0) then Z.to_nat (Z.of_nat n + limit)
  else Nat.min (Z.to_nat limit) n.

(** [a] is not older than [b]. *)
Definition not_older {A} (key : A → string) (a b : A) : Prop :=
  str_le (key b) (key a) = true.

(** The world after one request for the prices of [ticker]. *)
Definition requested (ticker start_date end_date : string) (w : World)
  : World :=
  mk_world (_cache w) (environ w)
    (requests w ++ [(prices_url ticker start_date end_date,
                     headers_of (environ w !! "FINANCIAL_DATASETS_API_KEY"))]).

(** *** Sample data *)

(** A [Price] class that asks for a [str] timestamp and an [int]
    volume and keeps the dictionary as it is. *)
Definition sample_Price (price : Cache.record) : result Cache.record :=
  match price !! "time", price !! "volume" with
  | Some (Cache.PStr _), Some (Cache.PInt _) => Ok price
  | _, _ => Raise (ValidationError "Price")
  end.

Definition sample_dump (p : Cache.record) : Cache.record := p.

(** A decoded document is the list of its price dictionaries. *)
Fixpoint sample_prices (doc : list Cache.record)
  : result (list Cache.record) :=
  match doc with
  | [] => Ok []
  | price :: rest =>
      p ← sample_Price price; ps ← sample_prices rest; Ok (p :: ps)
  end.

(** A service that answers every request with two prices of January
    2024, one that is down, and one that knows no prices. *)
Definition service_up : string → gmap string string → nat
    → result (Response (list Cache.record)) :=
  λ _ _ _, Ok (mk_response 200 "OK" (Ok [Cache.price_1; Cache.price_2])).

Definition service_down : string → gmap string string → nat
    → result (Response (list Cache.record)) :=
  λ _ _ _, Ok (mk_response 503 "Service Unavailable"
                 (Raise (JSONDecodeError "Expecting value"))).

Definition service_empty : string → gmap string string → nat
    → result (Response (list Cache.record)) :=
  λ _ _ _, Ok (mk_response 200 "OK" (Ok [])).

Definition fresh_world : World := mk_world Cache.init ∅ [].

(** Metrics with a report period and no market capitalization. *)
Definition sample_FinancialMetrics (metric : Cache.record)
  : result (string * option spec_float) :=
  match metric !! "report_period" with
  | Some (Cache.PStr t) => Ok (t, None)
  | _ => Raise (ValidationError "FinancialMetrics")
  end.

Definition sample_metrics_dump (m : string * option spec_float)
  : Cache.record :=
  {[ "report_period" := Cache.PStr m.1 ]}.

Definition metrics_2023 : Cache.record :=
  {[ "report_period" := Cache.PStr "2023-12-31" ]}.
Definition metrics_2024 : Cache.record :=
  {[ "report_period" := Cache.PStr "2024-03-31" ]}.

Definition metrics_world : World :=
  mk_world (Cache.store Cache.FinancialMetrics "AAPL"
              [metrics_2023; metrics_2024] Cache.init) ∅ [].

Definition metrics_service_up : string → gmap string string → nat
    → result (Response (list (string * option spec_float))) :=
  λ _ _ _, Ok (mk_response 200 "OK"
                 (Ok [("2023-12-31", None); ("2024-03-31", None)])).

(** News that are their publication date; a service that always answers
    with the same two articles of one day, and one whose second answer
    is an error. *)
Definition sample_CompanyNews (news : Cache.record) : result string :=
  match news !! "date" with
  | Some (Cache.PStr d) => Ok d
  | _ => Raise (ValidationError "CompanyNews")
  end.

Definition sample_news_dump (n : string) : Cache.record :=
  {[ "date" := Cache.PStr n ]}.

Definition busy_day : list string :=
  ["2024-03-01T15:30:00Z"; "2024-03-01T09:00:00Z"].

Definition news_service_busy : string → gmap string string → nat
    → result (Response (list string)) :=
  λ _ _ _, Ok (mk_response 200 "OK" (Ok busy_day)).

Definition news_service_flaky : string → gmap string string → nat
    → result (Response (list string)) :=
  λ _ _ n,
    match n with
    | O => Ok (mk_response 200 "OK"
                 (Ok ["2024-03-01T15:30:00Z"; "2024-02-20T09:00:00Z"]))
    | S _ => Ok (mk_response 503 "Service Unavailable"
                   (Raise (JSONDecodeError "Expecting value")))
    end.

Definition metrics_service_down : string → gmap string string → nat
    → result (Response (list (string * option spec_float))) :=
  λ _ _ _, Ok (mk_response 503 "Service Unavailable"
                 (Raise (JSONDecodeError "Expecting value"))).

Definition warm_world : World :=
  mk_world (Cache.store Cache.Prices "AAPL" [Cache.price_1; Cache.price_2]
              Cache.init) ∅ [].

End Api.

(** ** The caller of the wrapper ([src/agents/warren_buffett.py]) *)
Module Agent.
Import Llm.

(** The prompt is built outside the repository, by [json.dumps] and
    [ChatPromptTemplate.invoke], from the ticker and the analysis data. *)
Section Output.
Context {Prompt AnalysisData : Type}.
Variable lax : annotation → value → result value.
Variable json_loads : string → result value.
Variable backend : runnable → Prompt → nat → result value.
Variable template_invoke : string → AnalysisData → result Prompt.

(** [generate_buffett_output]: [call_llm] with the signal class, the
    agent's name, the default attempt limit and the agent's own fallback
    factory [create_default_signal]. *)
Definition generate_buffett_output (ticker : string)
    (analysis_data : AnalysisData) (model_name model_provider : string)
  : M World value :=
  prompt ← m_lift (template_invoke ticker analysis_data);
  call_llm lax json_loads backend prompt model_name model_provider
    WarrenBuffettSignal (Some "warren_buffett_agent") 3
    (Some (create_default_signal lax)).

End Output.

(** *** Sample data *)
Definition sample_template (ticker : string) (analysis_data : string)
  : result string :=
  Ok ("Analyze this data for " +:+ ticker +:+ ": " +:+ analysis_data).

End Agent.

(** * Properties *)

(** Unfolding the binds of the two monads. *)
Ltac unfold_result := unfold mbind, result_mbind, result_bind.
Ltac unfold_state :=
  unfold mbind, M_mbind, m_bind, m_gets, m_lift, m_modify, mret, M_ret, m_ret.

(** ** Properties of the merge cache *)
Module CacheFacts.
Import Cache.

Section merge.
Context (key_field : string).
Implicit Types (item e : record) (existing incoming : list record).
Implicit Types (h : hkey) (ks : gset hkey).

Lemma py_hash_inj (v w : pyval) h :
  py_hash v = Ok h → py_hash w = Ok h → v = w.
Proof. destruct v, w; simpl; congruence. Qed.

Lemma item_key_ok item h :
  item_key key_field item = Ok h ↔
  ∃ v, item !! key_field = Some v ∧ py_hash v = Ok h.
Proof.
  unfold item_key, getitem, mbind, result_mbind, result_bind.
  destruct (item !! key_field) as [v|]; split.
  - eauto.
  - by intros (w & [= ->] & ?).
  - done.
  - by intros (w & ? & ?).
Qed.

Lemma has_identity_ok item :
  has_identity key_field item = true ↔ ∃ h, item_key key_field item = Ok h.
Proof.
  unfold has_identity. destruct (item_key key_field item); simpl.
  - split; eauto.
  - split; [done | by intros [? ?]].
Qed.

Lemma item_key_same item e h :
  item_key key_field item = Ok h → item_key key_field e = Ok h →
  item !! key_field = e !! key_field.
Proof.
  rewrite !item_key_ok. intros (v & -> & Hv) (w & -> & Hw).
  f_equal. eauto using py_hash_inj.
Qed.

Lemma item_key_lookup item e :
  item !! key_field = e !! key_field →
  item_key key_field item = item_key key_field e.
Proof. unfold item_key, getitem. by intros ->. Qed.

(** What the set comprehension computes, when it does not raise. *)
Definition keys_of ks existing : Prop :=
  ∀ h, h ∈ ks ↔ ∃ e, e ∈ existing ∧ item_key key_field e = Ok h.

Lemma existing_keys_of_inv existing ks :
  existing_keys_of key_field existing = Ok ks →
  Forall (λ e, has_identity key_field e = true) existing ∧ keys_of ks existing.
Proof.
  revert ks. induction existing as [| e rest IH]; simpl; intros ks.
  - intros [= <-]. split; [constructor |].
    intros h. split; [set_solver |]. intros (? & H & _). inversion H.
  - unfold_result.
    destruct (item_key key_field e) as [h0 |] eqn:He; [| done].
    destruct (existing_keys_of key_field rest) as [ks0 |]; [| done].
    intros [= <-]. destruct (IH ks0 eq_refl) as [Hall Hks]. split.
    + constructor; [| done]. apply has_identity_ok. eauto.
    + intros h. rewrite elem_of_union, elem_of_singleton, (Hks h). split.
      * intros [-> | (e' & ? & ?)]; [exists e | exists e'];
          split; try done; by constructor.
      * intros (e' & Hin & Hk). apply elem_of_cons in Hin as [-> | Hin].
        -- left. congruence.
        -- right. eauto.
Qed.

Lemma existing_keys_of_ok existing :
  Forall (λ e, has_identity key_field e = true) existing →
  ∃ ks, existing_keys_of key_field existing = Ok ks.
Proof.
  induction 1 as [| e rest He _ [ks IH]]; simpl; [eauto |].
  apply has_identity_ok in He as [h He].
  unfold_result. rewrite He, IH. eauto.
Qed.

Lemma keys_of_seen ks existing item h :
  keys_of ks existing → item_key key_field item = Ok h →
  h ∈ ks ↔ identity_seen key_field existing item.
Proof.
  intros Hks Hk. unfold identity_seen. rewrite (Hks h), list_elem_of_fmap.
  split.
  - intros (e & Hin & He). exists e. eauto using item_key_same.
  - intros (e & Heq & Hin). exists e. split; [done |].
    by rewrite <- (item_key_lookup _ _ Heq).
Qed.

Lemma new_items_ok ks existing incoming :
  keys_of ks existing →
  Forall (λ item, has_identity key_field item = true) incoming →
  new_items key_field ks incoming
  = Ok (filter (λ item, ¬ identity_seen key_field existing item) incoming).
Proof.
  intros Hks. induction 1 as [| item rest Hitem _ IH]; simpl; [done |].
  apply has_identity_ok in Hitem as [h Hh].
  unfold_result. rewrite Hh, IH. f_equal.
  rewrite filter_cons.
  destruct (decide (h ∈ ks)) as [Hin | Hin];
    rewrite (keys_of_seen _ _ _ _ Hks Hh) in Hin.
  - by rewrite decide_False by tauto.
  - by rewrite decide_True.
Qed.

Lemma new_items_inv ks incoming fresh :
  new_items key_field ks incoming = Ok fresh →
  Forall (λ item, has_identity key_field item = true) incoming.
Proof.
  revert fresh. induction incoming as [| item rest IH]; simpl; intros fresh.
  - constructor.
  - unfold_result.
    destruct (item_key key_field item) as [h |] eqn:Hh; [| done].
    destruct (new_items key_field ks rest) as [kept |]; [| done].
    intros _. constructor; [apply has_identity_ok |]; eauto.
Qed.

(** The merge of a non-empty bucket, under the contract. *)
Lemma merge_data_nonempty existing incoming :
  existing ≠ [] →
  Forall (λ e, has_identity key_field e = true) existing →
  Forall (λ item, has_identity key_field item = true) incoming →
  _merge_data (Some existing) incoming key_field
  = Ok (merge_spec existing incoming key_field).
Proof.
  intros Hne Hex Hinc. destruct existing as [| e rest]; [done |].
  unfold _merge_data.
  destruct (existing_keys_of_ok _ Hex) as [ks Hks].
  unfold_result. rewrite Hks.
  apply existing_keys_of_inv in Hks as [_ Hks].
  by rewrite (new_items_ok _ _ _ Hks Hinc).
Qed.

(** Conversely, a merge of a non-empty bucket that returns was given
    records that all keep the contract. *)
Lemma merge_data_nonempty_inv existing incoming merged :
  existing ≠ [] →
  _merge_data (Some existing) incoming key_field = Ok merged →
  Forall (λ e, has_identity key_field e = true) existing ∧
  Forall (λ item, has_identity key_field item = true) incoming ∧
  merged = merge_spec existing incoming key_field.
Proof.
  intros Hne. destruct existing as [| e rest]; [done |].
  unfold _merge_data, mbind, result_mbind, result_bind.
  destruct (existing_keys_of key_field (e :: rest)) as [ks |] eqn:Hks; [| done].
  destruct (new_items key_field ks incoming) as [fresh |] eqn:Hfresh; [| done].
  intros [= <-].
  apply existing_keys_of_inv in Hks as [Hex Hks].
  pose proof (new_items_inv _ _ _ Hfresh) as Hinc.
  rewrite (new_items_ok _ _ _ Hks Hinc) in Hfresh. injection Hfresh as <-.
  done.
Qed.

Lemma occurrences_app item l1 l2 :
  occurrences item (l1 ++ l2)
  = (occurrences item l1 + occurrences item l2)%nat.
Proof. unfold occurrences. by rewrite filter_app, length_app. Qed.

Lemma occurrences_not_elem item l : item ∉ l → occurrences item l = 0%nat.
Proof.
  unfold occurrences. induction l as [| x l IH]; [done |].
  rewrite not_elem_of_cons. intros [Hne Hl].
  rewrite filter_cons_False by congruence. auto.
Qed.

Lemma occurrences_filter (P : record → Prop) `{!∀ x, Decision (P x)} item l :
  occurrences item (filter P l)
  = if decide (P item) then occurrences item l else 0%nat.
Proof.
  unfold occurrences. induction l as [| x l IH]; [by case_decide |].
  rewrite (filter_cons P), (filter_cons (λ y, y = item) x l).
  destruct (decide (P x)) as [Hx | Hx].
  - rewrite (filter_cons (λ y, y = item)).
    destruct (decide (x = item)) as [-> | Hne]; simpl; rewrite IH;
      destruct (decide (P item)); done.
  - rewrite IH. destruct (decide (P item)) as [Hi | Hi]; [| done].
    destruct (decide (x = item)) as [-> | Hne]; done.
Qed.

Lemma filter_none (P : record → Prop) `{!∀ x, Decision (P x)} l :
  (∀ x, x ∈ l → ¬ P x) → filter P l = [].
Proof.
  induction l as [| x l IH]; [done |]. intros Hall.
  rewrite filter_cons_False by (apply Hall; constructor).
  apply IH. intros y Hy. apply Hall. by constructor.
Qed.

Lemma seen_of_elem existing item :
  item ∈ existing → identity_seen key_field existing item.
Proof. intros Hin. unfold identity_seen. by apply list_elem_of_fmap_2. Qed.

(** Every incoming record has its identity value in the merged list,
    so a second merge of the same records adds nothing. *)
Lemma merge_spec_absorbs existing incoming :
  filter (λ item, ¬ identity_seen key_field
                      (merge_spec existing incoming key_field) item) incoming
  = [].
Proof.
  apply filter_none. intros item Hin Hnot. apply Hnot.
  unfold merge_spec, identity_seen. rewrite fmap_app, elem_of_app.
  destruct (decide (identity_seen key_field existing item)) as [Hs | Hs];
    [by left | right].
  apply list_elem_of_fmap_2. by apply list_elem_of_filter.
Qed.

Lemma merge_spec_self incoming :
  merge_spec incoming incoming key_field = incoming.
Proof.
  unfold merge_spec. rewrite filter_none; [apply app_nil_r |].
  intros item Hin Hnot. apply Hnot. by apply seen_of_elem.
Qed.

Lemma merge_spec_unique existing incoming :
  unique_identities key_field existing →
  unique_identities key_field incoming →
  unique_identities key_field (merge_spec existing incoming key_field).
Proof.
  unfold unique_identities, merge_spec. intros Hex Hinc.
  rewrite omap_app. apply NoDup_app. split; [done |]. split.
  - intros v Hv Hv'.
    apply list_elem_of_omap in Hv as (e & He & Hev).
    apply list_elem_of_omap in Hv' as (item & Hitem & Hiv).
    apply list_elem_of_filter in Hitem as [Hnot _]. apply Hnot.
    unfold identity_seen. rewrite Hiv, <- Hev.
    by apply list_elem_of_fmap_2.
  - clear Hex. induction incoming as [| item rest IH]; [constructor |].
    simpl in Hinc. rewrite filter_cons.
    destruct (item !! key_field) as [v |] eqn:Hv.
    + apply NoDup_cons in Hinc as [Hv' Hrest].
      destruct (decide _); [| by auto]. simpl. rewrite Hv.
      apply NoDup_cons. split; [| by auto].
      intros Hin. apply Hv'.
      apply list_elem_of_omap in Hin as (x & Hx & Hxv).
      apply list_elem_of_omap. exists x.
      apply list_elem_of_filter in Hx as [_ Hx]. done.
    + destruct (decide _); [| by auto]. simpl. rewrite Hv. auto.
Qed.

(** The two ways a merge returns. *)
Lemma merge_data_ok_cases (bucket : option (list record)) incoming merged :
  _merge_data bucket incoming key_field = Ok merged →
  (merged = incoming ∧ (bucket = None ∨ bucket = Some [])) ∨
  (∃ existing, bucket = Some existing ∧ existing ≠ [] ∧
               merged = merge_spec existing incoming key_field).
Proof.
  destruct bucket as [[| e rest] |].
  - intros [= <-]. left. auto.
  - intros Hm. right. exists (e :: rest).
    apply merge_data_nonempty_inv in Hm as (_ & _ & ->); done.
  - intros [= <-]. left. auto.
Qed.

End merge.

(** *** The [set] operations *)

Lemma set_unfold k ticker data self :
  set k ticker data self
  = match _merge_data (bucket k self !! ticker) data (identity_field k) with
    | Ok merged => (Ok tt, store k ticker merged self)
    | Raise e => (Raise e, self)
    end.
Proof.
  destruct k; simpl;
    unfold set_prices, set_financial_metrics, set_line_items,
      set_insider_trades, set_company_news,
      mbind, M_mbind, m_bind, m_gets, m_lift, m_modify;
    by destruct (_merge_data _ _ _).
Qed.

Lemma bucket_store k ticker l self :
  bucket k (store k ticker l self) !! ticker = Some l.
Proof. destruct k; simpl; apply lookup_insert_eq. Qed.

Lemma store_store k ticker l self :
  store k ticker l (store k ticker l self) = store k ticker l self.
Proof. destruct k; simpl; by rewrite insert_insert_eq. Qed.

Lemma exec_set k ticker data self :
  exec (set k ticker data) self
  = match _merge_data (bucket k self !! ticker) data (identity_field k) with
    | Ok merged => store k ticker merged self
    | Raise _ => self
    end.
Proof. unfold exec. rewrite set_unfold. by destruct (_merge_data _ _ _). Qed.

(** One [set] keeps the invariant of the bucket it writes, when the
    incoming list has it. *)
Lemma set_keeps_unique k ticker data self :
  unique_identities (identity_field k) data →
  (∀ l, bucket k self !! ticker = Some l →
        unique_identities (identity_field k) l) →
  ∀ l, bucket k (exec (set k ticker data) self) !! ticker = Some l →
       unique_identities (identity_field k) l.
Proof.
  intros Hdata Hinv l. rewrite exec_set.
  destruct (bucket k self !! ticker) as [[| e rest] |] eqn:Hb.
  - simpl. rewrite bucket_store. by intros [= <-].
  - destruct (_merge_data _ _ _) as [merged |] eqn:Hm.
    + rewrite bucket_store. intros [= <-].
      apply merge_data_nonempty_inv in Hm as (_ & _ & ->); [| done].
      apply merge_spec_unique; auto.
    + rewrite Hb. intros [= <-]. auto.
  - simpl. rewrite bucket_store. by intros [= <-].
Qed.

(** A ticker that was never cached reads as absent, and reading changes
    nothing. *)
Lemma get_absent (k : kind) (ticker : string) :
  get k ticker init = (Ok None, init).
Proof. by destruct k. Qed.

Lemma get_reads_bucket (k : kind) (ticker : string) (self : t) :
  get k ticker self = (Ok (bucket k self !! ticker), self).
Proof. by destruct k. Qed.

(** The duplicate-drop example of the specification. *)
Example merge_duplicate_drop :
  _merge_data (Some [rec_A1]) [rec_A2; rec_B3] "id" = Ok [rec_A1; rec_B3].
Proof. vm_compute. reflexivity. Qed.

(** C3, as stated, fails: with [existing = [A1]] and [incoming = [B3; B3]]
    the incoming record [B3], whose identity value ["B"] is not in
    [existing], appears twice in the result, not exactly once.  And an
    incoming record without the identity field makes the merge raise
    [KeyError] instead of returning a list. *)
Lemma merge_fresh_record_twice :
  [rec_A1] ≠ [] ∧
  rec_B3 ∈ [rec_B3; rec_B3] ∧
  ¬ identity_seen "id" [rec_A1] rec_B3 ∧
  _merge_data (Some [rec_A1]) [rec_B3; rec_B3] "id"
  = Ok [rec_A1; rec_B3; rec_B3] ∧
  occurrences rec_B3 [rec_A1; rec_B3; rec_B3] = 2%nat ∧
  _merge_data (Some [rec_A1]) [price_untimed] "id" = Raise (KeyError "id").
Proof.
  split; [done |]. split; [by constructor |]. split.
  - refine (proj1 (bool_decide_eq_false _) _). vm_compute. reflexivity.
  - repeat split; vm_compute; reflexivity.
Qed.

(** C3 (amended): for a non-empty [existing] and an [incoming], all of
    whose records carry a hashable identity field, the merge returns
    [existing] followed by the incoming records whose identity value does
    not occur in [existing], in [incoming]'s order.  Hence every existing
    record is in the result; an incoming record with a fresh identity
    value occurs in the result as often as it occurs in [incoming]; and a
    record whose identity value is already in [existing] occurs only as
    often as it did in [existing] (it is dropped, nothing is updated). *)
Theorem merge_data_appends_fresh
    (existing incoming : list record) (key_field : string) :
  existing ≠ [] →
  Forall (λ item, has_identity key_field item = true) (existing ++ incoming) →
  ∃ merged,
    _merge_data (Some existing) incoming key_field = Ok merged ∧
    merged = merge_spec existing incoming key_field ∧
    take (length existing) merged = existing ∧
    (∀ e, e ∈ existing → e ∈ merged) ∧
    (∀ item, ¬ identity_seen key_field existing item →
       occurrences item merged = occurrences item incoming) ∧
    (∀ item, identity_seen key_field existing item →
       occurrences item merged = occurrences item existing).
Proof.
  intros Hne [Hex Hinc]%Forall_app.
  exists (merge_spec existing incoming key_field).
  split; [by apply merge_data_nonempty |]. split; [done |].
  unfold merge_spec. split; [by rewrite take_app_length |]. split.
  - intros e He. apply elem_of_app. by left.
  - split; intros item Hseen;
      rewrite occurrences_app, occurrences_filter.
    + rewrite decide_True by done.
      rewrite occurrences_not_elem; [done |].
      intros Hin. apply Hseen. by apply seen_of_elem.
    + rewrite decide_False by tauto. lia.
Qed.

Lemma merge_data_appends_fresh_witness :
  ∃ merged,
    _merge_data (Some [rec_A1]) [rec_A2; rec_B3; rec_B3] "id" = Ok merged ∧
    merged = merge_spec [rec_A1] [rec_A2; rec_B3; rec_B3] "id" ∧
    take (length [rec_A1]) merged = [rec_A1] ∧
    (∀ e, e ∈ [rec_A1] → e ∈ merged) ∧
    (∀ item, ¬ identity_seen "id" [rec_A1] item →
       occurrences item merged = occurrences item [rec_A2; rec_B3; rec_B3]) ∧
    (∀ item, identity_seen "id" [rec_A1] item →
       occurrences item merged = occurrences item [rec_A1]).
Proof.
  apply (merge_data_appends_fresh [rec_A1] [rec_A2; rec_B3; rec_B3] "id").
  - discriminate.
  - repeat constructor.
Defined.

(** C4, as stated, fails: the first [set] for a ticker stores the incoming
    list as it is, so two prices with the same [time] both end up in the
    bucket. *)
Lemma first_set_keeps_duplicates :
  bucket Prices (run_sets Prices "AAPL" [[price_1; price_1']] init) !! "AAPL"
  = Some [price_1; price_1'] ∧
  ¬ unique_identities "time" [price_1; price_1'].
Proof.
  split; [vm_compute; reflexivity |].
  unfold unique_identities. intros Hnd. simpl in Hnd.
  apply NoDup_cons in Hnd as [Hnotin _]. apply Hnotin.
  vm_compute. constructor.
Qed.

(** C4 (amended): for every sequence of [set] operations of one kind on
    one ticker, starting from the empty cache, in which each incoming list
    has no two records with the same identity value, no two records of the
    stored bucket share an identity value. *)
Theorem run_sets_unique (k : kind) (ticker : string)
    (batches : list (list record)) :
  Forall (unique_identities (identity_field k)) batches →
  ∀ l, bucket k (run_sets k ticker batches init) !! ticker = Some l →
       unique_identities (identity_field k) l.
Proof.
  unfold run_sets.
  assert (Hinit : ∀ l, bucket k init !! ticker = Some l →
                       unique_identities (identity_field k) l).
  { intros l. by destruct k. }
  revert Hinit. generalize init as self.
  induction batches as [| data rest IH]; intros self Hinv Hall; [done |].
  apply Forall_cons in Hall as [Hdata Hrest]. simpl.
  apply IH; [| done]. by apply set_keeps_unique.
Qed.

Lemma run_sets_unique_witness :
  Forall (unique_identities (identity_field Prices))
    [[price_1; price_2]; [price_1'; price_2]] ∧
  bucket Prices
    (run_sets Prices "AAPL" [[price_1; price_2]; [price_1'; price_2]] init)
  !! "AAPL" = Some [price_1; price_2] ∧
  unique_identities (identity_field Prices) [price_1; price_2].
Proof.
  assert (Hbatches : Forall (unique_identities (identity_field Prices))
                       [[price_1; price_2]; [price_1'; price_2]]).
  { repeat constructor; vm_compute;
      by inversion 1 as [| ? ? ? Hin]; inversion Hin. }
  split; [exact Hbatches |]. split; [vm_compute; reflexivity |].
  apply (run_sets_unique Prices "AAPL"
           [[price_1; price_2]; [price_1'; price_2]] Hbatches).
  vm_compute. reflexivity.
Defined.

(** C5, as stated, fails: with no bucket for the ticker yet, a record
    without the identity field is stored and nothing is raised. *)
Lemma set_untimed_price_stored :
  price_untimed !! identity_field Prices = None ∧
  set Prices "AAPL" [price_untimed] init
  = (Ok tt, store Prices "AAPL" [price_untimed] init) ∧
  bucket Prices (store Prices "AAPL" [price_untimed] init) !! "AAPL"
  = Some [price_untimed].
Proof. split; [| split]; vm_compute; reflexivity. Qed.

(** C5 (amended): when some incoming record lacks the kind's identity
    field, a [set] on a ticker whose bucket is non-empty raises and leaves
    the cache as it was; on a ticker whose bucket is absent or empty it
    stores the incoming list as it is. *)
Theorem set_missing_identity (k : kind) (ticker : string)
    (data : list record) (self : t) :
  (∃ item, item ∈ data ∧ item !! identity_field k = None) →
  match bucket k self !! ticker with
  | None | Some [] =>
      set k ticker data self = (Ok tt, store k ticker data self)
  | Some (_ :: _) =>
      ∃ e, set k ticker data self = (Raise e, self)
  end.
Proof.
  intros (item & Hin & Hnone). rewrite set_unfold.
  destruct (bucket k self !! ticker) as [[| e rest] |]; [done | | done].
  destruct (_merge_data _ _ _) as [merged |] eqn:Hm; [| eauto].
  apply merge_data_nonempty_inv in Hm as (_ & Hinc & _); [| done].
  rewrite Forall_forall in Hinc.
  apply Hinc, has_identity_ok in Hin as [h Hh].
  apply item_key_ok in Hh as (v & Hv & _). congruence.
Qed.

Lemma set_missing_identity_witness :
  ∃ e, set Prices "AAPL" [price_2; price_untimed]
         (store Prices "AAPL" [price_1] init)
       = (Raise e, store Prices "AAPL" [price_1] init).
Proof.
  apply (set_missing_identity Prices "AAPL" [price_2; price_untimed]
           (store Prices "AAPL" [price_1] init)).
  exists price_untimed. split; [| reflexivity].
  apply elem_of_cons. right. apply elem_of_cons. by left.
Defined.

(** C6: performing the same [set] twice leaves the cache, and so the
    bucket of the ticker, in the state the first [set] left it in. *)
Theorem set_twice (k : kind) (ticker : string) (data : list record)
    (self : t) :
  exec (set k ticker data) (exec (set k ticker data) self)
  = exec (set k ticker data) self.
Proof.
  rewrite (exec_set k ticker data self).
  destruct (_merge_data (bucket k self !! ticker) data (identity_field k))
    as [merged |] eqn:Hfirst; [| by rewrite exec_set, Hfirst].
  rewrite exec_set, bucket_store.
  destruct (_merge_data (Some merged) data (identity_field k))
    as [again |] eqn:Hsecond; [| done].
  assert (again = merged) as ->; [| apply store_store].
  apply merge_data_ok_cases in Hfirst
    as [[-> _] | (existing & _ & Hne & ->)].
  - destruct data as [| item rest]; [by injection Hsecond |].
    apply merge_data_nonempty_inv in Hsecond as (_ & _ & ->); [| done].
    apply merge_spec_self.
  - apply merge_data_nonempty_inv in Hsecond as (_ & _ & ->).
    + unfold merge_spec at 1. rewrite merge_spec_absorbs. apply app_nil_r.
    + unfold merge_spec. by destruct existing.
Qed.

(** C10: a [set] that raises leaves the whole cache, every ticker of
    every kind, exactly as it was before the call. *)
Theorem set_raise_unchanged (k : kind) (ticker : string)
    (data : list record) (self self' : t) (e : exn) :
  set k ticker data self = (Raise e, self') → self' = self.
Proof.
  rewrite set_unfold. destruct (_merge_data _ _ _); congruence.
Qed.

Lemma set_raise_unchanged_witness :
  set Prices "AAPL" [price_2; price_untimed] (store Prices "AAPL" [price_1] init)
  = (Raise (KeyError "time"), store Prices "AAPL" [price_1] init) ∧
  store Prices "AAPL" [price_1] init = store Prices "AAPL" [price_1] init.
Proof.
  assert (H : set Prices "AAPL" [price_2; price_untimed]
                (store Prices "AAPL" [price_1] init)
              = (Raise (KeyError "time"), store Prices "AAPL" [price_1] init))
    by (vm_compute; reflexivity).
  split; [exact H |].
  exact (set_raise_unchanged Prices "AAPL" [price_2; price_untimed]
           (store Prices "AAPL" [price_1] init)
           (store Prices "AAPL" [price_1] init) (KeyError "time") H).
Defined.

(** *** Further properties of the [set] operations *)

Lemma store_overwrite k ticker l l' self :
  store k ticker l (store k ticker l' self) = store k ticker l self.
Proof. destruct k; simpl; by rewrite insert_insert_eq. Qed.

Lemma bucket_store_other k ticker l self k' ticker' :
  (k', ticker') ≠ (k, ticker) →
  bucket k' (store k ticker l self) !! ticker' = bucket k' self !! ticker'.
Proof.
  intros Hne.
  destruct k, k'; simpl; try done;
    (rewrite lookup_insert_ne; [done |]; intros ->; by apply Hne).
Qed.

(** X1: a [set] touches one bucket only: the bucket of every other ticker,
    and of the same ticker under every other kind, is as it was, whether
    the [set] returns or raises. *)
Theorem set_other_buckets (k k' : kind) (ticker ticker' : string)
    (data : list record) (self : t) :
  (k', ticker') ≠ (k, ticker) →
  bucket k' (exec (set k ticker data) self) !! ticker'
  = bucket k' self !! ticker'.
Proof.
  intros Hne. rewrite exec_set.
  destruct (_merge_data _ _ _); [| done]. by apply bucket_store_other.
Qed.

Lemma set_other_buckets_witness :
  bucket LineItems
    (exec (set FinancialMetrics "AAPL" [price_1; price_2]) init) !! "AAPL"
  = bucket LineItems init !! "AAPL".
Proof.
  apply (set_other_buckets FinancialMetrics LineItems "AAPL" "AAPL").
  discriminate.
Defined.

(** X2: a bucket is only ever extended: what was stored for the ticker
    before a [set] (nothing, when the ticker was absent) is a prefix of
    what is stored after it. *)
Theorem set_extends_bucket (k : kind) (ticker : string)
    (data : list record) (self : t) :
  default [] (bucket k self !! ticker)
  `prefix_of`
  default [] (bucket k (exec (set k ticker data) self) !! ticker).
Proof.
  rewrite exec_set.
  destruct (_merge_data (bucket k self !! ticker) data (identity_field k))
    as [merged |] eqn:Hm; [| done].
  rewrite bucket_store. simpl.
  apply merge_data_ok_cases in Hm as [[-> [-> | ->]] | (ex & -> & _ & ->)];
    simpl; try apply prefix_nil.
  unfold merge_spec. by apply prefix_app_r.
Qed.

(** X3: on a ticker whose bucket is non-empty, a [set] returns exactly
    when every stored and every incoming record carries a hashable
    identity field; on an absent or empty bucket it always returns.  When
    it raises, the exception is the [KeyError] of the identity field or
    the [TypeError] of an unhashable value. *)
Theorem set_returns_iff (k : kind) (ticker : string) (data : list record)
    (self : t) :
  (is_ok (set k ticker data self).1 = true ↔
   match bucket k self !! ticker with
   | None | Some [] => True
   | Some existing =>
       Forall (λ item, has_identity (identity_field k) item = true)
         (existing ++ data)
   end) ∧
  (∀ e, (set k ticker data self).1 = Raise e →
        e = KeyError (identity_field k) ∨
        e = TypeError "unhashable type: 'list'").
Proof.
  rewrite set_unfold. split.
  - destruct (bucket k self !! ticker) as [[| x rest] |]; [done | | done].
    destruct (_merge_data _ _ _) as [merged |] eqn:Hm; simpl.
    + apply merge_data_nonempty_inv in Hm as (Hex & Hinc & _); [| done].
      split; [intros _ | done]. by apply (Forall_app _ (x :: rest) data).
    + split; [done |]. intros [Hex Hinc]%(Forall_app _ (x :: rest) data).
      rewrite merge_data_nonempty in Hm; done.
  - assert (Hkey : ∀ item e,
      item_key (identity_field k) item = Raise e →
      e = KeyError (identity_field k) ∨
      e = TypeError "unhashable type: 'list'").
    { intros item e. unfold item_key, getitem, mbind, result_mbind, result_bind.
      destruct (item !! identity_field k) as [[| | |] |]; simpl;
        intros [= <-]; auto. }
    assert (Hkeys : ∀ l e,
      existing_keys_of (identity_field k) l = Raise e →
      e = KeyError (identity_field k) ∨
      e = TypeError "unhashable type: 'list'").
    { induction l as [| item rest IH]; intros e; simpl; [done |].
      unfold_result.
      destruct (item_key _ item) eqn:Hi; [| intros [= <-]; eauto].
      destruct (existing_keys_of _ rest); [done |].
      intros [= <-]. by apply IH. }
    assert (Hnew : ∀ ks l e,
      new_items (identity_field k) ks l = Raise e →
      e = KeyError (identity_field k) ∨
      e = TypeError "unhashable type: 'list'").
    { intros ks. induction l as [| item rest IH]; intros e; simpl; [done |].
      unfold_result.
      destruct (item_key _ item) eqn:Hi; [| intros [= <-]; eauto].
      destruct (new_items _ ks rest); [done |].
      intros [= <-]. by apply IH. }
    intros e.
    destruct (bucket k self !! ticker) as [[| x rest] |]; simpl; try done.
    unfold_result.
    destruct (item_key _ x) eqn:Hx; [| intros [= <-]; eauto].
    destruct (existing_keys_of _ rest) eqn:Hrest;
      [| intros [= <-]; eauto].
    simpl. destruct (new_items _ _ data) eqn:Hdata; [done |].
    intros [= <-]. eauto.
Qed.

Lemma unique_app_not_seen key_field (r1 r2 : list record) item :
  unique_identities key_field (r1 ++ r2) →
  item ∈ r2 → has_identity key_field item = true →
  ¬ identity_seen key_field r1 item.
Proof.
  unfold unique_identities, identity_seen. rewrite omap_app.
  intros (_ & Hdisj & _)%NoDup_app Hin Hid Hseen.
  apply has_identity_ok in Hid as [h Hh].
  apply item_key_ok in Hh as (v & Hv & _).
  rewrite Hv in Hseen. apply list_elem_of_fmap in Hseen as (e & He & Hin').
  apply (Hdisj v).
  - apply list_elem_of_omap. by exists e.
  - apply list_elem_of_omap. by exists item.
Qed.

Lemma filter_all (P : record → Prop) `{!∀ x, Decision (P x)}
    (l : list record) :
  (∀ x, x ∈ l → P x) → filter P l = l.
Proof.
  induction l as [| x l IH]; [done |]. intros Hall.
  rewrite filter_cons_True by (apply Hall; by left).
  f_equal. apply IH. intros y Hy. apply Hall. by right.
Qed.

Lemma filter_seen_ext key_field (ex1 ex2 l : list record) :
  (∀ item, item ∈ l →
     identity_seen key_field ex1 item ↔ identity_seen key_field ex2 item) →
  filter (λ item, ¬ identity_seen key_field ex1 item) l
  = filter (λ item, ¬ identity_seen key_field ex2 item) l.
Proof.
  induction l as [| x l IH]; [done |]. intros Hext.
  rewrite !filter_cons.
  rewrite IH by (intros y Hy; apply Hext; by right).
  destruct (decide (¬ identity_seen key_field ex1 x)) as [H1 | H1];
    destruct (decide (¬ identity_seen key_field ex2 x)) as [H2 | H2];
    try done; exfalso; rewrite (Hext x) in H1 by (by left); tauto.
Qed.

Lemma exec_set_empty k ticker data self :
  bucket k self !! ticker = None ∨ bucket k self !! ticker = Some [] →
  exec (set k ticker data) self = store k ticker data self.
Proof. rewrite exec_set. by intros [-> | ->]. Qed.

Lemma exec_set_nonempty k ticker data self existing :
  bucket k self !! ticker = Some existing → existing ≠ [] →
  exec (set k ticker data) self
  = if decide (Forall (λ item, has_identity (identity_field k) item = true)
                 (existing ++ data))
    then store k ticker (merge_spec existing data (identity_field k)) self
    else self.
Proof.
  intros Hb Hne. rewrite exec_set, Hb.
  destruct (decide _) as [[Hex Hinc]%Forall_app | Hnot].
  - by rewrite merge_data_nonempty.
  - destruct (_merge_data _ _ _) as [merged |] eqn:Hm; [| done].
    apply merge_data_nonempty_inv in Hm as (Hex & Hinc & _); [| done].
    destruct Hnot. by apply Forall_app.
Qed.

(** X4: two [set]s in a row store what one [set] of the concatenated
    lists stores, provided the records of both lists carry a hashable
    identity field and no two of them share an identity value. *)
Theorem set_twice_is_set_concat (k : kind) (ticker : string)
    (data1 data2 : list record) (self : t) :
  Forall (λ item, has_identity (identity_field k) item = true)
    (data1 ++ data2) →
  unique_identities (identity_field k) (data1 ++ data2) →
  exec (set k ticker data2) (exec (set k ticker data1) self)
  = exec (set k ticker (data1 ++ data2)) self.
Proof.
  intros Hid Huniq. pose proof Hid as [Hid1 Hid2]%Forall_app.
  set (key := identity_field k) in *.
  assert (Hfresh2 : ∀ item, item ∈ data2 → ¬ identity_seen key data1 item).
  { intros item Hin. apply (unique_app_not_seen key data1 data2); [done..|].
    rewrite Forall_forall in Hid2. auto. }
  assert (Hafter_empty :
    exec (set k ticker data2) (store k ticker data1 self)
    = store k ticker (data1 ++ data2) self).
  { destruct data1 as [| y data1'].
    - rewrite exec_set_empty by (right; apply bucket_store).
      apply store_overwrite.
    - rewrite (exec_set_nonempty k ticker data2 _ (y :: data1'))
        by (apply bucket_store || done).
      rewrite decide_True by done. rewrite store_overwrite. f_equal.
      unfold merge_spec. by rewrite filter_all. }
  destruct (bucket k self !! ticker) as [[| x rest] |] eqn:Hb.
  - by rewrite !(exec_set_empty k ticker _ self) by auto.
  - set (ex := x :: rest) in *.
    rewrite (exec_set_nonempty k ticker data1 self ex) by done.
    rewrite (exec_set_nonempty k ticker (data1 ++ data2) self ex) by done.
    fold key.
    destruct (decide (Forall (λ item, has_identity key item = true) ex))
      as [Hex | Hex].
    + rewrite !decide_True by (apply Forall_app; split; done).
      rewrite (exec_set_nonempty k ticker data2 _ (merge_spec ex data1 key))
        by (apply bucket_store || done).
      fold key. rewrite decide_True.
      * rewrite store_overwrite. f_equal.
        unfold merge_spec. rewrite filter_app, <- app_assoc. do 2 f_equal.
        apply filter_seen_ext. intros item Hin.
        unfold identity_seen. rewrite fmap_app, elem_of_app. split; [| auto].
        intros [Hs | Hs]; [done |]. exfalso.
        apply (Hfresh2 item Hin). unfold identity_seen.
        apply list_elem_of_fmap in Hs as (e & He & Hin').
        apply list_elem_of_fmap. exists e. split; [done |].
        by apply list_elem_of_filter in Hin' as [_ ?].
      * unfold merge_spec. rewrite !Forall_app. repeat split; try done.
        apply Forall_forall. intros y [_ Hy]%list_elem_of_filter.
        rewrite Forall_forall in Hid1. auto.
    + rewrite !decide_False by (by intros [? _]%Forall_app).
      rewrite (exec_set_nonempty k ticker data2 self ex) by done.
      by rewrite decide_False by (by intros [? _]%Forall_app).
  - by rewrite !(exec_set_empty k ticker _ self) by auto.
Qed.

Lemma set_twice_is_set_concat_witness :
  exec (set Prices "AAPL" [price_2])
    (exec (set Prices "AAPL" [price_1]) init)
  = exec (set Prices "AAPL" ([price_1] ++ [price_2])) init.
Proof.
  apply (set_twice_is_set_concat Prices "AAPL" [price_1] [price_2] init).
  - repeat constructor.
  - unfold unique_identities. vm_compute.
    repeat constructor; by inversion 1 as [| ? ? ? Hin]; inversion Hin.
Defined.

(** X5: after a [set] that returns, the identity value of every incoming
    record is stored in the ticker's bucket, by the record itself or by
    an older one. *)
Theorem set_stores_identities (k : kind) (ticker : string)
    (data : list record) (self self' : t) (item : record) :
  set k ticker data self = (Ok tt, self') →
  item ∈ data →
  identity_seen (identity_field k)
    (default [] (bucket k self' !! ticker)) item.
Proof.
  rewrite set_unfold.
  destruct (_merge_data (bucket k self !! ticker) data (identity_field k))
    as [merged |] eqn:Hm; [| done].
  intros [= <-] Hin. rewrite bucket_store. simpl.
  apply merge_data_ok_cases in Hm as [[-> _] | (ex & _ & _ & ->)].
  - by apply seen_of_elem.
  - unfold merge_spec, identity_seen. rewrite fmap_app, elem_of_app.
    destruct (decide (identity_seen (identity_field k) ex item)) as [Hs | Hs];
      [by left | right].
    apply list_elem_of_fmap_2. by apply list_elem_of_filter.
Qed.

Lemma set_stores_identities_witness :
  set Prices "AAPL" [price_1'; price_2] (store Prices "AAPL" [price_1] init)
  = (Ok tt, store Prices "AAPL" [price_1; price_2] init) ∧
  price_1' ∈ [price_1'; price_2] ∧
  identity_seen (identity_field Prices)
    (default [] (bucket Prices (store Prices "AAPL" [price_1; price_2] init)
                 !! "AAPL")) price_1'.
Proof.
  assert (Hset : set Prices "AAPL" [price_1'; price_2]
                   (store Prices "AAPL" [price_1] init)
                 = (Ok tt, store Prices "AAPL" [price_1; price_2] init))
    by (vm_compute; reflexivity).
  assert (Hin : price_1' ∈ [price_1'; price_2]) by (by left).
  split; [exact Hset |]. split; [exact Hin |].
  exact (set_stores_identities Prices "AAPL" [price_1'; price_2] _ _
           price_1' Hset Hin).
Defined.

End CacheFacts.

(** ** Properties of the LLM invocation wrapper *)
Module LlmFacts.
Import Llm.

(** *** Default synthesis *)

Lemma default_value_supported a :
  supported a = true → default_value a = Ok (spec_default a).
Proof. destruct a as [| | | | | | | | | [| x args]]; simpl; done. Qed.

Lemma literal_matches_self x : literal_matches x (value_of_literal x) = true.
Proof. destruct x; simpl; by rewrite ?bool_decide_eq_true. Qed.

Lemma conforms_spec_default a :
  supported a = true → conforms a (spec_default a) = true.
Proof.
  destruct a as [| | | | | | | | | [| x args]]; simpl; try done.
  intros _. by rewrite literal_matches_self.
Qed.

Lemma default_values_of_supported fields acc :
  NoDup fields.*1 →
  Forall (λ na, supported na.2 = true) fields →
  ∃ default_values,
    default_values_of fields acc = Ok default_values ∧
    ∀ name, default_values !! name
            = match (list_to_map fields : gmap string annotation) !! name with
              | Some a => Some (spec_default a)
              | None => acc !! name
              end.
Proof.
  revert acc. induction fields as [| [n0 a0] rest IH]; intros acc Hnd Hall.
  - exists acc. split; [done |]. intros name. simpl. by rewrite lookup_empty.
  - apply NoDup_cons in Hnd as [Hfresh Hnd].
    apply Forall_cons in Hall as [Ha0 Hall]. simpl in Ha0.
    destruct (IH (<[n0 := spec_default a0]> acc) Hnd Hall) as (dv & Hdv & Hlook).
    exists dv. split.
    + simpl. rewrite (default_value_supported _ Ha0). exact Hdv.
    + intros name. rewrite Hlook. simpl.
      destruct (decide (n0 = name)) as [<- | Hne].
      * rewrite (not_elem_of_list_to_map_1 _ _ Hfresh).
        by rewrite !lookup_insert_eq.
      * by rewrite !(lookup_insert_ne _ _ _ _ Hne).
Qed.

Section validation.
Variable lax : annotation → value → result value.

Lemma validate_conforms model a v :
  conforms a v = true → validate lax model a v = Ok v.
Proof. unfold validate. by intros ->. Qed.

Lemma validate_rejects model a v :
  conforms a v = false → rejects a v = true →
  validate lax model a v = Raise (ValidationError model).
Proof. unfold validate. by intros -> ->. Qed.

Lemma validate_sound model a v x :
  lax_sound lax → validate lax model a v = Ok x → conforms a x = true.
Proof.
  intros Hlax. unfold validate. destruct (conforms a v) eqn:Hc.
  - by intros [= <-].
  - destruct (rejects a v); [done | apply Hlax].
Qed.

(** What [validate_fields] returns, when it returns. *)
Lemma validate_fields_ok model fields kwargs validated :
  NoDup fields.*1 →
  validate_fields lax model fields kwargs = Ok validated →
  ∀ name a, (name, a) ∈ fields →
    ∃ v x, kwargs !! name = Some v ∧ validate lax model a v = Ok x ∧
           (list_to_map validated : gmap string value) !! name = Some x.
Proof.
  revert validated.
  induction fields as [| [n0 a0] rest IH]; intros validated Hnd Hv name a Hin.
  - inversion Hin.
  - apply NoDup_cons in Hnd as [Hfresh Hnd]. simpl in Hv.
    destruct (kwargs !! n0) as [v |] eqn:Hk; [| done].
    unfold mbind, result_mbind, result_bind in Hv.
    destruct (validate lax model a0 v) as [x0 |] eqn:Hc; [| done].
    destruct (validate_fields lax model rest kwargs) as [xs |] eqn:Hrest;
      [| done].
    injection Hv as <-.
    apply elem_of_cons in Hin as [[= -> ->] | Hin].
    + exists v, x0. simpl. by rewrite lookup_insert_eq.
    + destruct (IH xs Hnd eq_refl name a Hin) as (v' & x & Hkx & Hvx & Hx).
      exists v', x. simpl. rewrite lookup_insert_ne; [done |].
      intros ->. apply Hfresh. apply list_elem_of_fmap.
      by exists (name, a).
Qed.

(** When every field finds a value of its type, validation passes. *)
Lemma validate_fields_total model fields kwargs :
  (∀ name a, (name, a) ∈ fields →
     ∃ x, kwargs !! name = Some x ∧ conforms a x = true) →
  ∃ validated, validate_fields lax model fields kwargs = Ok validated.
Proof.
  induction fields as [| [n0 a0] rest IH]; intros Hall; [by eexists |].
  destruct (Hall n0 a0) as (x & Hx & Hc); [by left |].
  destruct IH as [xs Hxs].
  { intros name a Hin. apply Hall. by right. }
  exists ((n0, x) :: xs). simpl. rewrite Hx, (validate_conforms _ _ _ Hc).
  unfold mbind, result_mbind, result_bind. by rewrite Hxs.
Qed.

(** Whatever the model class builds carries its name and, for every
    declared field, what validation made of the keyword argument. *)
Lemma construct_fields model_class kwargs v :
  construct lax model_class kwargs = Ok v →
  ∃ fields, v = VModel (cls_name model_class) fields ∧
    ∀ name a, model_fields model_class !! name = Some a →
      ∃ k x, kwargs !! name = Some k ∧
             validate lax (cls_name model_class) a k = Ok x ∧
             (list_to_map fields : gmap string value) !! name = Some x.
Proof.
  unfold construct, mbind, result_mbind, result_bind.
  destruct (validate_fields _ _ _ _) as [validated |] eqn:Hv; [| done].
  intros [= <-]. exists validated. split; [done |].
  intros name a Ha. apply elem_of_map_to_list in Ha.
  exact (validate_fields_ok _ _ _ _
           (NoDup_fst_map_to_list (model_fields model_class)) Hv name a Ha).
Qed.

Lemma construct_instance model_class kwargs v :
  lax_sound lax →
  construct lax model_class kwargs = Ok v → is_instance model_class v.
Proof.
  intros Hlax Hc.
  destruct (construct_fields _ _ _ Hc) as (fields & -> & Hfields).
  split; [done |]. intros name a Ha.
  destruct (Hfields name a Ha) as (k & x & _ & Hv & Hx).
  exists x. split; [done |]. by apply (validate_sound _ _ _ _ Hlax Hv).
Qed.

(** A keyword argument that is of the declared type is kept as it is. *)
Lemma construct_keeps model_class kwargs v name a x :
  construct lax model_class kwargs = Ok v →
  model_fields model_class !! name = Some a →
  kwargs !! name = Some x → conforms a x = true →
  field_of v name = Some x.
Proof.
  intros Hc Ha Hk Hx.
  destruct (construct_fields _ _ _ Hc) as (fields & -> & Hfields).
  destruct (Hfields name a Ha) as (k & x' & Hk' & Hv & Hlook).
  assert (k = x) as -> by congruence.
  rewrite (validate_conforms _ _ _ Hx) in Hv. simpl. congruence.
Qed.

(** Keyword arguments that are all of the declared types need no
    conversion: the class returns an instance that holds them. *)
Lemma construct_conforming model_class kwargs :
  (∀ name a, model_fields model_class !! name = Some a →
     ∃ x, kwargs !! name = Some x ∧ conforms a x = true) →
  ∃ v, construct lax model_class kwargs = Ok v ∧
       is_instance model_class v ∧
       ∀ name a, model_fields model_class !! name = Some a →
         field_of v name = kwargs !! name.
Proof.
  intros Hall.
  destruct (validate_fields_total (cls_name model_class)
              (map_to_list (model_fields model_class)) kwargs)
    as [validated Hv].
  { intros name a Hin. apply elem_of_map_to_list in Hin. eauto. }
  assert (Hc : construct lax model_class kwargs
               = Ok (VModel (cls_name model_class) validated)).
  { unfold construct, mbind, result_mbind, result_bind. by rewrite Hv. }
  eexists. split; [exact Hc |].
  assert (Hkeep : ∀ name a, model_fields model_class !! name = Some a →
            field_of (VModel (cls_name model_class) validated) name
            = kwargs !! name).
  { intros name a Ha. destruct (Hall name a Ha) as (x & Hx & Hcx).
    rewrite Hx. by apply (construct_keeps _ _ _ _ _ _ Hc Ha). }
  split; [| done]. split; [done |]. intros name a Ha.
  destruct (Hall name a Ha) as (x & Hx & Hcx).
  exists x. split; [| done]. specialize (Hkeep name a Ha).
  simpl in Hkeep. congruence.
Qed.

Lemma create_default_response_instance model_class v :
  lax_sound lax →
  create_default_response lax model_class = Ok v → is_instance model_class v.
Proof.
  intros Hlax. unfold create_default_response, mbind, result_mbind, result_bind.
  destruct (default_values_of _ _) as [dv |]; [| done].
  by apply construct_instance.
Qed.

(** Default synthesis on a schema of supported field types. *)
Lemma default_response_of_supported (model_class : schema) :
  (∀ name a, model_fields model_class !! name = Some a → supported a = true) →
  ∃ instance,
    create_default_response lax model_class = Ok instance ∧
    is_instance model_class instance ∧
    ∀ name a, model_fields model_class !! name = Some a →
      field_of instance name = Some (spec_default a).
Proof.
  intros Hsup.
  destruct (default_values_of_supported
              (map_to_list (model_fields model_class)) ∅)
    as (dv & Hdv & Hlook).
  { apply NoDup_fst_map_to_list. }
  { apply Forall_forall. intros [n a] Hin. simpl.
    apply elem_of_map_to_list in Hin. eauto. }
  assert (Hdv' : ∀ name a, model_fields model_class !! name = Some a →
                   dv !! name = Some (spec_default a)).
  { intros name a Ha. rewrite Hlook, list_to_map_to_list. by rewrite Ha. }
  destruct (construct_conforming model_class dv) as (v & Hc & Hi & Hf).
  { intros name a Ha. exists (spec_default a). split; [by apply Hdv' |].
    apply conforms_spec_default. eauto. }
  exists v. split.
  - unfold create_default_response, mbind, result_mbind, result_bind.
    by rewrite Hdv.
  - split; [done |]. intros name a Ha. rewrite (Hf name a Ha).
    by apply Hdv'.
Qed.

End validation.

Lemma sample_lax_sound : lax_sound sample_lax.
Proof.
  intros a v x. destruct a, v; try discriminate. simpl.
  case_bool_decide; [| discriminate]. by intros [= <-].
Qed.

(** C7, as stated, fails: a field declared [bool] is given [None], which
    the model class rejects, so no instance is returned; and a mapping
    field declared as the bare class [dict] is given [None], not an empty
    mapping. *)
Lemma create_default_response_unsupported :
  default_value TBool = Ok VNone ∧
  (∀ lax, create_default_response lax Flagged
          = Raise (ValidationError "Flagged")) ∧
  default_value TDictClass = Ok VNone ∧
  (∀ lax, create_default_response lax Tagged
          = Raise (ValidationError "Tagged")).
Proof. repeat split; intros; vm_compute; reflexivity. Qed.

(** C7 (amended): for every target schema whose fields are declared
    [str], [float], [int], a parameterised [Dict] or a [Literal] with at
    least one value, [create_default_response] returns an instance of the
    schema in which each field holds the default of its type: the
    placeholder string, [0.0], [0], the empty mapping, the first literal
    value. *)
Theorem create_default_response_supported
    (lax : annotation → value → result value) (model_class : schema) :
  (∀ name a, model_fields model_class !! name = Some a → supported a = true) →
  ∃ instance,
    create_default_response lax model_class = Ok instance ∧
    is_instance model_class instance ∧
    ∀ name a, model_fields model_class !! name = Some a →
      field_of instance name = Some (spec_default a).
Proof. apply default_response_of_supported. Qed.

(** The example of the specification: a string field, a float field and a
    choice field allowing bullish, bearish, neutral. *)
Lemma create_default_response_supported_witness :
  ∃ instance,
    create_default_response sample_lax WarrenBuffettSignal = Ok instance ∧
    is_instance WarrenBuffettSignal instance ∧
    ∀ name a, model_fields WarrenBuffettSignal !! name = Some a →
      field_of instance name = Some (spec_default a).
Proof.
  apply (create_default_response_supported sample_lax WarrenBuffettSignal).
  intros name a.
  apply (map_Forall_lookup_1 (λ (_ : string) a, supported a = true)
           (model_fields WarrenBuffettSignal) name a).
  apply (bool_decide_unpack _). vm_compute. reflexivity.
Defined.

Example create_default_response_signal lax :
  field_of_result (create_default_response lax WarrenBuffettSignal) "reasoning"
  = Some (VStr "Error in analysis, using default") ∧
  field_of_result (create_default_response lax WarrenBuffettSignal) "confidence"
  = Some (VFloat float_zero) ∧
  field_of_result (create_default_response lax WarrenBuffettSignal) "signal"
  = Some (VStr "bullish").
Proof. repeat split; vm_compute; reflexivity. Qed.

(** The one conversion of the sample validator: an integer confidence. *)
Example construct_converts_int :
  construct sample_lax WarrenBuffettSignal (list_to_map int_object)
  = Ok bullish_signal.
Proof. vm_compute. reflexivity. Qed.

(** *** Locating the fenced block *)

Lemma str_take_0 j s : str_take j s = substring 0 j s.
Proof. revert s. induction j as [| j IH]; intros [| c s]; simpl; congruence. Qed.

Lemma str_take_drop n j s : str_take j (str_drop n s) = substring n j s.
Proof.
  revert s. induction n as [| n IH]; intros s.
  - apply str_take_0.
  - destruct s as [| c s]; simpl; [by destruct j | apply IH].
Qed.

Lemma find_first sub s i : find sub s = Some i → first_occurrence sub s i.
Proof.
  intros Hf. split.
  - exact (index_correct1 0 i sub s Hf).
  - intros p Hp. apply (index_correct2 0 i sub s Hf p); lia.
Qed.

Lemma find_nowhere sub s :
  sub ≠ EmptyString → find sub s = None → no_occurrence sub s.
Proof.
  intros Hne Hf p. apply (index_correct3 0 p sub s Hf Hne). lia.
Qed.

Lemma first_find sub s i :
  sub ≠ EmptyString → first_occurrence sub s i → find sub s = Some i.
Proof.
  intros Hne [Hat Hmin]. destruct (find sub s) as [i' |] eqn:Hf.
  - apply find_first in Hf as [Hat' Hmin']. f_equal.
    destruct (Nat.lt_trichotomy i' i) as [Hlt | [-> | Hlt]]; [| done |].
    + by destruct (Hmin i' Hlt).
    + by destruct (Hmin' i Hlt).
  - by destruct (find_nowhere sub s Hne Hf i).
Qed.

Lemma nowhere_find sub s : no_occurrence sub s → find sub s = None.
Proof.
  intros Hno. destruct (find sub s) as [i |] eqn:Hf; [| done].
  apply find_first in Hf as [Hat _]. by destruct (Hno i).
Qed.

(** *** The model table *)

Lemma ModelProvider_getattr_declared :
  ModelProvider_getattr "GROQ" = Ok GROQ ∧
  ModelProvider_getattr "OPENAI" = Ok OPENAI ∧
  ModelProvider_getattr "ANTHROPIC" = Ok ANTHROPIC.
Proof. repeat split; vm_compute; reflexivity. Qed.

Lemma ModelProvider_getattr_undeclared :
  ModelProvider_getattr "DEEPSEEK" = Raise (AttributeError "DEEPSEEK") ∧
  ModelProvider_getattr "GEMINI" = Raise (AttributeError "GEMINI").
Proof. repeat split; vm_compute; reflexivity. Qed.

Lemma available_models_raises :
  AVAILABLE_MODELS = Raise (AttributeError "DEEPSEEK").
Proof. vm_compute. reflexivity. Qed.

Lemma import_llm_models_raises :
  import_llm_models = Raise (AttributeError "DEEPSEEK").
Proof. unfold import_llm_models. by rewrite available_models_raises. Qed.

Section extraction.
Context {Prompt : Type}.
Variable lax : annotation → value → result value.
Variable json_loads : string → result value.
Variable backend : runnable → Prompt → nat → result value.

Abbreviation extract := (extract_json_from_deepseek_response json_loads).

Lemma extract_fenced content i j :
  first_occurrence "```json" content i →
  first_occurrence "```" (str_drop (i + 7) content) j →
  extract (VStr content)
  = match json_loads (strip (substring (i + 7) j content)) with
    | Ok parsed => parsed
    | Raise _ => VNone
    end.
Proof.
  intros Hi Hj. unfold extract_json_from_deepseek_response, extract_from_text.
  rewrite (first_find "```json" _ _ ltac:(discriminate) Hi).
  rewrite (first_find "```" _ _ ltac:(discriminate) Hj).
  by rewrite str_take_drop.
Qed.

Lemma extract_no_opening content :
  no_occurrence "```json" content → extract (VStr content) = VNone.
Proof.
  intros Hno. unfold extract_json_from_deepseek_response, extract_from_text.
  by rewrite (nowhere_find _ _ Hno).
Qed.

Lemma extract_no_closing content i :
  first_occurrence "```json" content i →
  no_occurrence "```" (str_drop (i + 7) content) →
  extract (VStr content) = VNone.
Proof.
  intros Hi Hno. unfold extract_json_from_deepseek_response, extract_from_text.
  rewrite (first_find "```json" _ _ ltac:(discriminate) Hi).
  by rewrite (nowhere_find _ _ Hno).
Qed.

Section call.
Context (prompt : Prompt) (model_name model_provider : string)
  (pydantic_model : schema)
  (agent_name : option string) (max_retries : Z)
  (default_factory : option (result value)).

Abbreviation loop :=
  (retry_loop lax json_loads backend prompt pydantic_model agent_name
     max_retries default_factory).
Abbreviation attempt_try :=
  (try_block lax json_loads backend prompt pydantic_model).
Abbreviation attempt_except :=
  (except_block lax pydantic_model agent_name max_retries default_factory).
Abbreviation iteration info llm attempt :=
  (m_catch (attempt_try info llm) (attempt_except attempt)).
Abbreviation report := (reported agent_name max_retries).

(** **** One attempt *)

Lemma try_block_raise info (r : runnable) w e :
  backend r prompt (invocations w) = Raise e →
  attempt_try info (Some r) w = (Raise e, invoked w).
Proof.
  intros Hb. unfold try_block, mbind, M_mbind, m_bind, invoke. by rewrite Hb.
Qed.

(** In non-structured mode, a response from which nothing is extracted
    ends the attempt without a [return] and without entering the
    [except] block. *)
Lemma try_block_nothing_extracted info (r : runnable) w obj content :
  deepseek_mode info = true →
  backend r prompt (invocations w) = Ok obj →
  content_of obj = Ok content →
  truthy (extract content) = false →
  attempt_try info (Some r) w = (Ok None, invoked w).
Proof.
  intros Hmode Hb Hc Ht.
  unfold try_block, mbind, M_mbind, m_bind, invoke, m_lift.
  by rewrite Hb, Hmode, Hc, Ht.
Qed.

(** What a [return] inside the [try] block returns. *)
Lemma try_block_return info llm w v w1 :
  attempt_try info llm w = (Ok (Some v), w1) →
  (deepseek_mode info = true ∧
   ∃ kwargs, construct lax pydantic_model kwargs = Ok v) ∨
  (deepseek_mode info = false ∧
   ∃ r, llm = Some r ∧ backend r prompt (invocations w) = Ok v).
Proof.
  unfold try_block, mbind, M_mbind, m_bind, invoke, m_lift, mret, M_ret, m_ret.
  destruct llm as [r |]; [| done].
  destruct (backend r prompt (invocations w)) as [obj |] eqn:Hb; [| done].
  destruct (deepseek_mode info).
  - destruct (content_of obj) as [content |]; [| done].
    destruct (truthy (extract content)); [| done].
    destruct (extract content) as [| | | | | | d | | |]; simpl; try done.
    destruct (construct lax pydantic_model (list_to_map d)) as [x |] eqn:Hc;
      [| done].
    intros [= <- <-]. left. eauto.
  - intros [= <- <-]. right. eauto.
Qed.

Lemma try_block_factory_calls info llm w :
  factory_calls (attempt_try info llm w).2 = factory_calls w.
Proof.
  unfold try_block, mbind, M_mbind, m_bind, invoke, m_lift, mret, M_ret, m_ret.
  destruct llm as [r |]; [| done].
  destruct (backend r prompt (invocations w)); [| done].
  destruct (deepseek_mode info); [| done].
  destruct (content_of _); [| done].
  destruct (truthy _); [| done].
  by destruct (construct_from _ _ _).
Qed.

Lemma report_factory_calls attempt w :
  factory_calls (report attempt w) = factory_calls w.
Proof. unfold reported. by destruct (named agent_name). Qed.

Lemma report_invocations attempt w :
  invocations (report attempt w) = invocations w.
Proof. unfold reported. by destruct (named agent_name). Qed.

Lemma report_status_calls attempt w :
  status_calls (report attempt w)
  = status_calls w ++
    match named agent_name with
    | Some name => [(name, None, status_message attempt max_retries)]
    | None => []
    end.
Proof.
  unfold reported. destruct (named agent_name); [done |].
  by rewrite app_nil_r.
Qed.

(** The [except] block: report, then fall back on the last attempt. *)
Lemma except_block_unfold attempt e w :
  attempt_except attempt e w
  = if bool_decide (attempt = max_retries - 1) then
      match default_factory with
      | Some factory => (Some <$> factory, factory_called (report attempt w))
      | None =>
          (Some <$> create_default_response lax pydantic_model, report attempt w)
      end
    else (Ok None, report attempt w).
Proof.
  unfold except_block, reported, mbind, M_mbind, m_bind, m_lift, mret, M_ret,
    m_ret, call_factory, exec, update_status, m_modify.
  destruct (named agent_name); simpl;
    destruct (bool_decide (attempt = max_retries - 1)); try done;
    destruct default_factory as [[v | e'] |]; try done;
    by destruct (create_default_response lax pydantic_model).
Qed.

Lemma loop_cons info llm attempt rest w :
  loop info llm (attempt :: rest) w
  = match iteration info llm attempt w with
    | (Ok (Some v), w1) => (Ok v, w1)
    | (Ok None, w1) => loop info llm rest w1
    | (Raise e, w1) => (Raise e, w1)
    end.
Proof.
  simpl. unfold mbind, M_mbind, m_bind.
  by destruct (m_catch _ _ w) as [[[v |] | e] w1].
Qed.

Lemma iteration_raise info r attempt w e :
  backend r prompt (invocations w) = Raise e →
  iteration info (Some r) attempt w = attempt_except attempt e (invoked w).
Proof.
  intros Hb. unfold m_catch. by rewrite (try_block_raise _ _ _ _ Hb).
Qed.

Lemma iteration_nothing_extracted info r attempt w obj content :
  deepseek_mode info = true →
  backend r prompt (invocations w) = Ok obj →
  content_of obj = Ok content →
  truthy (extract content) = false →
  iteration info (Some r) attempt w = (Ok None, invoked w).
Proof.
  intros Hmode Hb Hc Ht. unfold m_catch.
  by rewrite (try_block_nothing_extracted _ _ _ _ _ Hmode Hb Hc Ht).
Qed.

(** **** The loop *)

Abbreviation fallback w :=
  (match default_factory with
   | Some factory => (factory, factory_called w)
   | None => (create_default_response lax pydantic_model, w)
   end).
Abbreviation fail_step := (λ w attempt, report attempt (invoked w)).
Abbreviation step info llm := (λ w attempt, exec (iteration info llm attempt) w).

(** When every call of the backend raises, the loop reports each attempt
    and falls back on the last one. *)
Lemma loop_all_raise info r pre w :
  (∀ n, ∃ e, backend r prompt n = Raise e) →
  (∀ a, a ∈ pre → a ≠ max_retries - 1) →
  loop info (Some r) (pre ++ [max_retries - 1]) w
  = fallback (foldl fail_step w (pre ++ [max_retries - 1])).
Proof.
  intros Hb. revert w. induction pre as [| a pre IH]; intros w Hpre.
  - simpl app. rewrite loop_cons.
    destruct (Hb (invocations w)) as [e He].
    rewrite (iteration_raise _ _ _ _ _ He), except_block_unfold.
    rewrite bool_decide_eq_true_2 by done. simpl.
    destruct default_factory as [[v | e'] |]; simpl; try done.
    by destruct (create_default_response lax pydantic_model).
  - simpl app. rewrite loop_cons.
    destruct (Hb (invocations w)) as [e He].
    rewrite (iteration_raise _ _ _ _ _ He), except_block_unfold.
    rewrite bool_decide_eq_false_2 by (apply Hpre; by left).
    simpl. apply IH. intros a' Ha'. apply Hpre. by right.
Qed.

Lemma iter_invoked n w :
  Nat.iter n invoked w
  = mk_world (environ w) (agent_status w) (status_calls w)
      (invocations w + n) (factory_calls w).
Proof.
  induction n as [| n IH]; simpl.
  - destruct w. simpl. by rewrite Nat.add_0_r.
  - rewrite IH. unfold invoked. simpl. f_equal. lia.
Qed.

(** When nothing is ever extracted, the loop runs to its end and the
    [return] after it synthesizes the default. *)
Lemma loop_nothing_extracted info r attempts w :
  deepseek_mode info = true →
  (∀ n, ∃ obj content,
     backend r prompt n = Ok obj ∧ content_of obj = Ok content ∧
     extract content = VNone) →
  loop info (Some r) attempts w
  = (create_default_response lax pydantic_model,
     Nat.iter (length attempts) invoked w).
Proof.
  intros Hmode Hb. revert w.
  induction attempts as [| a rest IH]; intros w; [done |].
  rewrite loop_cons.
  destruct (Hb (invocations w)) as (obj & content & Hobj & Hc & Hx).
  rewrite (iteration_nothing_extracted _ _ _ _ _ _ Hmode Hobj Hc)
    by (by rewrite Hx).
  rewrite IH. f_equal. symmetry. apply (Nat.iter_succ_r (length rest)).
Qed.

(** One iteration either goes on or returns an instance, as long as the
    fallbacks and the structured backend produce instances. *)
Lemma iteration_returns info llm attempt w :
  lax_sound lax →
  is_ok (create_default_response lax pydantic_model) = true →
  (∀ factory, default_factory = Some factory →
     ∃ v, factory = Ok v ∧ is_instance pydantic_model v) →
  (deepseek_mode info = false →
   ∀ r n v, llm = Some r → backend r prompt n = Ok v →
     is_instance pydantic_model v) →
  ∃ w1, iteration info llm attempt w = (Ok None, w1) ∨
        ∃ v, iteration info llm attempt w = (Ok (Some v), w1) ∧
             is_instance pydantic_model v.
Proof.
  intros Hlax Hd Hf Hb. unfold m_catch.
  destruct (attempt_try info llm w) as [[[v |] | e] w1] eqn:Ht.
  - exists w1. right. exists v. split; [done |].
    apply try_block_return in Ht as [[_ [kw Hc]] | [Hm (r & -> & Hr)]].
    + by apply (construct_instance lax _ _ _ Hlax Hc).
    + eapply Hb; eauto.
  - exists w1. by left.
  - rewrite except_block_unfold. case_bool_decide.
    + destruct default_factory as [factory |].
      * destruct (Hf factory eq_refl) as (v & -> & Hv).
        eexists. right. exists v. done.
      * destruct (create_default_response lax pydantic_model) as [d |] eqn:Hc;
          [| done].
        eexists. right. exists d. split; [done |].
        by apply (create_default_response_instance lax).
    + eexists. by left.
Qed.

Lemma loop_returns info llm attempts w :
  lax_sound lax →
  is_ok (create_default_response lax pydantic_model) = true →
  (∀ factory, default_factory = Some factory →
     ∃ v, factory = Ok v ∧ is_instance pydantic_model v) →
  (deepseek_mode info = false →
   ∀ r n v, llm = Some r → backend r prompt n = Ok v →
     is_instance pydantic_model v) →
  ∃ v w', loop info llm attempts w = (Ok v, w') ∧
          is_instance pydantic_model v.
Proof.
  intros Hlax Hd Hf Hb. revert w.
  induction attempts as [| a rest IH]; intros w.
  - simpl. unfold m_lift.
    destruct (create_default_response lax pydantic_model) as [d |] eqn:Hc;
      [| done].
    exists d, w. split; [done |].
    by apply (create_default_response_instance lax).
  - rewrite loop_cons.
    destruct (iteration_returns info llm a w Hlax Hd Hf Hb)
      as [w1 [-> | (v & -> & Hv)]]; eauto.
Qed.

(** The factory is called in one place only: the [except] block of the
    attempt numbered [max_retries - 1], entered because its [try] block
    raised. *)
Lemma loop_factory info llm attempts w res w' :
  loop info llm attempts w = (res, w') →
  factory_calls w' ≠ factory_calls w →
  ∃ pre post e w1,
    attempts = pre ++ (max_retries - 1) :: post ∧
    attempt_try info llm (foldl (step info llm) w pre) = (Raise e, w1) ∧
    default_factory = Some res ∧
    factory_calls w' = S (factory_calls w).
Proof.
  revert w. induction attempts as [| a rest IH]; intros w.
  - simpl. unfold m_lift. intros [= <- <-]. done.
  - rewrite loop_cons.
    assert (Hstep : step info llm w a = (iteration info llm a w).2) by done.
    unfold m_catch in *.
    pose proof (try_block_factory_calls info llm w) as Hfc.
    destruct (attempt_try info llm w) as [[[v |] | e] w1] eqn:Ht;
      simpl in Hfc.
    + intros [= <- <-]. congruence.
    + intros Hloop Hne. rewrite <- Hfc in Hne.
      destruct (IH w1 Hloop Hne)
        as (pre & post & e & w2 & -> & Hraise & Hsome & Hcalls).
      exists (a :: pre), post, e, w2. simpl. rewrite Hstep, <- Hfc. done.
    + rewrite except_block_unfold in *. case_bool_decide as Hlast.
      * subst a. destruct default_factory as [factory |].
        -- intros Hloop _. exists [], rest, e, w1.
           split; [done |]. split; [done |].
           destruct factory as [v | e']; simpl in Hloop;
             injection Hloop as <- <-; (split; [done |]);
             unfold factory_called; simpl;
             by rewrite report_factory_calls, Hfc.
        -- destruct (create_default_response lax pydantic_model); simpl;
             intros [= <- <-]; rewrite report_factory_calls; congruence.
      * intros Hloop Hne.
        rewrite <- Hfc, <- (report_factory_calls a w1) in Hne.
        destruct (IH _ Hloop Hne)
          as (pre & post & e' & w2 & -> & Hraise & Hsome & Hcalls).
        exists (a :: pre), post, e', w2. simpl. rewrite Hstep.
        rewrite Hcalls, report_factory_calls, Hfc. done.
Qed.

Lemma fail_step_world attempt w :
  invocations (fail_step w attempt) = S (invocations w) ∧
  status_calls (fail_step w attempt)
  = status_calls w ++
    match named agent_name with
    | Some name => [(name, None, status_message attempt max_retries)]
    | None => []
    end ∧
  factory_calls (fail_step w attempt) = factory_calls w.
Proof.
  cbv beta.
  by rewrite report_invocations, report_status_calls, report_factory_calls.
Qed.

(** **** [call_llm] *)

Abbreviation call :=
  (call_llm lax json_loads backend prompt model_name model_provider
     pydantic_model agent_name max_retries default_factory).

Lemma get_model_world name provider w : (get_model name provider w).2 = w.
Proof.
  unfold get_model, connect, mbind, M_mbind, m_bind, getenv, m_gets, m_lift,
    mret, M_ret, m_ret.
  destruct ModelProvider_getattr_declared as (-> & -> & ->).
  destruct ModelProvider_getattr_undeclared as (-> & _).
  repeat (case_bool_decide; [by destruct (missing _) |]). done.
Qed.

Lemma call_llm_unfold w :
  call w
  = match import_llm_models with
    | Raise e => (Raise e, w)
    | Ok table =>
        let model_info := get_model_info table model_name in
        match get_model model_name model_provider w with
        | (Raise e, w1) => (Raise e, w1)
        | (Ok llm, w1) =>
            if deepseek_mode model_info
            then loop model_info (Chat <$> llm) (seqZ 0 max_retries) w1
            else match with_structured_output pydantic_model llm with
                 | Ok llm' => loop model_info llm' (seqZ 0 max_retries) w1
                 | Raise e => (Raise e, w1)
                 end
        end
    end.
Proof.
  unfold call_llm, mbind, M_mbind, m_bind, m_lift.
  destruct import_llm_models as [table | e]; [| done]. cbn zeta.
  destruct (get_model model_name model_provider w) as [[llm | e] w1]; [| done].
  destruct (deepseek_mode _); simpl; [done |].
  by destruct (with_structured_output pydantic_model llm).
Qed.

(** The import at the head of [call_llm] never gets past the table. *)
Lemma call_llm_import_error w :
  call w = (Raise (AttributeError "DEEPSEEK"), w).
Proof. by rewrite call_llm_unfold, import_llm_models_raises. Qed.

Lemma seqZ_last n : 1 ≤ n → seqZ 0 n = seqZ 0 (n - 1) ++ [n - 1].
Proof.
  intros Hn. replace n with ((n - 1) + 1) at 1 by lia.
  rewrite seqZ_app by lia. by f_equal.
Qed.

Lemma seqZ_before_last n pre post :
  seqZ 0 n = pre ++ (n - 1) :: post → pre = seqZ 0 (n - 1).
Proof.
  intros Hsplit.
  assert (Hlook : seqZ 0 n !! length pre = Some (n - 1)).
  { rewrite Hsplit. by apply list_lookup_middle. }
  apply lookup_seqZ in Hlook as [Hlen Hlt].
  rewrite (seqZ_last n) in Hsplit by lia.
  apply (f_equal (take (length pre))) in Hsplit.
  rewrite take_app_length in Hsplit.
  rewrite take_app_length' in Hsplit; [done |].
  rewrite length_seqZ. lia.
Qed.

(** C1 (the code): [call_llm] raises on every call, whatever the prompt,
    the model, the schema, the attempt limit and the factory are.  Its
    first statement imports [llm.models]; the table [AVAILABLE_MODELS] of
    that module names the members [DEEPSEEK] and [GEMINI], which
    [ModelProvider] does not declare, so the module body raises
    [AttributeError] and the import, which is outside the [try] block,
    passes it to the caller.  The world is as it was: no model is
    resolved, no attempt made, no fallback consulted. *)
Theorem call_llm_raises_at_import (w : World) :
  ModelProvider_getattr "DEEPSEEK" = Raise (AttributeError "DEEPSEEK") ∧
  AVAILABLE_MODELS = Raise (AttributeError "DEEPSEEK") ∧
  call w = (Raise (AttributeError "DEEPSEEK"), w).
Proof.
  split; [apply ModelProvider_getattr_undeclared |].
  split; [exact available_models_raises |].
  apply call_llm_import_error.
Qed.

(** C8: on every text, the extraction finds the first opening fence
    tagged json and the first closing fence after it, and returns what
    [json.loads] makes of the text between them (surrounding whitespace
    removed), or [None] when that fails to parse; it returns [None] when
    there is no opening fence and when no closing fence follows it; and an
    attempt whose response yields [None] returns nothing: the loop passes
    to the remaining attempts. *)
Theorem extract_json_fenced_block (content : string) :
  (∀ i j,
     first_occurrence "```json" content i →
     first_occurrence "```" (str_drop (i + 7) content) j →
     extract (VStr content)
     = match json_loads (strip (substring (i + 7) j content)) with
       | Ok parsed => parsed
       | Raise _ => VNone
       end) ∧
  (no_occurrence "```json" content → extract (VStr content) = VNone) ∧
  (∀ i, first_occurrence "```json" content i →
        no_occurrence "```" (str_drop (i + 7) content) →
        extract (VStr content) = VNone) ∧
  (∀ model r attempt rest w,
     deepseek_mode model = true →
     backend r prompt (invocations w) = Ok (VMessage (VStr content)) →
     extract (VStr content) = VNone →
     loop model (Some r) (attempt :: rest) w
     = loop model (Some r) rest (invoked w)).
Proof.
  split; [| split; [| split]].
  - apply extract_fenced.
  - apply extract_no_opening.
  - apply extract_no_closing.
  - intros model r attempt rest w Hmode Hb Hx. rewrite loop_cons.
    rewrite (iteration_nothing_extracted model r attempt w
               (VMessage (VStr content)) (VStr content)); try done.
    by rewrite Hx.
Qed.

End call.
End extraction.

Lemma status_message_1_of_3 : status_message 0 3 = "Error - retry 1/3".
Proof. vm_compute. reflexivity. Qed.

Lemma status_message_2_of_3 : status_message 1 3 = "Error - retry 2/3".
Proof. vm_compute. reflexivity. Qed.

Lemma status_message_3_of_3 : status_message 2 3 = "Error - retry 3/3".
Proof. vm_compute. reflexivity. Qed.

Lemma create_default_signal_value lax :
  create_default_signal lax = Ok neutral_signal.
Proof. vm_compute. reflexivity. Qed.

Lemma neutral_signal_instance : is_instance WarrenBuffettSignal neutral_signal.
Proof.
  apply (construct_instance sample_lax WarrenBuffettSignal _ _
           sample_lax_sound (create_default_signal_value sample_lax)).
Qed.

(** C2 (the code): with a backend whose every call would fail and an
    attempt limit of 3, [call_llm] does not invoke the backend 3 times,
    makes no status call and returns neither the factory's output nor the
    synthesized default: the import at its head raises [AttributeError]
    (the defect of C1) before the retry loop is reached, so the backend,
    the status callback and the factory are called 0 times.  This holds
    at the call of the Warren Buffett agent and for every other call with
    that attempt limit. *)
Theorem call_llm_exhausted_at_import :
  call_llm sample_lax sample_loads backend_down "Analyze AAPL" "gpt-4o"
    "OpenAI" WarrenBuffettSignal (Some "warren_buffett_agent") 3
    (Some (create_default_signal sample_lax)) world_with_keys
  = (Raise (AttributeError "DEEPSEEK"), world_with_keys) ∧
  (∀ (Prompt : Type) lax json_loads
     (backend : runnable → Prompt → nat → result value) prompt
     model_name model_provider pydantic_model agent_name default_factory w,
     let outcome :=
       call_llm lax json_loads backend prompt model_name model_provider
         pydantic_model agent_name 3 default_factory w in
     outcome.1 = Raise (AttributeError "DEEPSEEK") ∧
     invocations outcome.2 = invocations w ∧
     status_calls outcome.2 = status_calls w ∧
     factory_calls outcome.2 = factory_calls w).
Proof.
  split; [apply call_llm_import_error |].
  intros. subst outcome. by rewrite call_llm_import_error.
Qed.

(** C9 (the code): the non-structured path is never taken.  For a model
    named deepseek-chat whose every response is prose, [call_llm] does
    not consume its attempts and does not return the synthesized default,
    which the schema has: it raises [AttributeError] at the import (the
    defect of C1), before [get_model_info] can find the model and before
    any call of the backend.  For every call, no attempt is consumed. *)
Theorem call_llm_deepseek_at_import :
  call_llm sample_lax sample_loads backend_prose "Analyze AAPL"
    "deepseek-chat" "DeepSeek" WarrenBuffettSignal
    (Some "warren_buffett_agent") 3
    (Some (create_default_signal sample_lax)) world_with_keys
  = (Raise (AttributeError "DEEPSEEK"), world_with_keys) ∧
  is_ok (create_default_response sample_lax WarrenBuffettSignal) = true ∧
  (∀ (Prompt : Type) lax json_loads
     (backend : runnable → Prompt → nat → result value) prompt
     model_name model_provider pydantic_model agent_name max_retries
     default_factory w,
     let outcome :=
       call_llm lax json_loads backend prompt model_name model_provider
         pydantic_model agent_name max_retries default_factory w in
     is_ok outcome.1 = false ∧ invocations outcome.2 = invocations w).
Proof.
  split; [apply call_llm_import_error |].
  split; [vm_compute; reflexivity |].
  intros. subst outcome. by rewrite call_llm_import_error.
Qed.

(** The extraction example of the specification. *)
Lemma extract_json_fenced_block_witness :
  extract_json_from_deepseek_response sample_loads (VStr sample_text)
  = sample_object ∧
  extract_json_from_deepseek_response sample_loads (VStr "no fenced block here")
  = VNone.
Proof.
  destruct (extract_json_fenced_block sample_lax sample_loads backend_down
              "Analyze AAPL" WarrenBuffettSignal None 3 None sample_text)
    as (Hfenced & _).
  destruct (extract_json_fenced_block sample_lax sample_loads backend_down
              "Analyze AAPL" WarrenBuffettSignal None 3 None
              "no fenced block here")
    as (_ & Hnone & _).
  split.
  - rewrite (Hfenced 9%nat 56%nat).
    + vm_compute. reflexivity.
    + apply find_first. vm_compute. reflexivity.
    + apply find_first. vm_compute. reflexivity.
  - apply Hnone. apply find_nowhere; [discriminate |]. vm_compute. reflexivity.
Defined.

(** *** Further properties of the retry loop and of [call_llm] *)
Section more.
Context {Prompt : Type}.
Variable lax : annotation → value → result value.
Variable json_loads : string → result value.
Variable backend : runnable → Prompt → nat → result value.
Context (prompt : Prompt) (model_name model_provider : string)
  (pydantic_model : schema) (agent_name : option string) (max_retries : Z)
  (default_factory : option (result value)).

Abbreviation extract := (extract_json_from_deepseek_response json_loads).
Abbreviation loop :=
  (retry_loop lax json_loads backend prompt pydantic_model agent_name
     max_retries default_factory).
Abbreviation attempt_try :=
  (try_block lax json_loads backend prompt pydantic_model).
Abbreviation attempt_except :=
  (except_block lax pydantic_model agent_name max_retries default_factory).
Abbreviation iteration info llm attempt :=
  (m_catch (attempt_try info llm) (attempt_except attempt)).
Abbreviation report := (reported agent_name max_retries).
Abbreviation fallback w :=
  (match default_factory with
   | Some factory => (factory, factory_called w)
   | None => (create_default_response lax pydantic_model, w)
   end).
Abbreviation step info llm := (λ w attempt, exec (iteration info llm attempt) w).
Abbreviation call :=
  (call_llm lax json_loads backend prompt model_name model_provider
     pydantic_model agent_name max_retries default_factory).

Lemma report_environ attempt w : environ (report attempt w) = environ w.
Proof. unfold reported. by destruct (named agent_name). Qed.

(** The world after a run of attempts that all raised, each after
    [tick] (a call of the backend, or nothing). *)
Lemma failed_attempts_world (tick : World → World) attempts w :
  (∀ w0, environ (tick w0) = environ w0 ∧
         status_calls (tick w0) = status_calls w0 ∧
         factory_calls (tick w0) = factory_calls w0) →
  let w' := foldl (λ w0 a, report a (tick w0)) w attempts in
  environ w' = environ w ∧
  status_calls w' = status_calls w ++ reports agent_name max_retries attempts ∧
  factory_calls w' = factory_calls w.
Proof.
  intros Htick. revert w. induction attempts as [| a rest IH]; intros w.
  - simpl. unfold reports. rewrite app_nil_r || idtac.
    destruct (named agent_name); simpl; by rewrite ?app_nil_r.
  - simpl. destruct (IH (report a (tick w))) as (He & Hs & Hf).
    destruct (Htick w) as (He' & Hs' & Hf').
    rewrite He, Hs, Hf, report_environ, report_status_calls,
      report_factory_calls, He', Hs', Hf'.
    split; [done |]. split; [| done].
    unfold reports. rewrite <- app_assoc.
    by destruct (named agent_name).
Qed.

Lemma failed_invocations attempts w :
  invocations (foldl (λ w0 a, report a (invoked w0)) w attempts)
  = (invocations w + length attempts)%nat.
Proof.
  revert w. induction attempts as [| a rest IH]; intros w; simpl; [lia |].
  rewrite IH, report_invocations. simpl. lia.
Qed.

Lemma unreached_invocations attempts w :
  invocations (foldl (λ w0 a, report a w0) w attempts) = invocations w.
Proof.
  revert w. induction attempts as [| a rest IH]; intros w; simpl; [done |].
  by rewrite IH, report_invocations.
Qed.

(** A run of attempts whose [try] block raises, up to the last attempt:
    the fallback decides. *)
Lemma loop_all_try_raise (tick : World → World) model llm pre w :
  (∀ w0, ∃ e, attempt_try model llm w0 = (Raise e, tick w0)) →
  (∀ a, a ∈ pre → a ≠ max_retries - 1) →
  loop model llm (pre ++ [max_retries - 1]) w
  = fallback (foldl (λ w0 a, report a (tick w0)) w (pre ++ [max_retries - 1])).
Proof.
  intros Hraise. revert w. induction pre as [| a pre IH]; intros w Hpre.
  - simpl app. rewrite loop_cons. unfold m_catch.
    destruct (Hraise w) as [e ->]. rewrite except_block_unfold.
    rewrite bool_decide_eq_true_2 by done. simpl.
    destruct default_factory as [[v | e'] |]; simpl; try done.
    by destruct (create_default_response lax pydantic_model).
  - simpl app. rewrite loop_cons. unfold m_catch.
    destruct (Hraise w) as [e ->]. rewrite except_block_unfold.
    rewrite bool_decide_eq_false_2 by (apply Hpre; by left).
    simpl. apply IH. intros a' Ha'. apply Hpre. by right.
Qed.

(** A run of attempts whose backend call raises, followed by an attempt
    whose [try] block returns. *)
Lemma loop_succeeds_after model r pre attempt rest w v w1 :
  (∀ a, a ∈ pre → a ≠ max_retries - 1) →
  (∀ i, (i < length pre)%nat →
        ∃ e, backend r prompt (invocations w + i) = Raise e) →
  attempt_try model (Some r)
    (foldl (λ w0 a, report a (invoked w0)) w pre) = (Ok (Some v), w1) →
  loop model (Some r) (pre ++ attempt :: rest) w = (Ok v, w1).
Proof.
  revert w. induction pre as [| a pre IH]; intros w Hpre Hb Htry.
  - simpl app. rewrite loop_cons. unfold m_catch. simpl in Htry.
    by rewrite Htry.
  - simpl app. rewrite loop_cons.
    destruct (Hb 0%nat) as [e He]; [simpl; lia |].
    rewrite Nat.add_0_r in He.
    erewrite iteration_raise by exact He. rewrite except_block_unfold.
    rewrite bool_decide_eq_false_2 by (apply Hpre; by left).
    apply IH; [| | done].
    + intros a' Ha'. apply Hpre. by right.
    + intros i Hi. rewrite report_invocations. simpl.
      destruct (Hb (S i)) as [e' He']; [simpl; lia |].
      exists e'. rewrite <- He'. f_equal. lia.
Qed.

Lemma seqZ_split (k : nat) n :
  Z.of_nat k < n →
  seqZ 0 n = seqZ 0 (Z.of_nat k) ++ Z.of_nat k :: seqZ (Z.of_nat k + 1) (n - Z.of_nat k - 1).
Proof.
  intros Hk. replace n with (Z.of_nat k + (n - Z.of_nat k)) at 1 by lia.
  rewrite seqZ_app by lia. f_equal. simpl.
  rewrite seqZ_cons by lia. by f_equal.
Qed.

(** X6: in structured mode, when the first [k] calls of the backend raise
    and the next one returns [v], with [k] below the attempt limit, the
    retry loop of [call_llm] returns [v] as it is after exactly [k + 1]
    calls of the backend, with one status call for each of the [k] failed
    attempts and no call of the fallback factory. *)
Theorem retry_loop_structured_success (model : option LLMModel)
    (r : runnable) (w : World) (k : nat) (v : value) :
  deepseek_mode model = false →
  Z.of_nat k < max_retries →
  (∀ i, (i < k)%nat → ∃ e, backend r prompt (invocations w + i) = Raise e) →
  backend r prompt (invocations w + k) = Ok v →
  ∃ w',
    loop model (Some r) (seqZ 0 max_retries) w = (Ok v, w') ∧
    invocations w' = (invocations w + k + 1)%nat ∧
    status_calls w'
    = status_calls w ++ reports agent_name max_retries (seqZ 0 (Z.of_nat k)) ∧
    factory_calls w' = factory_calls w ∧
    environ w' = environ w.
Proof.
  intros Hmode Hk Hfail Hok.
  set (pre := seqZ 0 (Z.of_nat k)).
  set (w0 := foldl (λ w0 a, report a (invoked w0)) w pre).
  assert (Hlen : length pre = k) by (unfold pre; rewrite length_seqZ; lia).
  assert (Hinv : invocations w0 = (invocations w + k)%nat).
  { unfold w0. by rewrite failed_invocations, Hlen. }
  destruct (failed_attempts_world invoked pre w) as (He & Hs & Hf); [done |].
  fold w0 in He, Hs, Hf.
  exists (invoked w0). split.
  - rewrite (seqZ_split k max_retries Hk). fold pre.
    apply loop_succeeds_after.
    + intros a Ha%elem_of_seqZ. lia.
    + intros i Hi. apply Hfail. lia.
    + fold w0. rewrite <- Hinv in Hok.
      unfold try_block, mbind, M_mbind, m_bind, invoke.
      by rewrite Hok, Hmode.
  - unfold invoked. simpl. rewrite Hinv, Hs, Hf, He.
    repeat split; try done. lia.
Qed.

(** X7: with an attempt limit of zero or less, the retry loop of
    [call_llm] has no iteration: the backend is not called and the
    statement after the loop returns what [create_default_response]
    returns, leaving the world as it is; the fallback factory is not
    consulted. *)
Theorem retry_loop_no_attempts (model : option LLMModel)
    (llm : option runnable) (w : World) :
  max_retries ≤ 0 →
  loop model llm (seqZ 0 max_retries) w
  = (create_default_response lax pydantic_model, w).
Proof. intros Hmax. by rewrite seqZ_nil. Qed.

(** What one [try] block does to the world. *)
Lemma try_block_world model llm w :
  (attempt_try model llm w).2 = w ∨ (attempt_try model llm w).2 = invoked w.
Proof.
  unfold try_block, mbind, M_mbind, m_bind, invoke, m_lift, mret, M_ret, m_ret.
  destruct llm as [r |]; [right | by left].
  destruct (backend r prompt (invocations w)); [| done].
  destruct (deepseek_mode model); [| done].
  destruct (content_of _); [| done].
  destruct (truthy _); [| done].
  by destruct (construct_from _ _ _).
Qed.

Lemma report_agent_status attempt w a :
  (named agent_name ≠ Some a →
   agent_status (report attempt w) !! a = agent_status w !! a) ∧
  agent_status (report attempt w) !! a ≫= snd = agent_status w !! a ≫= snd.
Proof.
  unfold reported. destruct (named agent_name) as [name |]; [| done].
  unfold exec, update_status, m_modify. simpl.
  destruct (decide (name = a)) as [-> | Hne].
  - split; [congruence |]. rewrite lookup_insert_eq.
    unfold status_message.
    by destruct (agent_status w !! a) as [[s t] |].
  - rewrite lookup_insert_ne by done. done.
Qed.

Lemma reachable_refl w : reachable_in agent_name 0 w w.
Proof.
  unfold reachable_in. repeat split; try done; try lia.
  exists []. by rewrite app_nil_r.
Qed.

Lemma reachable_more n m w w' :
  (n ≤ m)%nat → reachable_in agent_name n w w' → reachable_in agent_name m w w'.
Proof.
  intros Hnm (He & Hi & (extra & Hs & Hl) & Hf & Ha & Ht).
  repeat split; try done; try lia. exists extra. split; [done | lia].
Qed.

(** One iteration of the loop is one attempt; it calls the factory only
    when it ends the loop. *)
Lemma iteration_reachable model llm attempt w :
  reachable_in agent_name 1 w (iteration model llm attempt w).2 ∧
  ((iteration model llm attempt w).1 = Ok None →
   factory_calls (iteration model llm attempt w).2 = factory_calls w).
Proof.
  unfold m_catch.
  pose proof (try_block_world model llm w) as Hw.
  destruct (attempt_try model llm w) as [[o | e] w1]; simpl in Hw.
  - split; [| by destruct Hw as [-> | ->]].
    destruct Hw as [-> | ->]; simpl.
    + apply (reachable_more 0); [lia | apply reachable_refl].
    + unfold reachable_in, invoked. simpl. repeat split; try done; try lia.
      exists []. split; [by rewrite app_nil_r | simpl; lia].
  - rewrite except_block_unfold.
    assert (Hrep : reachable_in agent_name 1 w (report attempt w1)).
    { unfold reachable_in.
      rewrite report_environ, report_invocations, report_status_calls,
        report_factory_calls.
      assert (Hsame : environ w1 = environ w ∧ status_calls w1 = status_calls w
                      ∧ factory_calls w1 = factory_calls w
                      ∧ agent_status w1 = agent_status w
                      ∧ (invocations w ≤ invocations w1 ≤ S (invocations w))%nat).
      { destruct Hw as [-> | ->]; simpl; repeat split; try done; lia. }
      destruct Hsame as (-> & -> & -> & Hag & Hi).
      repeat split; try done; try lia.
      - eexists. split; [done |]. destruct (named agent_name); simpl; lia.
      - intros a Ha.
        destruct (report_agent_status attempt w1 a) as [Hother _].
        by rewrite Hother, Hag.
      - intros a.
        destruct (report_agent_status attempt w1 a) as [_ Hticker].
        by rewrite Hticker, Hag. }
    assert (Hfc : factory_calls (report attempt w1) = factory_calls w).
    { rewrite report_factory_calls. by destruct Hw as [-> | ->]. }
    case_bool_decide; [| done].
    destruct default_factory as [[v | e'] |]; simpl.
    + split; [| done].
      destruct Hrep as (He & Hi & Hs & Hf & Ha & Ht).
      unfold reachable_in, factory_called. simpl.
      repeat split; try done; try lia.
    + split; [| done].
      destruct Hrep as (He & Hi & Hs & Hf & Ha & Ht).
      unfold reachable_in, factory_called. simpl.
      repeat split; try done; try lia.
    + by destruct (create_default_response lax pydantic_model).
Qed.

Lemma loop_reachable model llm attempts w :
  reachable_in agent_name (length attempts) w (loop model llm attempts w).2.
Proof.
  revert w. induction attempts as [| a rest IH]; intros w.
  - simpl. apply reachable_refl.
  - rewrite loop_cons.
    destruct (iteration_reachable model llm a w) as [Hone Hfac].
    destruct (iteration model llm a w) as [[[v |] | e] w1]; simpl in *;
      try (apply (reachable_more 1); [lia | done]).
    specialize (IH w1). specialize (Hfac eq_refl).
    destruct Hone as (He & Hi & (x1 & Hs & Hl) & Hf & Ha & Ht).
    destruct IH as (He' & Hi' & (x2 & Hs' & Hl') & Hf' & Ha' & Ht').
    unfold reachable_in.
    split; [congruence |]. split; [lia |].
    split; [| split; [lia | split]].
    + exists (x1 ++ x2). rewrite Hs', Hs, length_app, app_assoc.
      split; [done | lia].
    + intros a0 Hne. rewrite Ha', Ha; done.
    + intros a0. by rewrite Ht', Ht.
Qed.

Lemma call_llm_reachable w :
  reachable_in agent_name (Z.to_nat max_retries) w (call w).2.
Proof.
  rewrite call_llm_unfold.
  destruct import_llm_models as [table | e];
    [| apply (reachable_more 0); [lia | apply reachable_refl]].
  cbn zeta.
  pose proof (get_model_world model_name model_provider w) as Hw.
  destruct (get_model model_name model_provider w) as [[llm | e] w1];
    simpl in Hw; subst w1;
    [| apply (reachable_more 0); [lia | apply reachable_refl]].
  pose proof (loop_reachable (get_model_info table model_name)) as Hloop.
  destruct (deepseek_mode _).
  - specialize (Hloop (Chat <$> llm) (seqZ 0 max_retries) w).
    by rewrite length_seqZ in Hloop.
  - destruct (with_structured_output pydantic_model llm) as [llm' |].
    + specialize (Hloop llm' (seqZ 0 max_retries) w).
      by rewrite length_seqZ in Hloop.
    + apply (reachable_more 0); [lia | apply reachable_refl].
Qed.

(** X8: whatever the backend does and however it ends, [call_llm] calls
    the backend at most [max_retries] times (never, when that is zero or
    less), adds at most that many status calls after the ones already
    made, calls the fallback factory at most once and leaves the process
    environment as it is.  The same bounds hold of its retry loop,
    entered with any model object. *)
Theorem call_llm_bounded (w : World) :
  (environ (call w).2 = environ w ∧
   (invocations w ≤ invocations (call w).2
    ≤ invocations w + Z.to_nat max_retries)%nat ∧
   (∃ extra, status_calls (call w).2 = status_calls w ++ extra ∧
             (length extra ≤ Z.to_nat max_retries)%nat) ∧
   (factory_calls w ≤ factory_calls (call w).2 ≤ S (factory_calls w))%nat) ∧
  (∀ model llm,
     let w' := (loop model llm (seqZ 0 max_retries) w).2 in
     environ w' = environ w ∧
     (invocations w ≤ invocations w'
      ≤ invocations w + Z.to_nat max_retries)%nat ∧
     (∃ extra, status_calls w' = status_calls w ++ extra ∧
               (length extra ≤ Z.to_nat max_retries)%nat) ∧
     (factory_calls w ≤ factory_calls w' ≤ S (factory_calls w))%nat).
Proof.
  split.
  - destruct (call_llm_reachable w) as (He & Hi & Hs & Hf & _). done.
  - intros model llm w'.
    pose proof (loop_reachable model llm (seqZ 0 max_retries) w) as Hloop.
    rewrite length_seqZ in Hloop.
    destruct Hloop as (He & Hi & Hs & Hf & _). done.
Qed.

(** X9: the progress entries of the other agents are not touched by
    [call_llm], and no agent's ticker is changed: the retry reports pass
    no ticker.  The same holds of its retry loop, entered with any model
    object. *)
Theorem call_llm_keeps_tickers (w : World) (agent : string) :
  ((named agent_name ≠ Some agent →
    agent_status (call w).2 !! agent = agent_status w !! agent) ∧
   agent_status (call w).2 !! agent ≫= snd = agent_status w !! agent ≫= snd) ∧
  (∀ model llm,
     let w' := (loop model llm (seqZ 0 max_retries) w).2 in
     (named agent_name ≠ Some agent →
      agent_status w' !! agent = agent_status w !! agent) ∧
     agent_status w' !! agent ≫= snd = agent_status w !! agent ≫= snd).
Proof.
  split.
  - destruct (call_llm_reachable w) as (_ & _ & _ & _ & Ha & Ht). split; auto.
  - intros model llm w'.
    destruct (loop_reachable model llm (seqZ 0 max_retries) w)
      as (_ & _ & _ & _ & Ha & Ht).
    split; auto.
Qed.

Lemma loop_falsy_extracted model r attempts w :
  deepseek_mode model = true →
  (∀ n, ∃ obj content,
     backend r prompt n = Ok obj ∧ content_of obj = Ok content ∧
     truthy (extract content) = false) →
  loop model (Some r) attempts w
  = (create_default_response lax pydantic_model,
     Nat.iter (length attempts) invoked w).
Proof.
  intros Hmode Hb. revert w.
  induction attempts as [| a rest IH]; intros w; [done |].
  rewrite loop_cons.
  destruct (Hb (invocations w)) as (obj & content & Hobj & Hc & Hx).
  erewrite iteration_nothing_extracted by done.
  rewrite IH. f_equal. symmetry. apply (Nat.iter_succ_r (length rest)).
Qed.

(** The world after an exhausted run in which every attempt raised after
    calling the backend ([tick = invoked]) or before it ([tick = id]). *)
Lemma exhausted_world (tick : World → World) w :
  (∀ w0, environ (tick w0) = environ w0 ∧
         status_calls (tick w0) = status_calls w0 ∧
         factory_calls (tick w0) = factory_calls w0) →
  let w' := foldl (λ w0 a, report a (tick w0)) w (seqZ 0 max_retries) in
  status_calls (fallback w').2
  = status_calls w ++ reports agent_name max_retries (seqZ 0 max_retries) ∧
  factory_calls (fallback w').2
  = (factory_calls w + match default_factory with Some _ => 1 | None => 0 end)%nat ∧
  invocations (fallback w').2 = invocations w'.
Proof.
  intros Htick w'.
  destruct (failed_attempts_world tick (seqZ 0 max_retries) w Htick)
    as (_ & Hs & Hf). fold w' in Hs, Hf.
  destruct default_factory; simpl; rewrite Hs, Hf; repeat split; lia.
Qed.

(** X10: when every call of the backend raises, the retry loop of
    [call_llm] invokes the backend exactly [max_retries] times, reports
    each failed attempt to the status callback when an agent name is
    given, and ends as the fallback does: with what the factory returns
    or raises when one was given, called once, and otherwise with what
    [create_default_response] returns or raises. *)
Theorem retry_loop_exhausted (model : option LLMModel) (r : runnable)
    (w : World) :
  1 ≤ max_retries →
  (∀ n, ∃ e, backend r prompt n = Raise e) →
  ∃ w',
    loop model (Some r) (seqZ 0 max_retries) w
    = (match default_factory with
       | Some factory => factory
       | None => create_default_response lax pydantic_model
       end, w') ∧
    invocations w' = (invocations w + Z.to_nat max_retries)%nat ∧
    status_calls w'
    = status_calls w ++ reports agent_name max_retries (seqZ 0 max_retries) ∧
    factory_calls w'
    = (factory_calls w + match default_factory with Some _ => 1 | None => 0 end)%nat.
Proof.
  intros Hmax Hb.
  destruct (exhausted_world invoked w) as (Hs & Hf & Hi); [done |].
  rewrite failed_invocations, length_seqZ in Hi.
  eexists. split; [| split; [exact Hi | split; [exact Hs | exact Hf]]].
  rewrite (seqZ_last _ Hmax).
  rewrite (loop_all_try_raise invoked).
  - by destruct default_factory.
  - intros w0. destruct (Hb (invocations w0)) as [e He].
    exists e. by apply try_block_raise.
  - intros a Ha%elem_of_seqZ. lia.
Qed.

(** X11: in non-structured mode, an extraction result that is falsy (not
    only [None] but also an empty object or list, zero, [false], an empty
    string) ends the attempt like a missing block: with every response
    so, the retry loop of [call_llm] makes all its attempts without a
    status call and returns what [create_default_response] returns,
    factory or not. *)
Theorem retry_loop_falsy_extracted (model : option LLMModel) (r : runnable)
    (w : World) :
  deepseek_mode model = true →
  (∀ n, ∃ obj content,
     backend r prompt n = Ok obj ∧
     content_of obj = Ok content ∧ truthy (extract content) = false) →
  loop model (Some r) (seqZ 0 max_retries) w
  = (create_default_response lax pydantic_model,
     mk_world (environ w) (agent_status w) (status_calls w)
       (invocations w + Z.to_nat max_retries) (factory_calls w)).
Proof.
  intros Hmode Hb.
  rewrite (loop_falsy_extracted model r); try done.
  by rewrite iter_invoked, length_seqZ.
Qed.

(** X12: in non-structured mode, when the first response carries a fenced
    JSON object, not empty, from which the model class builds an
    instance, the retry loop of [call_llm] returns that instance after
    one call of the backend and no status call.  A value of the object
    that is already of the type its field declares is kept as it is;
    and the result is an instance of the schema as long as the
    conversions of the validator keep the declared types. *)
Theorem retry_loop_extracted_instance (model : option LLMModel)
    (r : runnable) (w : World) (obj content : value)
    (d : list (string * value)) (v : value) :
  deepseek_mode model = true →
  1 ≤ max_retries →
  backend r prompt (invocations w) = Ok obj →
  content_of obj = Ok content →
  extract content = VDict d →
  d ≠ [] →
  construct lax pydantic_model (list_to_map d) = Ok v →
  loop model (Some r) (seqZ 0 max_retries) w = (Ok v, invoked w) ∧
  (∀ name a x,
     model_fields pydantic_model !! name = Some a →
     (list_to_map d : gmap string value) !! name = Some x →
     conforms a x = true →
     field_of v name = Some x) ∧
  (lax_sound lax → is_instance pydantic_model v).
Proof.
  intros Hmode Hmax Hb Hc Hx Hd Hv. split; [| split].
  - rewrite seqZ_cons by lia. rewrite loop_cons. unfold m_catch.
    unfold try_block, mbind, M_mbind, m_bind, invoke, m_lift. simpl.
    rewrite Hb, Hmode, Hc, Hx. simpl.
    destruct d as [| kv d']; [done |]. simpl in *. by rewrite Hv.
  - intros name a x Ha Hlook Hconf.
    by apply (construct_keeps lax _ _ _ _ _ _ Hv Ha Hlook).
  - intros Hlax. by apply (construct_instance lax _ _ _ Hlax Hv).
Qed.

(** X13: in non-structured mode, a fenced object from which the model
    class builds no instance (a required field is missing, a value is
    refused) is a raised attempt, unlike a missing block: with every
    response so, each attempt is reported to the status callback and the
    exhausted path ends as the fallback does, the factory included. *)
Theorem retry_loop_rejected_objects (model : option LLMModel) (r : runnable)
    (w : World) :
  deepseek_mode model = true →
  1 ≤ max_retries →
  (∀ n, ∃ obj content e,
     backend r prompt n = Ok obj ∧
     content_of obj = Ok content ∧
     truthy (extract content) = true ∧
     construct_from lax pydantic_model (extract content) = Raise e) →
  ∃ w',
    loop model (Some r) (seqZ 0 max_retries) w
    = (match default_factory with
       | Some factory => factory
       | None => create_default_response lax pydantic_model
       end, w') ∧
    invocations w' = (invocations w + Z.to_nat max_retries)%nat ∧
    status_calls w'
    = status_calls w ++ reports agent_name max_retries (seqZ 0 max_retries) ∧
    factory_calls w'
    = (factory_calls w + match default_factory with Some _ => 1 | None => 0 end)%nat.
Proof.
  intros Hmode Hmax Hb.
  destruct (exhausted_world invoked w) as (Hs & Hf & Hi); [done |].
  rewrite failed_invocations, length_seqZ in Hi.
  eexists. split; [| split; [exact Hi | split; [exact Hs | exact Hf]]].
  rewrite (seqZ_last _ Hmax).
  rewrite (loop_all_try_raise invoked).
  - by destruct default_factory.
  - intros w0.
    destruct (Hb (invocations w0)) as (obj & content & e & Hobj & Hc & Ht & He).
    exists e. unfold try_block, mbind, M_mbind, m_bind, invoke, m_lift.
    simpl. by rewrite Hobj, Hmode, Hc, Ht, He.
  - intros a Ha%elem_of_seqZ. lia.
Qed.

(** X29: whatever the backend does, the retry loop of [call_llm] calls
    the fallback factory only when the [try] block of the attempt
    numbered [max_retries - 1], run with the loop's own model object in
    the world that the earlier attempts left, raised: an attempt that
    ends without a result and without an exception never reaches the
    factory.  When it is called, it is called once and its outcome is
    the outcome of the loop. *)
Theorem retry_loop_factory_only_after_raise (model : option LLMModel)
    (llm : option runnable) (w : World) (res : result value) (w' : World) :
  loop model llm (seqZ 0 max_retries) w = (res, w') →
  factory_calls w' ≠ factory_calls w →
  ∃ e w1,
    attempt_try model llm
      (foldl (step model llm) w (seqZ 0 (max_retries - 1)))
    = (Raise e, w1) ∧
    default_factory = Some res ∧
    factory_calls w' = S (factory_calls w).
Proof.
  intros Hloop Hne.
  destruct (loop_factory _ _ _ _ _ _ _ _ _ _ _ _ _ _ Hloop Hne)
    as (pre & post & e & w1 & Hsplit & Hraise & Hres & Hcalls).
  apply seqZ_before_last in Hsplit as ->. eauto.
Qed.

(** X30: the retry loop of [call_llm] raises nothing and returns an
    instance of the target schema, whatever the backend does on each
    attempt and whatever the attempts are, when default synthesis
    succeeds for the schema, the fallback factory (if one is given)
    returns an instance of it, the structured backend returns only
    instances of it, and the conversions of the validator keep the
    declared types. *)
Theorem retry_loop_returns_instance (model : option LLMModel)
    (llm : option runnable) (attempts : list Z) (w : World) :
  lax_sound lax →
  is_ok (create_default_response lax pydantic_model) = true →
  (∀ factory, default_factory = Some factory →
     ∃ v, factory = Ok v ∧ is_instance pydantic_model v) →
  (deepseek_mode model = false →
   ∀ r n v, llm = Some r → backend r prompt n = Ok v →
     is_instance pydantic_model v) →
  ∃ v w', loop model llm attempts w = (Ok v, w') ∧
          is_instance pydantic_model v.
Proof. apply loop_returns. Qed.

End more.

Example reports_of_3 :
  reports (Some "warren_buffett_agent") 3 (seqZ 0 3)
  = [("warren_buffett_agent", None, "Error - retry 1/3");
     ("warren_buffett_agent", None, "Error - retry 2/3");
     ("warren_buffett_agent", None, "Error - retry 3/3")].
Proof. vm_compute. reflexivity. Qed.

Lemma retry_loop_structured_success_witness :
  ∃ w',
    retry_loop sample_lax sample_loads backend_flaky "Analyze AAPL"
      WarrenBuffettSignal (Some "warren_buffett_agent") 3
      (Some (create_default_signal sample_lax)) (Some gpt_4o)
      (Some (structured_gpt_4o WarrenBuffettSignal)) (seqZ 0 3) world_with_keys
    = (Ok neutral_signal, w') ∧
    invocations w' = (invocations world_with_keys + 2 + 1)%nat ∧
    status_calls w'
    = status_calls world_with_keys ++
      reports (Some "warren_buffett_agent") 3 (seqZ 0 (Z.of_nat 2)) ∧
    factory_calls w' = factory_calls world_with_keys ∧
    environ w' = environ world_with_keys.
Proof.
  apply (retry_loop_structured_success sample_lax sample_loads backend_flaky "Analyze AAPL"
           WarrenBuffettSignal (Some "warren_buffett_agent") 3
           (Some (create_default_signal sample_lax)) (Some gpt_4o)
           (structured_gpt_4o WarrenBuffettSignal) world_with_keys 2 neutral_signal).
  - vm_compute. reflexivity.
  - lia.
  - intros i Hi. exists (BackendError "rate limit").
    destruct i as [| [| i]]; [reflexivity | reflexivity | lia].
  - reflexivity.
Defined.

Lemma retry_loop_no_attempts_witness :
  retry_loop sample_lax sample_loads backend_down "Analyze AAPL"
      WarrenBuffettSignal (Some "warren_buffett_agent") 0
      (Some (create_default_signal sample_lax)) (Some gpt_4o)
      (Some (structured_gpt_4o WarrenBuffettSignal)) (seqZ 0 0) world_with_keys
  = (create_default_response sample_lax WarrenBuffettSignal, world_with_keys).
Proof.
  apply (retry_loop_no_attempts sample_lax sample_loads backend_down "Analyze AAPL"
           WarrenBuffettSignal (Some "warren_buffett_agent") 0
           (Some (create_default_signal sample_lax)) (Some gpt_4o)
           (Some (structured_gpt_4o WarrenBuffettSignal)) world_with_keys).
  lia.
Defined.

Lemma retry_loop_exhausted_witness :
  ∃ w',
    retry_loop sample_lax sample_loads backend_down "Analyze AAPL"
      WarrenBuffettSignal (Some "warren_buffett_agent") 3
      (Some (create_default_signal sample_lax)) (Some gpt_4o)
      (Some (structured_gpt_4o WarrenBuffettSignal)) (seqZ 0 3) world_with_keys
    = (create_default_signal sample_lax, w') ∧
    invocations w' = (invocations world_with_keys + Z.to_nat 3)%nat ∧
    status_calls w'
    = status_calls world_with_keys ++
      reports (Some "warren_buffett_agent") 3 (seqZ 0 3) ∧
    factory_calls w' = (factory_calls world_with_keys + 1)%nat.
Proof.
  apply (retry_loop_exhausted sample_lax sample_loads backend_down "Analyze AAPL"
           WarrenBuffettSignal (Some "warren_buffett_agent") 3
           (Some (create_default_signal sample_lax)) (Some gpt_4o)
           (structured_gpt_4o WarrenBuffettSignal) world_with_keys).
  - lia.
  - intros n. by eexists.
Defined.

Lemma retry_loop_falsy_extracted_witness :
  retry_loop sample_lax loads_objects backend_empty_object "Analyze AAPL"
      WarrenBuffettSignal (Some "warren_buffett_agent") 3
      (Some (create_default_signal sample_lax)) (Some deepseek_r1)
      (Some chat_deepseek_r1) (seqZ 0 3) world_with_keys
  = (create_default_response sample_lax WarrenBuffettSignal,
     mk_world (environ world_with_keys) (agent_status world_with_keys)
       (status_calls world_with_keys)
       (invocations world_with_keys + Z.to_nat 3)
       (factory_calls world_with_keys)).
Proof.
  apply (retry_loop_falsy_extracted sample_lax loads_objects backend_empty_object "Analyze AAPL"
           WarrenBuffettSignal (Some "warren_buffett_agent") 3
           (Some (create_default_signal sample_lax)) (Some deepseek_r1)
           chat_deepseek_r1 world_with_keys).
  - vm_compute. reflexivity.
  - intros n. exists (VMessage (VStr "```json{}```")), (VStr "```json{}```").
    split; [done |]. split; [done |]. vm_compute. reflexivity.
Defined.

Lemma extract_int_text :
  extract_json_from_deepseek_response loads_int (VStr int_text)
  = VDict int_object.
Proof. vm_compute. reflexivity. Qed.

Lemma extract_sample_text :
  extract_json_from_deepseek_response sample_loads (VStr sample_text)
  = sample_object.
Proof. vm_compute. reflexivity. Qed.

(** An answer whose confidence is the integer 80: the class converts it
    and the instance is returned after one call. *)
Lemma retry_loop_extracted_instance_witness :
  retry_loop sample_lax loads_int backend_int "Analyze AAPL"
      WarrenBuffettSignal (Some "warren_buffett_agent") 3
      (Some (create_default_signal sample_lax)) (Some deepseek_r1)
      (Some chat_deepseek_r1) (seqZ 0 3) world_with_keys
  = (Ok bullish_signal, invoked world_with_keys) ∧
  field_of bullish_signal "signal" = Some (VStr "bullish") ∧
  field_of bullish_signal "confidence" = Some (VFloat float_80) ∧
  is_instance WarrenBuffettSignal bullish_signal.
Proof.
  destruct (retry_loop_extracted_instance sample_lax loads_int backend_int "Analyze AAPL"
           WarrenBuffettSignal (Some "warren_buffett_agent") 3
           (Some (create_default_signal sample_lax)) (Some deepseek_r1)
           chat_deepseek_r1 world_with_keys
           (VMessage (VStr int_text)) (VStr int_text) int_object bullish_signal)
    as (Hloop & Hkeep & Hinst).
  - vm_compute. reflexivity.
  - lia.
  - reflexivity.
  - reflexivity.
  - exact extract_int_text.
  - discriminate.
  - exact construct_converts_int.
  - split; [exact Hloop |]. split; [| split].
    + apply (Hkeep "signal"
               (TLiteral [LitStr "bullish"; LitStr "bearish"; LitStr "neutral"])
               (VStr "bullish")); vm_compute; reflexivity.
    + vm_compute. reflexivity.
    + exact (Hinst sample_lax_sound).
Defined.

(** An answer without the field that the schema requires. *)
Lemma retry_loop_rejected_objects_witness :
  ∃ w',
    retry_loop sample_lax sample_loads backend_fenced "Analyze AAPL"
      Flagged (Some "warren_buffett_agent") 3
      (Some (create_default_signal sample_lax)) (Some deepseek_r1)
      (Some chat_deepseek_r1) (seqZ 0 3) world_with_keys
    = (create_default_signal sample_lax, w') ∧
    invocations w' = (invocations world_with_keys + Z.to_nat 3)%nat ∧
    status_calls w'
    = status_calls world_with_keys ++
      reports (Some "warren_buffett_agent") 3 (seqZ 0 3) ∧
    factory_calls w' = (factory_calls world_with_keys + 1)%nat.
Proof.
  apply (retry_loop_rejected_objects sample_lax sample_loads backend_fenced "Analyze AAPL"
           Flagged (Some "warren_buffett_agent") 3
           (Some (create_default_signal sample_lax)) (Some deepseek_r1)
           chat_deepseek_r1 world_with_keys).
  - vm_compute. reflexivity.
  - lia.
  - intros n. exists (VMessage (VStr sample_text)), (VStr sample_text),
      (ValidationError "Flagged").
    split; [done |]. split; [done |]. rewrite extract_sample_text.
    split; vm_compute; reflexivity.
Defined.

Lemma retry_loop_factory_only_after_raise_witness :
  ∃ e w1,
    try_block sample_lax sample_loads backend_down "Analyze AAPL"
      WarrenBuffettSignal (Some gpt_4o)
      (Some (structured_gpt_4o WarrenBuffettSignal))
      (foldl
         (λ w attempt,
            exec (m_catch
                    (try_block sample_lax sample_loads backend_down
                       "Analyze AAPL" WarrenBuffettSignal (Some gpt_4o)
                       (Some (structured_gpt_4o WarrenBuffettSignal)))
                    (except_block sample_lax WarrenBuffettSignal
                       (Some "warren_buffett_agent") 3
                       (Some (create_default_signal sample_lax)) attempt))
              w)
         world_with_keys (seqZ 0 (3 - 1)))
    = (Raise e, w1) ∧
    Some (create_default_signal sample_lax) = Some (Ok neutral_signal) ∧
    factory_calls
      (mk_world (environ world_with_keys)
         {[ "warren_buffett_agent" := ("Error - retry 3/3", None) ]}
         (reports (Some "warren_buffett_agent") 3 (seqZ 0 3)) 3 1)
    = S (factory_calls world_with_keys).
Proof.
  apply (retry_loop_factory_only_after_raise sample_lax sample_loads backend_down "Analyze AAPL"
           WarrenBuffettSignal (Some "warren_buffett_agent") 3
           (Some (create_default_signal sample_lax)) (Some gpt_4o)
           (Some (structured_gpt_4o WarrenBuffettSignal)) world_with_keys).
  - vm_compute. reflexivity.
  - vm_compute. discriminate.
Defined.

Lemma retry_loop_returns_instance_witness :
  ∃ v w',
    retry_loop sample_lax sample_loads backend_flaky "Analyze AAPL"
      WarrenBuffettSignal (Some "warren_buffett_agent") 3
      (Some (create_default_signal sample_lax)) (Some gpt_4o)
      (Some (structured_gpt_4o WarrenBuffettSignal)) (seqZ 0 3) world_with_keys
    = (Ok v, w') ∧ is_instance WarrenBuffettSignal v.
Proof.
  apply (retry_loop_returns_instance sample_lax sample_loads backend_flaky "Analyze AAPL"
           WarrenBuffettSignal (Some "warren_buffett_agent") 3
           (Some (create_default_signal sample_lax)) (Some gpt_4o)
           (Some (structured_gpt_4o WarrenBuffettSignal)) (seqZ 0 3)
           world_with_keys).
  - exact sample_lax_sound.
  - vm_compute. reflexivity.
  - intros factory Hfactory. exists neutral_signal.
    split; [| exact neutral_signal_instance].
    rewrite <- (create_default_signal_value sample_lax). congruence.
  - intros _ r n v _ Hb. unfold backend_flaky in Hb.
    destruct (n <? 2)%nat; [discriminate |].
    replace v with neutral_signal by congruence.
    exact neutral_signal_instance.
Defined.

(** *** Model resolution *)

(** X14: [get_model] resolves the providers OpenAI, Groq and Anthropic,
    and no other.  For one of the three it reads the provider's API key:
    without a key, or with an empty one, it raises [ValueError]; with a
    key it returns the provider's client for the model name.  For every
    other provider, the chain of comparisons reaches
    [ModelProvider.DEEPSEEK], which the enumeration does not declare, and
    [get_model] raises [AttributeError]; it never returns [None].  The
    world is left as it is. *)
Theorem get_model_outcomes (model_name model_provider : string) (w : World) :
  (∀ member, model_provider = ModelProvider_value member →
     let variable := match member with
                     | GROQ => "GROQ_API_KEY"
                     | OPENAI => "OPENAI_API_KEY"
                     | ANTHROPIC => "ANTHROPIC_API_KEY"
                     end in
     let client := match member with
                   | GROQ => ChatGroq
                   | OPENAI => ChatOpenAI
                   | ANTHROPIC => ChatAnthropic
                   end in
     if missing (environ w !! variable)
     then ∃ message,
            get_model model_name model_provider w
            = (Raise (ValueError message), w)
     else ∃ api_key,
            environ w !! variable = Some api_key ∧
            get_model model_name model_provider w
            = (Ok (Some (client model_name api_key)), w)) ∧
  ((∀ member, model_provider ≠ ModelProvider_value member) →
   get_model model_name model_provider w
   = (Raise (AttributeError "DEEPSEEK"), w)).
Proof.
  unfold get_model, connect, mbind, M_mbind, m_bind, getenv, m_gets, m_lift,
    mret, M_ret, m_ret.
  destruct ModelProvider_getattr_declared as (-> & -> & ->).
  destruct ModelProvider_getattr_undeclared as (-> & _).
  split.
  - intros member ->. destruct member; cbn [ModelProvider_value].
    + rewrite (bool_decide_eq_false_2 ("OpenAI" = "Groq")) by discriminate.
      rewrite (bool_decide_eq_true_2 ("OpenAI" = "OpenAI")) by done.
      destruct (environ w !! "OPENAI_API_KEY") as [key |] eqn:Hkey;
        cbn [missing default from_option id]; [| by eexists].
      case_bool_decide; [by eexists | by exists key].
    + rewrite (bool_decide_eq_true_2 ("Groq" = "Groq")) by done.
      destruct (environ w !! "GROQ_API_KEY") as [key |] eqn:Hkey;
        cbn [missing default from_option id]; [| by eexists].
      case_bool_decide; [by eexists | by exists key].
    + rewrite (bool_decide_eq_false_2 ("Anthropic" = "Groq")) by discriminate.
      rewrite (bool_decide_eq_false_2 ("Anthropic" = "OpenAI")) by discriminate.
      rewrite (bool_decide_eq_true_2 ("Anthropic" = "Anthropic")) by done.
      destruct (environ w !! "ANTHROPIC_API_KEY") as [key |] eqn:Hkey;
        cbn [missing default from_option id]; [| by eexists].
      case_bool_decide; [by eexists | by exists key].
  - intros Hnone.
    rewrite (bool_decide_eq_false_2 _ (Hnone GROQ)).
    rewrite (bool_decide_eq_false_2 _ (Hnone OPENAI)).
    by rewrite (bool_decide_eq_false_2 _ (Hnone ANTHROPIC)).
Qed.

Lemma get_model_outcomes_witness :
  get_model "deepseek-chat" "DeepSeek" world_with_keys
  = (Raise (AttributeError "DEEPSEEK"), world_with_keys).
Proof.
  apply (get_model_outcomes "deepseek-chat" "DeepSeek" world_with_keys).
  intros member. destruct member; discriminate.
Defined.

Example get_model_gpt_4o :
  get_model "gpt-4o" "OpenAI" world_with_keys
  = (Ok (Some (ChatOpenAI "gpt-4o" "sk-test")), world_with_keys) ∧
  get_model "gpt-4o" "OpenAI" world_without_keys
  = (Raise (ValueError
       "OpenAI API key not found. Please make sure OPENAI_API_KEY is set in your .env file."),
     world_without_keys).
Proof. split; vm_compute; reflexivity. Qed.

(** *** Default synthesis, continued *)

Lemma default_values_of_keeps fields acc dv name :
  default_values_of fields acc = Ok dv →
  name ∉ fields.*1 → dv !! name = acc !! name.
Proof.
  revert acc. induction fields as [| [n0 a0] rest IH]; intros acc; simpl.
  - by intros [= <-].
  - unfold_result. destruct (default_value a0) as [v |]; [| done].
    intros Hdv [Hne Hrest]%not_elem_of_cons.
    rewrite (IH _ Hdv Hrest). by rewrite lookup_insert_ne.
Qed.

Lemma default_values_of_lookup fields acc dv name a :
  NoDup fields.*1 →
  default_values_of fields acc = Ok dv →
  (name, a) ∈ fields →
  ∃ v, default_value a = Ok v ∧ dv !! name = Some v.
Proof.
  revert acc. induction fields as [| [n0 a0] rest IH]; intros acc Hnd Hdv Hin.
  - inversion Hin.
  - apply NoDup_cons in Hnd as [Hfresh Hnd]. simpl in Hdv, Hfresh.
    unfold mbind, result_mbind, result_bind in Hdv.
    destruct (default_value a0) as [v |] eqn:Hv; [| done].
    apply elem_of_cons in Hin as [[= -> ->] | Hin].
    + exists v. split; [done |].
      rewrite (default_values_of_keeps _ _ _ _ Hdv Hfresh).
      apply lookup_insert_eq.
    + eauto.
Qed.

Lemma default_rejected_refused a v :
  default_rejected a = true → default_value a = Ok v →
  conforms a v = false ∧ rejects a v = true.
Proof.
  destruct a as [| | | | | | | | x |]; simpl; try done.
  - by intros _ [= <-].
  - by intros _ [= <-].
  - by intros _ [= <-].
  - destruct x; simpl; try done; by intros _ [= <-].
Qed.

(** X15: a schema with a field declared [bool], the bare [dict], a list,
    or an optional [str], [float], [int] or [bool] has no synthesized
    default: [create_default_response] raises, whatever the other fields
    are. *)
Theorem create_default_response_rejected
    (lax : annotation → value → result value) (model_class : schema)
    (name : string) (a : annotation) :
  model_fields model_class !! name = Some a →
  default_rejected a = true →
  is_ok (create_default_response lax model_class) = false.
Proof.
  intros Hfield Hrej.
  unfold create_default_response, mbind, result_mbind, result_bind.
  destruct (default_values_of _ _) as [dv |] eqn:Hdv; [| done].
  unfold construct, mbind, result_mbind, result_bind.
  destruct (validate_fields _ _ _ dv) as [validated |] eqn:Hval; [| done].
  exfalso. apply elem_of_map_to_list in Hfield.
  pose proof (NoDup_fst_map_to_list (model_fields model_class)) as Hnd.
  destruct (default_values_of_lookup _ _ _ _ _ Hnd Hdv Hfield)
    as (v & Hv & Hlook).
  destruct (validate_fields_ok _ _ _ _ _ Hnd Hval name a Hfield)
    as (v' & x & Hk & Hx & _).
  assert (v' = v) as -> by congruence.
  destruct (default_rejected_refused a v Hrej Hv) as [Hc Hr].
  rewrite (validate_rejects _ _ _ _ Hc Hr) in Hx. done.
Qed.

Lemma create_default_response_rejected_witness :
  is_ok (create_default_response sample_lax Flagged) = false.
Proof.
  apply (create_default_response_rejected sample_lax Flagged
           "show_reasoning" TBool).
  - vm_compute. reflexivity.
  - reflexivity.
Defined.

End LlmFacts.

(** ** The price tool *)
Module ApiFacts.
Import Api.

Lemma world_eta w : mk_world (_cache w) (environ w) (requests w) = w.
Proof. by destruct w. Qed.

Lemma in_range_timed start_date end_date price :
  timed price = true →
  in_range start_date end_date price
  = Ok (dated_within start_date end_date price).
Proof.
  unfold timed, in_range, dated_within, Cache.getitem, mbind, result_mbind,
    result_bind.
  by destruct (price !! "time") as [[| | t |] |].
Qed.

Lemma timed_has_identity price :
  timed price = true → Cache.has_identity "time" price = true.
Proof.
  unfold timed, Cache.has_identity, Cache.item_key, Cache.getitem, mbind,
    result_mbind, result_bind.
  by destruct (price !! "time") as [[| | t |] |].
Qed.

Lemma dated_within_timed start_date end_date price :
  dated_within start_date end_date price = true → timed price = true.
Proof.
  unfold dated_within, timed. by destruct (price !! "time") as [[| | t |] |].
Qed.

Section service.
Context {Json PriceT : Type}.
Variable Price : Cache.record → result PriceT.
Variable model_dump : PriceT → Cache.record.
Variable PriceResponse_prices : Json → result (list PriceT).
Variable requests_get :
  string → gmap string string → nat → result (Response Json).

Abbreviation filtered := (filtered_data_of Price).
Abbreviation fetch :=
  (fetch_prices model_dump PriceResponse_prices requests_get).
Abbreviation prices :=
  (get_prices Price model_dump PriceResponse_prices requests_get).
Abbreviation api_key w := (environ w !! "FINANCIAL_DATASETS_API_KEY").

Lemma filtered_hit start_date end_date cached :
  Forall (λ price, timed price = true ∧
            (dated_within start_date end_date price = true →
             is_ok (Price price) = true)) cached →
  ∃ ps, filtered start_date end_date cached = Ok ps ∧
        Forall2 (λ price p, Price price = Ok p)
          (filter (λ price, dated_within start_date end_date price = true)
             cached) ps.
Proof.
  induction 1 as [| price rest [Ht Hp] _ (ps & IH & Hps)]; simpl.
  - exists []. split; [done | constructor].
  - rewrite (in_range_timed _ _ _ Ht). unfold_result. rewrite filter_cons.
    destruct (dated_within start_date end_date price) eqn:Hd.
    + rewrite decide_True by done.
      destruct (Price price) as [p |] eqn:HP; [| by specialize (Hp eq_refl)].
      rewrite IH. exists (p :: ps). split; [done |]. by constructor.
    + rewrite decide_False by done. eauto.
Qed.

Lemma filtered_miss start_date end_date cached :
  Forall (λ price, timed price = true ∧
            dated_within start_date end_date price = false) cached →
  filtered start_date end_date cached = Ok [].
Proof.
  induction 1 as [| price rest [Ht Hd] _ IH]; simpl; [done |].
  rewrite (in_range_timed _ _ _ Ht), Hd. unfold_result. done.
Qed.

Lemma get_prices_unfold ticker start_date end_date w :
  prices ticker start_date end_date w
  = match filtered start_date end_date (cached_prices ticker w) with
    | Ok (p :: ps) => (Ok (p :: ps), w)
    | Ok [] => fetch ticker start_date end_date w
    | Raise err => (Raise err, w)
    end.
Proof.
  unfold get_prices, cached_prices, mbind, M_mbind, m_bind, on_cache,
    Cache.get_prices, m_gets, m_lift, mret, M_ret, m_ret.
  cbn [fst snd]. rewrite world_eta.
  destruct (Cache._prices_cache (_cache w) !! ticker) as [[| x l] |];
    cbn [default from_option id]; try done.
  by destruct (filtered start_date end_date (x :: l)) as [[| p ps] |].
Qed.

Lemma fetch_unfold ticker start_date end_date w :
  fetch ticker start_date end_date w
  = let w1 := requested ticker start_date end_date w in
    match requests_get (prices_url ticker start_date end_date)
            (headers_of (api_key w)) (length (requests w)) with
    | Raise err => (Raise err, w1)
    | Ok response =>
        if bool_decide (status_code response ≠ 200) then
          (Raise (Exception_ (error_message ticker response)), w1)
        else
          match json response ≫= PriceResponse_prices with
          | Raise err => (Raise err, w1)
          | Ok [] => (Ok [], w1)
          | Ok (p :: ps) =>
              match Cache._merge_data
                      (Cache._prices_cache (_cache w) !! ticker)
                      (model_dump <$> p :: ps) "time" with
              | Ok merged =>
                  (Ok (p :: ps),
                   mk_world (Cache.store Cache.Prices ticker merged (_cache w))
                     (environ w) (requests w1))
              | Raise err => (Raise err, w1)
              end
          end
    end.
Proof.
  unfold fetch_prices, requested, get, environ_get, on_cache, mbind, M_mbind,
    m_bind, m_gets, m_lift, mret, M_ret, m_ret.
  cbn [fst snd _cache environ requests].
  destruct (requests_get _ _ _) as [response |]; [| done].
  case_bool_decide; [done |].
  unfold result_mbind, result_bind.
  destruct (json response) as [doc |]; [| done].
  destruct (PriceResponse_prices doc) as [[| p ps] |]; [done | | done].
  rewrite (CacheFacts.set_unfold Cache.Prices).
  cbn [Cache.bucket Cache.identity_field _cache].
  by destruct (Cache._merge_data _ _ _).
Qed.

Lemma filtered_miss_app start_date end_date cached more :
  Forall (λ price, timed price = true ∧
            dated_within start_date end_date price = false) cached →
  filtered start_date end_date (cached ++ more)
  = filtered start_date end_date more.
Proof.
  induction 1 as [| price rest [Ht Hd] _ IH]; simpl; [done |].
  rewrite (in_range_timed _ _ _ Ht), Hd. unfold_result. done.
Qed.

Lemma filtered_dumps start_date end_date ps :
  Forall (λ p, dated_within start_date end_date (model_dump p) = true ∧
               Price (model_dump p) = Ok p) ps →
  filtered start_date end_date (model_dump <$> ps) = Ok ps.
Proof.
  induction 1 as [| p rest [Hd HP] _ IH]; [done |].
  rewrite fmap_cons. cbn [filtered_data_of].
  rewrite (in_range_timed _ _ _ (dated_within_timed _ _ _ Hd)), Hd.
  unfold_result. by rewrite HP, IH.
Qed.

(** A record dated inside the range shares its timestamp with no record
    dated outside of it. *)
Lemma dated_not_seen start_date end_date cached price :
  Forall (λ price, timed price = true ∧
            dated_within start_date end_date price = false) cached →
  dated_within start_date end_date price = true →
  ¬ Cache.identity_seen "time" cached price.
Proof.
  intros Hall Hd Hseen. unfold Cache.identity_seen in Hseen.
  apply list_elem_of_fmap in Hseen as (c & Heq & Hin).
  rewrite Forall_forall in Hall. destruct (Hall c Hin) as [_ Hc].
  unfold dated_within in Hd, Hc. rewrite <- Heq in Hc. congruence.
Qed.

(** X16: when every cached record of the ticker carries a [str]
    timestamp, at least one of them is dated inside the requested range,
    and [Price] accepts the ones that are, [get_prices] answers from the
    cache: it returns the prices of exactly the cached records inside the
    range, in cache order, sends no request and leaves the world as it
    is, whether or not the cache covers the whole range. *)
Theorem get_prices_cache_hit (ticker start_date end_date : string)
    (w : World) :
  Forall (λ price, timed price = true ∧
            (dated_within start_date end_date price = true →
             is_ok (Price price) = true)) (cached_prices ticker w) →
  Exists (λ price, dated_within start_date end_date price = true)
    (cached_prices ticker w) →
  ∃ ps,
    prices ticker start_date end_date w = (Ok ps, w) ∧
    Forall2 (λ price p, Price price = Ok p)
      (filter (λ price, dated_within start_date end_date price = true)
         (cached_prices ticker w)) ps.
Proof.
  intros Hall Hex. destruct (filtered_hit _ _ _ Hall) as (ps & Hf & Hps).
  exists ps. split; [| done]. rewrite get_prices_unfold, Hf.
  destruct ps as [| p ps']; [| done]. exfalso.
  apply Forall2_nil_inv_r in Hps.
  apply Exists_exists in Hex as (price & Hin & Hd).
  assert (Hmem : price ∈ filter
            (λ price, dated_within start_date end_date price = true)
            (cached_prices ticker w)) by (by apply list_elem_of_filter).
  rewrite Hps in Hmem. inversion Hmem.
Qed.

(** X17: a [get_prices] that raises, or that returns the empty list,
    leaves the cache as it was; and the empty list is never an answer
    from the cache: it is returned after one request, and nothing is
    stored for it. *)
Theorem get_prices_keeps_cache (ticker start_date end_date : string)
    (w w' : World) (r : result (list PriceT)) :
  prices ticker start_date end_date w = (r, w') →
  r = Ok [] ∨ is_ok r = false →
  _cache w' = _cache w ∧
  (r = Ok [] → w' = requested ticker start_date end_date w).
Proof.
  rewrite get_prices_unfold.
  destruct (filtered _ _ _) as [[| p ps] |].
  - rewrite fetch_unfold. cbn zeta.
    destruct (requests_get _ _ _) as [response |]; [| by intros [= <- <-]].
    case_bool_decide; [by intros [= <- <-] |].
    destruct (json response ≫= PriceResponse_prices) as [[| p ps] |];
      [by intros [= <- <-] | | by intros [= <- <-]].
    destruct (Cache._merge_data _ _ _); [| by intros [= <- <-]].
    by intros [= <- <-] [? | ?].
  - by intros [= <- <-] [? | ?].
  - by intros [= <- <-].
Qed.

(** X18: however it ends, [get_prices] sends at most one request, leaves
    the environment as it is, touches no cached list but the price list
    of its ticker, and only ever extends that one: what was cached is a
    prefix of what is cached afterwards. *)
Theorem get_prices_bounded (ticker start_date end_date : string) (w : World) :
  environ (exec (prices ticker start_date end_date) w) = environ w ∧
  (requests (exec (prices ticker start_date end_date) w) = requests w ∨
   requests (exec (prices ticker start_date end_date) w)
   = requests (requested ticker start_date end_date w)) ∧
  (∀ k' ticker', (k', ticker') ≠ (Cache.Prices, ticker) →
     Cache.bucket k' (_cache (exec (prices ticker start_date end_date) w))
       !! ticker'
     = Cache.bucket k' (_cache w) !! ticker') ∧
  cached_prices ticker w
  `prefix_of` cached_prices ticker (exec (prices ticker start_date end_date) w).
Proof.
  unfold exec. rewrite get_prices_unfold.
  destruct (filtered _ _ _) as [[| p ps] |]; cbn [snd]; [| by auto..].
  rewrite fetch_unfold. cbn zeta.
  destruct (requests_get _ _ _) as [response |]; [| by auto].
  case_bool_decide; [by auto |].
  destruct (json response ≫= PriceResponse_prices) as [[| p ps] |];
    [by auto | | by auto].
  destruct (Cache._merge_data _ _ _) as [merged |] eqn:Hm; [| by auto].
  cbn [snd environ requests _cache]. split; [done |]. split; [by right |].
  split.
  - intros k' ticker' Hne. by apply CacheFacts.bucket_store_other.
  - unfold cached_prices. cbn [_cache].
    pose proof (CacheFacts.bucket_store Cache.Prices ticker merged (_cache w))
      as Hb. cbn [Cache.bucket] in Hb. rewrite Hb. cbn [default from_option id].
    apply CacheFacts.merge_data_ok_cases in Hm
      as [[-> [-> | ->]] | (ex & -> & _ & ->)];
      cbn [default from_option id]; try apply prefix_nil.
    unfold Cache.merge_spec. by apply prefix_app_r.
Qed.

(** X19: when nothing cached for the ticker is dated inside the range
    and the service answers with a status other than 200, [get_prices]
    raises the exception with the ticker, the status and the response
    text in its message, whatever the body is; the request is the only
    thing it leaves behind. *)
Theorem get_prices_failed_request (ticker start_date end_date : string)
    (w : World) (response : Response Json) :
  Forall (λ price, timed price = true ∧
            dated_within start_date end_date price = false)
    (cached_prices ticker w) →
  requests_get (prices_url ticker start_date end_date)
    (headers_of (api_key w)) (length (requests w)) = Ok response →
  status_code response ≠ 200 →
  prices ticker start_date end_date w
  = (Raise (Exception_ (error_message ticker response)),
     requested ticker start_date end_date w).
Proof.
  intros Hmiss Hget Hstatus.
  rewrite get_prices_unfold, (filtered_miss _ _ _ Hmiss), fetch_unfold, Hget.
  cbn zeta. by rewrite bool_decide_eq_true_2.
Qed.

(** X20: a fetch warms the cache for its own range.  When nothing cached
    for the ticker is dated inside the range and the service answers 200
    with a non-empty list of prices, each dated inside the range and
    rebuilt by [Price] from its own dump, [get_prices] returns the list
    after one request and appends the dumps to the cached list; the same
    call made again returns the same list from the cache, with no
    request. *)
Theorem get_prices_fetch_then_hit (ticker start_date end_date : string)
    (w : World) (response : Response Json) (doc : Json) (ps : list PriceT) :
  Forall (λ price, timed price = true ∧
            dated_within start_date end_date price = false)
    (cached_prices ticker w) →
  requests_get (prices_url ticker start_date end_date)
    (headers_of (api_key w)) (length (requests w)) = Ok response →
  status_code response = 200 →
  json response = Ok doc →
  PriceResponse_prices doc = Ok ps →
  ps ≠ [] →
  Forall (λ p, dated_within start_date end_date (model_dump p) = true ∧
               Price (model_dump p) = Ok p) ps →
  ∃ w1,
    prices ticker start_date end_date w = (Ok ps, w1) ∧
    requests w1 = requests (requested ticker start_date end_date w) ∧
    cached_prices ticker w1 = cached_prices ticker w ++ (model_dump <$> ps) ∧
    prices ticker start_date end_date w1 = (Ok ps, w1).
Proof.
  intros Hmiss Hget Hstatus Hjson Hparse Hne Hps.
  assert (Hmerge :
    Cache._merge_data (Cache._prices_cache (_cache w) !! ticker)
      (model_dump <$> ps) "time"
    = Ok (cached_prices ticker w ++ (model_dump <$> ps))).
  { unfold cached_prices in *.
    destruct (Cache._prices_cache (_cache w) !! ticker) as [[| x l] |];
      cbn [default from_option id] in *; try done.
    rewrite CacheFacts.merge_data_nonempty; [| done | |].
    - unfold Cache.merge_spec. f_equal. f_equal.
      apply CacheFacts.filter_all. intros item Hin.
      apply list_elem_of_fmap in Hin as (p & -> & Hin).
      rewrite Forall_forall in Hps. destruct (Hps p Hin) as [Hd _].
      by apply (dated_not_seen start_date end_date).
    - eapply Forall_impl; [exact Hmiss |].
      intros price [Ht _]. by apply timed_has_identity.
    - apply Forall_fmap. eapply Forall_impl; [exact Hps |].
      intros p [Hd _]. simpl. apply timed_has_identity.
      by apply (dated_within_timed start_date end_date). }
  pose proof (filtered_dumps _ _ _ Hps) as Hdumps.
  destruct ps as [| p ps']; [done |].
  eexists. split; [| split; [| split]].
  - rewrite get_prices_unfold, (filtered_miss _ _ _ Hmiss), fetch_unfold, Hget.
    cbn zeta. rewrite bool_decide_eq_false_2 by (by intros ?).
    rewrite Hjson. cbn [mbind result_mbind result_bind]. rewrite Hparse.
    rewrite Hmerge. reflexivity.
  - done.
  - unfold cached_prices at 1. cbn [_cache].
    pose proof (CacheFacts.bucket_store Cache.Prices ticker
                  (cached_prices ticker w ++ (model_dump <$> p :: ps'))
                  (_cache w))
      as Hb. cbn [Cache.bucket] in Hb. by rewrite Hb.
  - rewrite get_prices_unfold. unfold cached_prices at 1. cbn [_cache].
    pose proof (CacheFacts.bucket_store Cache.Prices ticker
                  (cached_prices ticker w ++ (model_dump <$> p :: ps'))
                  (_cache w))
      as Hb. cbn [Cache.bucket] in Hb. rewrite Hb. cbn [default from_option id].
    by rewrite (filtered_miss_app _ _ _ _ Hmiss), Hdumps.
Qed.

End service.

Lemma warm_world_cached :
  cached_prices "AAPL" warm_world = [Cache.price_1; Cache.price_2].
Proof. vm_compute. reflexivity. Qed.

Lemma get_prices_cache_hit_witness :
  ∃ ps,
    get_prices sample_Price sample_dump sample_prices service_down
      "AAPL" "2024-01-01" "2024-01-02" warm_world
    = (Ok ps, warm_world) ∧
    Forall2 (λ price p, sample_Price price = Ok p)
      (filter (λ price, dated_within "2024-01-01" "2024-01-02" price = true)
         (cached_prices "AAPL" warm_world)) ps.
Proof.
  apply (get_prices_cache_hit sample_Price sample_dump sample_prices
           service_down "AAPL" "2024-01-01" "2024-01-02" warm_world).
  - rewrite warm_world_cached.
    repeat constructor; vm_compute; reflexivity.
  - rewrite warm_world_cached. apply Exists_cons_hd. vm_compute. reflexivity.
Defined.

Lemma get_prices_keeps_cache_witness :
  _cache (get_prices sample_Price sample_dump sample_prices service_empty
            "AAPL" "2024-01-01" "2024-01-31" fresh_world).2
  = _cache fresh_world ∧
  ((get_prices sample_Price sample_dump sample_prices service_empty
      "AAPL" "2024-01-01" "2024-01-31" fresh_world).1 = Ok [] →
   (get_prices sample_Price sample_dump sample_prices service_empty
      "AAPL" "2024-01-01" "2024-01-31" fresh_world).2
   = requested "AAPL" "2024-01-01" "2024-01-31" fresh_world).
Proof.
  apply (get_prices_keeps_cache sample_Price sample_dump sample_prices
           service_empty "AAPL" "2024-01-01" "2024-01-31" fresh_world).
  - apply surjective_pairing.
  - left. vm_compute. reflexivity.
Defined.

Lemma get_prices_failed_request_witness :
  get_prices sample_Price sample_dump sample_prices service_down
    "AAPL" "2024-02-01" "2024-02-29" warm_world
  = (Raise (Exception_
              (error_message "AAPL"
                 (mk_response 503 "Service Unavailable"
                    (Raise (JSONDecodeError "Expecting value")
                     : result (list Cache.record))))),
     requested "AAPL" "2024-02-01" "2024-02-29" warm_world).
Proof.
  apply (get_prices_failed_request sample_Price sample_dump sample_prices
           service_down "AAPL" "2024-02-01" "2024-02-29" warm_world).
  - rewrite warm_world_cached. repeat constructor; vm_compute; reflexivity.
  - reflexivity.
  - discriminate.
Defined.

Lemma get_prices_fetch_then_hit_witness :
  ∃ w1,
    get_prices sample_Price sample_dump sample_prices service_up
      "AAPL" "2024-01-01" "2024-01-31" fresh_world
    = (Ok [Cache.price_1; Cache.price_2], w1) ∧
    requests w1
    = requests (requested "AAPL" "2024-01-01" "2024-01-31" fresh_world) ∧
    cached_prices "AAPL" w1
    = cached_prices "AAPL" fresh_world ++
      (sample_dump <$> [Cache.price_1; Cache.price_2]) ∧
    get_prices sample_Price sample_dump sample_prices service_up
      "AAPL" "2024-01-01" "2024-01-31" w1
    = (Ok [Cache.price_1; Cache.price_2], w1).
Proof.
  apply (get_prices_fetch_then_hit sample_Price sample_dump sample_prices
           service_up "AAPL" "2024-01-01" "2024-01-31" fresh_world
           (mk_response 200 "OK" (Ok [Cache.price_1; Cache.price_2]))
           [Cache.price_1; Cache.price_2]).
  - constructor.
  - reflexivity.
  - reflexivity.
  - reflexivity.
  - vm_compute. reflexivity.
  - discriminate.
  - repeat constructor; vm_compute; reflexivity.
Defined.

(** *** The order of [str] *)

Lemma str_lt_le a b : String.ltb a b = true → str_le a b = true.
Proof.
  unfold str_le, String.ltb, String.leb. by destruct (String.compare a b).
Qed.

Lemma str_not_lt_le a b : String.ltb a b = false → str_le b a = true.
Proof.
  unfold str_le, String.ltb, String.leb.
  rewrite (String.compare_antisym b a). by destruct (String.compare a b).
Qed.

Lemma str_le_trans a b c :
  str_le a b = true → str_le b c = true → str_le a c = true.
Proof.
  unfold str_le, String.leb. intros Hab Hbc.
  destruct (String.compare a c) eqn:Hac; try done. exfalso.
  assert (Hca : String.compare c a = Lt)
    by (rewrite String.compare_antisym, Hac; done).
  apply OrderedTypeEx.String_as_OT.cmp_lt in Hca.
  destruct (String.compare a b) eqn:Hab'; [| | done].
  - apply String.compare_eq_iff in Hab' as ->.
    apply OrderedTypeEx.String_as_OT.cmp_lt in Hca.
    unfold OrderedTypeEx.String_as_OT.cmp in Hca.
    rewrite String.compare_antisym, Hca in Hbc. done.
  - apply OrderedTypeEx.String_as_OT.cmp_lt in Hab'.
    pose proof (OrderedTypeEx.String_as_OT.lt_trans _ _ _ Hca Hab') as Hcb.
    apply OrderedTypeEx.String_as_OT.cmp_lt in Hcb.
    unfold OrderedTypeEx.String_as_OT.cmp in Hcb.
    rewrite String.compare_antisym, Hcb in Hbc. done.
Qed.

(** *** The stable descending sort *)
Section sorting.
Context {A : Type} (key : A → string).

Lemma insert_desc_perm x l : insert_desc key x l ≡ₚ x :: l.
Proof.
  induction l as [| y l IH]; simpl; [done |].
  destruct (String.ltb (key x) (key y)); [| done].
  rewrite IH. apply Permutation_swap.
Qed.

Lemma sort_desc_perm l : sort_desc key l ≡ₚ l.
Proof.
  induction l as [| x l IH]; simpl; [done |].
  unfold sort_desc in *. simpl. by rewrite insert_desc_perm, IH.
Qed.

Lemma insert_desc_sorted x l :
  StronglySorted (not_older key) l →
  StronglySorted (not_older key) (insert_desc key x l).
Proof.
  induction 1 as [| y l Hl IH Hy]; simpl.
  - repeat constructor.
  - destruct (String.ltb (key x) (key y)) eqn:Hlt.
    + constructor; [done |]. rewrite insert_desc_perm.
      constructor; [| done]. by apply str_lt_le.
    + apply str_not_lt_le in Hlt.
      constructor; [by constructor |]. constructor; [done |].
      eapply Forall_impl; [exact Hy |]. intros z Hz.
      unfold not_older in *. by apply (str_le_trans _ (key y)).
Qed.

Lemma sort_desc_sorted l : StronglySorted (not_older key) (sort_desc key l).
Proof.
  induction l as [| x l IH]; [constructor |].
  by apply insert_desc_sorted.
Qed.

Lemma slice_to_length (limit : Z) (l : list A) :
  length (slice_to limit l) = slice_length limit (length l).
Proof.
  unfold slice_to, slice_length. case_bool_decide; rewrite length_take; lia.
Qed.

Lemma slice_to_prefix (limit : Z) (l : list A) :
  ∃ rest, slice_to limit l ++ rest = l.
Proof.
  unfold slice_to. case_bool_decide; eexists; apply take_drop.
Qed.

End sorting.

Lemma reported_by_periodic end_date metric :
  periodic metric = true →
  reported_by end_date metric = Ok (reported_until end_date metric).
Proof.
  unfold periodic, reported_by, reported_until, Cache.getitem, mbind,
    result_mbind, result_bind.
  by destruct (metric !! "report_period") as [[| | t |] |].
Qed.

Lemma periodic_has_identity metric :
  periodic metric = true → Cache.has_identity "report_period" metric = true.
Proof.
  unfold periodic, Cache.has_identity, Cache.item_key, Cache.getitem, mbind,
    result_mbind, result_bind.
  by destruct (metric !! "report_period") as [[| | t |] |].
Qed.

Lemma reported_until_periodic end_date metric :
  reported_until end_date metric = true → periodic metric = true.
Proof.
  unfold reported_until, periodic.
  by destruct (metric !! "report_period") as [[| | t |] |].
Qed.

Section metrics.
Context {Json MetricsT : Type}.
Variable FinancialMetrics : Cache.record → result MetricsT.
Variable report_period : MetricsT → string.
Variable market_cap : MetricsT → option spec_float.
Variable model_dump : MetricsT → Cache.record.
Variable FinancialMetricsResponse_financial_metrics :
  Json → result (list MetricsT).
Variable requests_get :
  string → gmap string string → nat → result (Response Json).

Abbreviation filtered_metrics := (filtered_metrics_of FinancialMetrics).
Abbreviation fetch_metrics :=
  (fetch_financial_metrics model_dump
     FinancialMetricsResponse_financial_metrics requests_get).
Abbreviation metrics :=
  (get_financial_metrics FinancialMetrics report_period model_dump
     FinancialMetricsResponse_financial_metrics requests_get).
Abbreviation market :=
  (get_market_cap FinancialMetrics report_period market_cap model_dump
     FinancialMetricsResponse_financial_metrics requests_get).
Abbreviation api_key w := (environ w !! "FINANCIAL_DATASETS_API_KEY").

Lemma filtered_metrics_hit end_date cached :
  Forall (λ metric, periodic metric = true ∧
            (reported_until end_date metric = true →
             is_ok (FinancialMetrics metric) = true)) cached →
  ∃ ms, filtered_metrics end_date cached = Ok ms ∧
        Forall2 (λ metric m, FinancialMetrics metric = Ok m)
          (filter (λ metric, reported_until end_date metric = true) cached)
          ms.
Proof.
  induction 1 as [| metric rest [Ht Hp] _ (ms & IH & Hms)]; simpl.
  - exists []. split; [done | constructor].
  - rewrite (reported_by_periodic _ _ Ht). unfold_result. rewrite filter_cons.
    destruct (reported_until end_date metric) eqn:Hd.
    + rewrite decide_True by done.
      destruct (FinancialMetrics metric) as [m |] eqn:HP;
        [| by specialize (Hp eq_refl)].
      rewrite IH. exists (m :: ms). split; [done |]. by constructor.
    + rewrite decide_False by done. eauto.
Qed.

Lemma get_financial_metrics_unfold ticker end_date period limit w :
  metrics ticker end_date period limit w
  = match filtered_metrics end_date (cached_metrics ticker w) with
    | Ok filtered_data =>
        match sort_desc report_period filtered_data with
        | [] => fetch_metrics ticker end_date period limit w
        | m :: ms => (Ok (slice_to limit (m :: ms)), w)
        end
    | Raise err => (Raise err, w)
    end.
Proof.
  unfold get_financial_metrics, cached_metrics, mbind, M_mbind, m_bind,
    on_cache, Cache.get_financial_metrics, m_gets, m_lift, mret, M_ret, m_ret.
  cbn [fst snd]. rewrite world_eta.
  destruct (Cache._financial_metrics_cache (_cache w) !! ticker)
    as [[| x l] |]; cbn [default from_option id]; try done.
  destruct (filtered_metrics end_date (x :: l)) as [fs |]; [| done].
  by destruct (sort_desc report_period fs).
Qed.

(** The answer of the cache, for both tools. *)
Lemma metrics_hit ticker end_date period limit w :
  Forall (λ metric, periodic metric = true ∧
            (reported_until end_date metric = true →
             is_ok (FinancialMetrics metric) = true))
    (cached_metrics ticker w) →
  Exists (λ metric, reported_until end_date metric = true)
    (cached_metrics ticker w) →
  ∃ all latest older,
    Forall2 (λ metric m, FinancialMetrics metric = Ok m)
      (filter (λ metric, reported_until end_date metric = true)
         (cached_metrics ticker w)) all ∧
    sort_desc report_period all = latest :: older ∧
    metrics ticker end_date period limit w
    = (Ok (slice_to limit (latest :: older)), w).
Proof.
  intros Hall Hex.
  destruct (filtered_metrics_hit _ _ Hall) as (all & Hf & Hps).
  destruct (sort_desc report_period all) as [| latest older] eqn:Hsort.
  - exfalso.
    assert (Hnil : all = []).
    { apply Permutation_nil_r. by rewrite <- Hsort, sort_desc_perm. }
    subst all. apply Forall2_nil_inv_r in Hps.
    apply Exists_exists in Hex as (metric & Hin & Hd).
    assert (Hmem : metric ∈ filter
              (λ metric, reported_until end_date metric = true)
              (cached_metrics ticker w)) by (by apply list_elem_of_filter).
    rewrite Hps in Hmem. inversion Hmem.
  - exists all, latest, older. split; [done |]. split; [done |].
    by rewrite get_financial_metrics_unfold, Hf, Hsort.
Qed.

(** X22: when every cached metrics record of the ticker carries a [str]
    report period, at least one of them is not after [end_date], and
    [FinancialMetrics] accepts the ones that are not, the tool answers
    from the cache, whatever [period] is asked for: it sends no request,
    leaves the world as it is, and returns the first entries of the
    accepted metrics put newest first, as many as [limit] allows (all but
    the last ones, for a negative [limit]). *)
Theorem get_financial_metrics_cache_hit (ticker end_date period : string)
    (limit : Z) (w : World) :
  Forall (λ metric, periodic metric = true ∧
            (reported_until end_date metric = true →
             is_ok (FinancialMetrics metric) = true))
    (cached_metrics ticker w) →
  Exists (λ metric, reported_until end_date metric = true)
    (cached_metrics ticker w) →
  ∃ ms rest all,
    metrics ticker end_date period limit w = (Ok ms, w) ∧
    Forall2 (λ metric m, FinancialMetrics metric = Ok m)
      (filter (λ metric, reported_until end_date metric = true)
         (cached_metrics ticker w)) all ∧
    ms ++ rest ≡ₚ all ∧
    StronglySorted (not_older report_period) (ms ++ rest) ∧
    length ms = slice_length limit (length all).
Proof.
  intros Hall Hex.
  destruct (metrics_hit ticker end_date period limit w Hall Hex)
    as (all & latest & older & Hps & Hsort & Hget).
  destruct (slice_to_prefix limit (latest :: older)) as [rest Hrest].
  exists (slice_to limit (latest :: older)), rest, all.
  split; [done |]. split; [done |]. rewrite Hrest, <- Hsort.
  split; [apply sort_desc_perm |]. split; [apply sort_desc_sorted |].
  rewrite Hsort, slice_to_length, <- Hsort. f_equal.
  apply Permutation_length, sort_desc_perm.
Qed.

(** X23: under the same conditions [get_market_cap] sends no request and
    reads the market capitalization of a newest cached metric: a report
    period not after [end_date] that none of the others exceeds.  A
    missing or zero value there gives [None], whatever the older metrics
    hold. *)
Theorem get_market_cap_cache_hit (ticker end_date : string) (w : World) :
  Forall (λ metric, periodic metric = true ∧
            (reported_until end_date metric = true →
             is_ok (FinancialMetrics metric) = true))
    (cached_metrics ticker w) →
  Exists (λ metric, reported_until end_date metric = true)
    (cached_metrics ticker w) →
  ∃ latest all,
    market ticker end_date w
    = (Ok (match market_cap latest with
           | Some f => if float_truthy f then Some f else None
           | None => None
           end), w) ∧
    Forall2 (λ metric m, FinancialMetrics metric = Ok m)
      (filter (λ metric, reported_until end_date metric = true)
         (cached_metrics ticker w)) all ∧
    latest ∈ all ∧
    Forall (not_older report_period latest) all.
Proof.
  intros Hall Hex.
  destruct (metrics_hit ticker end_date "ttm" 10 w Hall Hex)
    as (all & latest & older & Hps & Hsort & Hget).
  pose proof (sort_desc_perm report_period all) as Hperm.
  pose proof (sort_desc_sorted report_period all) as Hsorted.
  rewrite Hsort in Hperm, Hsorted.
  exists latest, all. split; [| split; [done | split]].
  - unfold get_market_cap, mbind, M_mbind, m_bind. rewrite Hget.
    unfold slice_to. rewrite bool_decide_eq_false_2 by lia.
    change (Z.to_nat 10) with 10%nat. cbn [take].
    destruct (market_cap latest) as [f |]; [| done].
    by destruct (float_truthy f).
  - rewrite <- Hperm. by left.
  - rewrite <- Hperm. apply StronglySorted_inv in Hsorted as [_ Hrest].
    constructor; [| done].
    unfold not_older, str_le, String.leb.
    destruct (String.compare _ _) eqn:Hc; try done.
    assert (Hrefl : String.compare (report_period latest)
                      (report_period latest) = Eq)
      by (by apply OrderedTypeEx.String_as_OT.cmp_eq).
    congruence.
Qed.

Lemma filtered_metrics_miss_app end_date cached more :
  Forall (λ metric, periodic metric = true ∧
            reported_until end_date metric = false) cached →
  filtered_metrics end_date (cached ++ more)
  = filtered_metrics end_date more.
Proof.
  induction 1 as [| metric rest [Ht Hd] _ IH]; simpl; [done |].
  rewrite (reported_by_periodic _ _ Ht), Hd. unfold_result. done.
Qed.

Lemma filtered_metrics_dumps end_date ms :
  Forall (λ m, reported_until end_date (model_dump m) = true ∧
               FinancialMetrics (model_dump m) = Ok m) ms →
  filtered_metrics end_date (model_dump <$> ms) = Ok ms.
Proof.
  induction 1 as [| m rest [Hd HP] _ IH]; [done |].
  rewrite fmap_cons. cbn [filtered_metrics_of].
  rewrite (reported_by_periodic _ _ (reported_until_periodic _ _ Hd)), Hd.
  unfold_result. by rewrite HP, IH.
Qed.

Lemma reported_not_seen end_date cached metric :
  Forall (λ metric, periodic metric = true ∧
            reported_until end_date metric = false) cached →
  reported_until end_date metric = true →
  ¬ Cache.identity_seen "report_period" cached metric.
Proof.
  intros Hall Hd Hseen. unfold Cache.identity_seen in Hseen.
  apply list_elem_of_fmap in Hseen as (c & Heq & Hin).
  rewrite Forall_forall in Hall. destruct (Hall c Hin) as [_ Hc].
  unfold reported_until in Hd, Hc. rewrite <- Heq in Hc. congruence.
Qed.

Lemma fetch_metrics_unfold ticker end_date period limit w :
  fetch_metrics ticker end_date period limit w
  = let url := metrics_url ticker end_date limit period in
    let headers := headers_of (api_key w) in
    let w1 := mk_world (_cache w) (environ w)
                (requests w ++ [(url, headers)]) in
    match requests_get url headers (length (requests w)) with
    | Raise err => (Raise err, w1)
    | Ok response =>
        if bool_decide (status_code response ≠ 200) then
          (Raise (Exception_ (error_message ticker response)), w1)
        else
          match json response
                ≫= FinancialMetricsResponse_financial_metrics with
          | Raise err => (Raise err, w1)
          | Ok [] => (Ok [], w1)
          | Ok (m :: ms) =>
              match Cache._merge_data
                      (Cache._financial_metrics_cache (_cache w) !! ticker)
                      (model_dump <$> m :: ms) "report_period" with
              | Ok merged =>
                  (Ok (m :: ms),
                   mk_world
                     (Cache.store Cache.FinancialMetrics ticker merged
                        (_cache w))
                     (environ w) (requests w1))
              | Raise err => (Raise err, w1)
              end
          end
    end.
Proof.
  unfold fetch_financial_metrics, get, environ_get, on_cache, mbind, M_mbind,
    m_bind, m_gets, m_lift, mret, M_ret, m_ret.
  cbn [fst snd _cache environ requests].
  destruct (requests_get _ _ _) as [response |]; [| done].
  case_bool_decide; [done |].
  unfold result_mbind, result_bind.
  destruct (json response) as [doc |]; [| done].
  destruct (FinancialMetricsResponse_financial_metrics doc)
    as [[| m ms] |]; [done | | done].
  rewrite (CacheFacts.set_unfold Cache.FinancialMetrics).
  cbn [Cache.bucket Cache.identity_field _cache].
  by destruct (Cache._merge_data _ _ _).
Qed.

(** X24: the tool's second answer is not its first.  When no cached
    record of the ticker is reported by [end_date] and the service
    answers 200 with a non-empty list of metrics, each reported by
    [end_date] and rebuilt by [FinancialMetrics] from its own dump, the
    call returns the list as the service gave it, after one request.  The
    same call made again, for any [period], sends no request and returns
    the list put newest first and cut to [limit]. *)
Theorem get_financial_metrics_fetch_then_hit (ticker end_date period : string)
    (limit : Z) (w : World) (response : Response Json) (doc : Json)
    (ms : list MetricsT) :
  Forall (λ metric, periodic metric = true ∧
            reported_until end_date metric = false)
    (cached_metrics ticker w) →
  requests_get (metrics_url ticker end_date limit period)
    (headers_of (api_key w)) (length (requests w)) = Ok response →
  status_code response = 200 →
  json response = Ok doc →
  FinancialMetricsResponse_financial_metrics doc = Ok ms →
  ms ≠ [] →
  Forall (λ m, reported_until end_date (model_dump m) = true ∧
               FinancialMetrics (model_dump m) = Ok m) ms →
  ∃ w1,
    metrics ticker end_date period limit w = (Ok ms, w1) ∧
    requests w1
    = requests w ++ [(metrics_url ticker end_date limit period,
                      headers_of (api_key w))] ∧
    ∀ period',
      metrics ticker end_date period' limit w1
      = (Ok (slice_to limit (sort_desc report_period ms)), w1).
Proof.
  intros Hmiss Hget Hstatus Hjson Hparse Hne Hms.
  assert (Hnone : filtered_metrics end_date (cached_metrics ticker w) = Ok []).
  { rewrite <- (app_nil_r (cached_metrics ticker w)).
    by rewrite (filtered_metrics_miss_app _ _ _ Hmiss). }
  assert (Hmerge :
    Cache._merge_data (Cache._financial_metrics_cache (_cache w) !! ticker)
      (model_dump <$> ms) "report_period"
    = Ok (cached_metrics ticker w ++ (model_dump <$> ms))).
  { unfold cached_metrics in *.
    destruct (Cache._financial_metrics_cache (_cache w) !! ticker)
      as [[| x l] |]; cbn [default from_option id] in *; try done.
    rewrite CacheFacts.merge_data_nonempty; [| done | |].
    - unfold Cache.merge_spec. f_equal. f_equal.
      apply CacheFacts.filter_all. intros item Hin.
      apply list_elem_of_fmap in Hin as (m & -> & Hin).
      rewrite Forall_forall in Hms. destruct (Hms m Hin) as [Hd _].
      by apply (reported_not_seen end_date).
    - eapply Forall_impl; [exact Hmiss |].
      intros metric [Ht _]. by apply periodic_has_identity.
    - apply Forall_fmap. eapply Forall_impl; [exact Hms |].
      intros m [Hd _]. simpl. apply periodic_has_identity.
      by apply (reported_until_periodic end_date). }
  pose proof (filtered_metrics_dumps _ _ Hms) as Hdumps.
  assert (Hsorted : sort_desc report_period ms ≠ []).
  { intros Hnil. apply Hne, Permutation_nil_r.
    by rewrite <- Hnil, sort_desc_perm. }
  destruct ms as [| m ms']; [done |].
  eexists. split; [| split].
  - rewrite get_financial_metrics_unfold, Hnone. cbn [sort_desc foldr].
    rewrite fetch_metrics_unfold. cbn zeta. rewrite Hget.
    rewrite bool_decide_eq_false_2 by (by intros ?).
    rewrite Hjson. cbn [mbind result_mbind result_bind]. rewrite Hparse.
    rewrite Hmerge. reflexivity.
  - done.
  - intros period'. rewrite get_financial_metrics_unfold.
    unfold cached_metrics at 1. cbn [_cache].
    pose proof (CacheFacts.bucket_store Cache.FinancialMetrics ticker
                  (cached_metrics ticker w ++ (model_dump <$> m :: ms'))
                  (_cache w))
      as Hb. cbn [Cache.bucket] in Hb. rewrite Hb. cbn [default from_option id].
    rewrite (filtered_metrics_miss_app _ _ _ Hmiss), Hdumps.
    by destruct (sort_desc report_period (m :: ms')).
Qed.

End metrics.

(** *** The news tool and its pagination *)
Section news.
Context {Json NewsT : Type}.
Variable CompanyNews : Cache.record → result NewsT.
Variable date : NewsT → string.
Variable model_dump : NewsT → Cache.record.
Variable CompanyNewsResponse_news : Json → result (list NewsT).
Variable requests_get :
  string → gmap string string → nat → result (Response Json).

Abbreviation filtered_news := (filtered_news_of CompanyNews).
Abbreviation pages :=
  (pagination date CompanyNewsResponse_news requests_get).
Abbreviation news :=
  (get_company_news CompanyNews date model_dump CompanyNewsResponse_news
     requests_get).
Abbreviation api_key w := (environ w !! "FINANCIAL_DATASETS_API_KEY").

Lemma pagination_unfold fuel ticker start_date limit headers
    current_end_date all_news w :
  pages (S fuel) ticker start_date limit headers current_end_date all_news w
  = let url := news_url ticker current_end_date start_date limit in
    let w1 := mk_world (_cache w) (environ w)
                (requests w ++ [(url, headers)]) in
    match requests_get url headers (length (requests w)) with
    | Raise err => (Raise err, w1)
    | Ok response =>
        if bool_decide (status_code response ≠ 200) then
          (Raise (Exception_ (error_message ticker response)), w1)
        else
          match json response ≫= CompanyNewsResponse_news with
          | Raise err => (Raise err, w1)
          | Ok [] => (Ok (Some all_news), w1)
          | Ok (first :: others) =>
              match nonempty start_date with
              | None => (Ok (Some (all_news ++ first :: others)), w1)
              | Some start =>
                  if bool_decide (Z.of_nat (length (first :: others)) < limit)
                  then (Ok (Some (all_news ++ first :: others)), w1)
                  else if str_le (before_T (min_str (date first)
                                              (date <$> others))) start
                  then (Ok (Some (all_news ++ first :: others)), w1)
                  else pages fuel ticker start_date limit headers
                         (before_T (min_str (date first) (date <$> others)))
                         (all_news ++ first :: others) w1
              end
          end
    end.
Proof.
  cbn [pagination]. unfold get, mbind, M_mbind, m_bind, m_lift, mret, M_ret,
    m_ret.
  destruct (requests_get _ _ _) as [response |]; [| done].
  cbn zeta. case_bool_decide; [done |].
  unfold result_mbind, result_bind.
  destruct (json response) as [doc |]; [| done].
  destruct (CompanyNewsResponse_news doc) as [[| first others] |];
    [done | | done].
  destruct (nonempty start_date) as [start |]; [| done].
  case_bool_decide; [done |].
  by destruct (str_le _ start).
Qed.

(** The loop reads and writes nothing but the request log. *)
Lemma pagination_world fuel ticker start_date limit headers
    current_end_date all_news w :
  _cache (pages fuel ticker start_date limit headers current_end_date
            all_news w).2 = _cache w ∧
  environ (pages fuel ticker start_date limit headers current_end_date
             all_news w).2 = environ w.
Proof.
  revert current_end_date all_news w.
  induction fuel as [| fuel IH]; intros current_end_date all_news w; [done |].
  rewrite pagination_unfold. cbn zeta.
  destruct (requests_get _ _ _) as [response |]; [| done].
  case_bool_decide; [done |].
  destruct (json response ≫= CompanyNewsResponse_news)
    as [[| first others] |]; [done | | done].
  destruct (nonempty start_date) as [start |]; [| done].
  case_bool_decide; [done |].
  destruct (str_le _ start); [done |].
  destruct (IH (before_T (min_str (date first) (date <$> others)))
              (all_news ++ first :: others)
              (mk_world (_cache w) (environ w)
                 (requests w ++
                  [(news_url ticker current_end_date start_date limit,
                    headers)]))) as [Hc He].
  by rewrite Hc, He.
Qed.

Lemma get_company_news_unfold fuel ticker end_date start_date limit w :
  news fuel ticker end_date start_date limit w
  = match filtered_news start_date end_date (cached_news ticker w) with
    | Raise err => (Raise err, w)
    | Ok filtered_data =>
        match sort_desc date filtered_data with
        | n :: ns => (Ok (Some (n :: ns)), w)
        | [] =>
            match pages fuel ticker start_date limit
                    (headers_of (api_key w)) end_date [] w with
            | (Raise err, w1) => (Raise err, w1)
            | (Ok None, w1) => (Ok None, w1)
            | (Ok (Some []), w1) => (Ok (Some []), w1)
            | (Ok (Some (n :: ns)), w1) =>
                match Cache._merge_data
                        (Cache._company_news_cache (_cache w1) !! ticker)
                        (model_dump <$> n :: ns) "date" with
                | Ok merged =>
                    (Ok (Some (n :: ns)),
                     mk_world
                       (Cache.store Cache.CompanyNews ticker merged
                          (_cache w1))
                       (environ w1) (requests w1))
                | Raise err => (Raise err, w1)
                end
            end
        end
    end.
Proof.
  unfold get_company_news, cached_news, environ_get, mbind, M_mbind, m_bind,
    on_cache, Cache.get_company_news, m_gets, m_lift, mret, M_ret, m_ret.
  cbn [fst snd]. rewrite world_eta.
  assert (Htail : ∀ (p : result (option (list NewsT)) * World),
    (let (r, s') := p in
     match r with
     | Ok a =>
         match a with
         | Some [] => λ s : World, (Ok (Some []), s)
         | Some ((_ :: _) as all_news) =>
             λ s : World,
               match (Cache.set_company_news ticker (model_dump <$> all_news)
                        (_cache s)).1 with
               | Ok _ =>
                   (Ok (Some all_news),
                    mk_world
                      (Cache.set_company_news ticker (model_dump <$> all_news)
                         (_cache s)).2 (environ s) (requests s))
               | Raise e =>
                   (Raise e,
                    mk_world
                      (Cache.set_company_news ticker (model_dump <$> all_news)
                         (_cache s)).2 (environ s) (requests s))
               end
         | None => λ s : World, (Ok None, s)
         end s'
     | Raise e => (Raise e, s')
     end)
    = (let (r, w1) := p in
       match r with
       | Raise err => (Raise err, w1)
       | Ok None => (Ok None, w1)
       | Ok (Some []) => (Ok (Some []), w1)
       | Ok (Some (n :: ns)) =>
           match Cache._merge_data
                   (Cache._company_news_cache (_cache w1) !! ticker)
                   (model_dump <$> n :: ns) "date" with
           | Ok merged =>
               (Ok (Some (n :: ns)),
                mk_world
                  (Cache.store Cache.CompanyNews ticker merged (_cache w1))
                  (environ w1) (requests w1))
           | Raise err => (Raise err, w1)
           end
       end)).
  { intros [[[[| n ns] |] | err] w1]; try done.
    rewrite (CacheFacts.set_unfold Cache.CompanyNews).
    cbn [Cache.bucket Cache.identity_field].
    destruct (Cache._merge_data _ _ _); cbn [fst snd]; [done |].
    by rewrite world_eta. }
  destruct (Cache._company_news_cache (_cache w) !! ticker)
    as [[| x l] |]; cbn [default from_option id].
  - cbn [filtered_news_of sort_desc foldr]. apply Htail.
  - destruct (filtered_news start_date end_date (x :: l)) as [fs |]; [| done].
    destruct (sort_desc date fs); [apply Htail | done].
  - cbn [filtered_news_of sort_desc foldr]. apply Htail.
Qed.

(** X25: without a start date there is no pagination.  When nothing is
    cached for the ticker and [start_date] is [None] or empty,
    [get_company_news] sends exactly one request and its loop ends in the
    first iteration, however full the page is; a page of news that comes
    with status 200 is the answer. *)
Theorem get_company_news_single_page (fuel : nat) (ticker end_date : string)
    (start_date : option string) (limit : Z) (w : World) :
  cached_news ticker w = [] →
  nonempty start_date = None →
  (news (S fuel) ticker end_date start_date limit w).1 ≠ Ok None ∧
  requests (news (S fuel) ticker end_date start_date limit w).2
  = requests w ++ [(news_url ticker end_date start_date limit,
                    headers_of (api_key w))] ∧
  ∀ response doc page,
    requests_get (news_url ticker end_date start_date limit)
      (headers_of (api_key w)) (length (requests w)) = Ok response →
    status_code response = 200 →
    json response = Ok doc →
    CompanyNewsResponse_news doc = Ok page →
    (news (S fuel) ticker end_date start_date limit w).1 = Ok (Some page).
Proof.
  intros Hcached Hstart.
  rewrite get_company_news_unfold, Hcached.
  cbn [filtered_news_of sort_desc foldr].
  rewrite pagination_unfold, Hstart. cbn zeta.
  destruct (requests_get _ _ _) as [response |] eqn:Hreq;
    [| split; [done | split; [done | intros; congruence]]].
  case_bool_decide as Hstatus.
  { split; [done |]. split; [done |]. intros; congruence. }
  destruct (json response) as [doc |] eqn:Hjson;
    cbn [mbind result_mbind result_bind];
    [| split; [done | split; [done | intros; congruence]]].
  destruct (CompanyNewsResponse_news doc) as [[| first others] |] eqn:Hpage.
  - split; [done |]. split; [done |].
    intros. cbn [fst]. congruence.
  - cbn [app _cache]. unfold cached_news in Hcached.
    destruct (Cache._company_news_cache (_cache w) !! ticker)
      as [[| ? ?] |]; try done;
      cbn [Cache._merge_data fst snd environ requests];
      (split; [done |]; split; [done |]); intros; cbn [fst]; congruence.
  - split; [done |]. split; [done |]. intros; congruence.
Qed.

Lemma pagination_stuck fuel ticker start_date start limit headers end_date
    response doc first others all_news w :
  nonempty start_date = Some start →
  (∀ n, requests_get (news_url ticker end_date start_date limit) headers n
        = Ok response) →
  status_code response = 200 →
  json response = Ok doc →
  CompanyNewsResponse_news doc = Ok (first :: others) →
  limit ≤ Z.of_nat (length (first :: others)) →
  before_T (min_str (date first) (date <$> others)) = end_date →
  str_le end_date start = false →
  ∃ w',
    pages fuel ticker start_date limit headers end_date all_news w
    = (Ok None, w') ∧
    length (requests w') = (length (requests w) + fuel)%nat ∧
    _cache w' = _cache w.
Proof.
  intros Hstart Hget Hstatus Hjson Hpage Hfull Hday Hafter.
  revert all_news w. induction fuel as [| fuel IH]; intros all_news w.
  - exists w. split; [done |]. split; [lia | done].
  - rewrite pagination_unfold. cbn zeta. rewrite Hget.
    rewrite bool_decide_eq_false_2 by (by intros ?).
    rewrite Hjson. cbn [mbind result_mbind result_bind].
    rewrite Hpage, Hstart.
    rewrite bool_decide_eq_false_2 by lia. rewrite Hday, Hafter.
    destruct (IH (all_news ++ first :: others)
                (mk_world (_cache w) (environ w)
                   (requests w ++
                    [(news_url ticker end_date start_date limit, headers)])))
      as (w' & Hrun & Hlen & Hcache).
    exists w'. split; [done |]. split; [| done].
    rewrite Hlen. cbn [requests]. rewrite length_app. simpl. lia.
Qed.

(** X26: the pagination can go on for ever.  With a start date, nothing
    cached for the ticker, and a service that answers the request for
    [end_date] with a full page whose oldest article is dated [end_date]
    itself (as it does when that day has [limit] articles or more), the
    loop asks for the same page again and again: whatever number of
    iterations it is given, it has not ended, it has sent one request per
    iteration and it has cached nothing. *)
Theorem get_company_news_stuck (ticker end_date : string)
    (start_date : option string) (start : string) (limit : Z) (w : World)
    (response : Response Json) (doc : Json) (first : NewsT)
    (others : list NewsT) (fuel : nat) :
  cached_news ticker w = [] →
  nonempty start_date = Some start →
  (∀ n, requests_get (news_url ticker end_date start_date limit)
          (headers_of (api_key w)) n = Ok response) →
  status_code response = 200 →
  json response = Ok doc →
  CompanyNewsResponse_news doc = Ok (first :: others) →
  limit ≤ Z.of_nat (length (first :: others)) →
  before_T (min_str (date first) (date <$> others)) = end_date →
  str_le end_date start = false →
  ∃ w',
    news fuel ticker end_date start_date limit w = (Ok None, w') ∧
    length (requests w') = (length (requests w) + fuel)%nat ∧
    _cache w' = _cache w.
Proof.
  intros Hcached Hstart Hget Hstatus Hjson Hpage Hfull Hday Hafter.
  destruct (pagination_stuck fuel ticker start_date start limit
              (headers_of (api_key w)) end_date response doc first others
              [] w Hstart Hget Hstatus Hjson Hpage Hfull Hday Hafter)
    as (w' & Hrun & Hlen & Hcache).
  exists w'. split; [| done].
  rewrite get_company_news_unfold, Hcached.
  cbn [filtered_news_of sort_desc foldr]. by rewrite Hrun.
Qed.

(** X27: unless it returns a non-empty list, [get_company_news] leaves
    the cache as it was: the pages fetched before a failed request, or
    before a page that cannot be decoded, are not stored. *)
Theorem get_company_news_keeps_cache (fuel : nat) (ticker end_date : string)
    (start_date : option string) (limit : Z) (w w' : World)
    (r : result (option (list NewsT))) :
  news fuel ticker end_date start_date limit w = (r, w') →
  (∀ n ns, r ≠ Ok (Some (n :: ns))) →
  _cache w' = _cache w.
Proof.
  rewrite get_company_news_unfold.
  destruct (filtered_news _ _ _) as [fs |]; [| by intros [= <- <-]].
  destruct (sort_desc date fs) as [| n ns].
  - pose proof (pagination_world fuel ticker start_date limit
                  (headers_of (api_key w)) end_date [] w) as [Hcache _].
    destruct (pages _ _ _ _ _ _ _ _) as [[[[| n ns] |] | err] w1];
      cbn [snd] in Hcache; try (by intros [= <- <-]).
    destruct (Cache._merge_data _ _ _); [| by intros [= <- <-]].
    intros [= <- <-] Hr. by destruct (Hr n ns).
  - intros [= <- <-] Hr. by destruct (Hr n ns).
Qed.

End news.

Lemma get_company_news_single_page_witness :
  (get_company_news sample_CompanyNews id sample_news_dump Ok
     news_service_busy 1 "AAPL" "2024-03-01" None 2 fresh_world).1
  ≠ Ok None ∧
  requests
    (get_company_news sample_CompanyNews id sample_news_dump Ok
       news_service_busy 1 "AAPL" "2024-03-01" None 2 fresh_world).2
  = requests fresh_world ++
    [(news_url "AAPL" "2024-03-01" None 2,
      headers_of (environ fresh_world !! "FINANCIAL_DATASETS_API_KEY"))] ∧
  (get_company_news sample_CompanyNews id sample_news_dump Ok
     news_service_busy 1 "AAPL" "2024-03-01" None 2 fresh_world).1
  = Ok (Some busy_day).
Proof.
  destruct (get_company_news_single_page sample_CompanyNews id
              sample_news_dump Ok news_service_busy 0 "AAPL" "2024-03-01"
              None 2 fresh_world eq_refl eq_refl) as (Hends & Hone & Hpage).
  split; [exact Hends |]. split; [exact Hone |].
  by apply (Hpage (mk_response 200 "OK" (Ok busy_day)) busy_day busy_day).
Defined.

Lemma get_company_news_stuck_witness :
  ∃ w',
    get_company_news sample_CompanyNews id sample_news_dump Ok
      news_service_busy 1000 "AAPL" "2024-03-01" (Some "2024-01-01") 2
      fresh_world
    = (Ok None, w') ∧
    length (requests w') = (length (requests fresh_world) + 1000)%nat ∧
    _cache w' = _cache fresh_world.
Proof.
  apply (get_company_news_stuck sample_CompanyNews id sample_news_dump Ok
           news_service_busy "AAPL" "2024-03-01" (Some "2024-01-01")
           "2024-01-01" 2 fresh_world (mk_response 200 "OK" (Ok busy_day))
           busy_day "2024-03-01T15:30:00Z" ["2024-03-01T09:00:00Z"] 1000).
  - reflexivity.
  - reflexivity.
  - intros n. reflexivity.
  - reflexivity.
  - reflexivity.
  - reflexivity.
  - simpl. lia.
  - vm_compute. reflexivity.
  - vm_compute. reflexivity.
Defined.

Lemma get_company_news_keeps_cache_witness :
  (get_company_news sample_CompanyNews id sample_news_dump Ok
     news_service_flaky 5 "AAPL" "2024-03-01" (Some "2024-01-01") 2
     fresh_world).1
  = Raise (Exception_
             (error_message "AAPL"
                (mk_response 503 "Service Unavailable"
                   (Raise (JSONDecodeError "Expecting value")
                    : result (list string))))) ∧
  _cache
    (get_company_news sample_CompanyNews id sample_news_dump Ok
       news_service_flaky 5 "AAPL" "2024-03-01" (Some "2024-01-01") 2
       fresh_world).2
  = _cache fresh_world.
Proof.
  assert (Hraise :
    (get_company_news sample_CompanyNews id sample_news_dump Ok
       news_service_flaky 5 "AAPL" "2024-03-01" (Some "2024-01-01") 2
       fresh_world).1
    = Raise (Exception_
               (error_message "AAPL"
                  (mk_response 503 "Service Unavailable"
                     (Raise (JSONDecodeError "Expecting value")
                      : result (list string))))))
    by (vm_compute; reflexivity).
  split; [exact Hraise |].
  apply (get_company_news_keeps_cache sample_CompanyNews id sample_news_dump
           Ok news_service_flaky 5 "AAPL" "2024-03-01" (Some "2024-01-01") 2
           fresh_world _ _ (surjective_pairing _)).
  intros n ns. rewrite Hraise. discriminate.
Defined.

(** *** The line-item search *)
Section line_items.
Context {Json LineItemT : Type}.
Variable LineItemResponse_search_results : Json → result (list LineItemT).
Variable requests_post :
  string → gmap string string → line_items_query → nat
  → result (Response Json).

Abbreviation search :=
  (search_line_items LineItemResponse_search_results requests_post).

(** X28: the line-item search never reads or writes the cache: every
    call sends exactly one request, whatever was fetched before, and
    leaves cache and environment as they are.  What it returns has at
    most [limit] entries, for a [limit] that is not negative. *)
Theorem search_line_items_uncached (ticker : string)
    (line_items : list string) (end_date period : string) (limit : Z)
    (w : World) :
  _cache (exec (search ticker line_items end_date period limit) w)
  = _cache w ∧
  environ (exec (search ticker line_items end_date period limit) w)
  = environ w ∧
  requests (exec (search ticker line_items end_date period limit) w)
  = requests w ++
    [("https://api.financialdatasets.ai/financials/search/line-items",
      headers_of (environ w !! "FINANCIAL_DATASETS_API_KEY"))] ∧
  ∀ results,
    (search ticker line_items end_date period limit w).1 = Ok results →
    0 ≤ limit → (length results ≤ Z.to_nat limit)%nat.
Proof.
  unfold exec, search_line_items, post, environ_get, mbind, M_mbind, m_bind,
    m_gets, m_lift, mret, M_ret, m_ret.
  destruct (requests_post _ _ _ _) as [response |]; [| done].
  case_bool_decide; [done |].
  destruct (json response) as [data |]; [| done].
  destruct (LineItemResponse_search_results data) as [[| x l] |];
    cbn [fst snd _cache environ requests]; [| | done].
  - repeat split. intros ? [= <-] _. simpl. lia.
  - repeat split. intros ? [= <-] Hlimit.
    rewrite slice_to_length. unfold slice_length.
    rewrite bool_decide_eq_false_2 by lia. lia.
Qed.

End line_items.

Lemma metrics_world_cached :
  cached_metrics "AAPL" metrics_world = [metrics_2023; metrics_2024].
Proof. vm_compute. reflexivity. Qed.

Lemma get_financial_metrics_cache_hit_witness :
  ∃ ms rest all,
    get_financial_metrics sample_FinancialMetrics fst sample_metrics_dump Ok
      metrics_service_down "AAPL" "2024-06-30" "annual" 1 metrics_world
    = (Ok ms, metrics_world) ∧
    Forall2 (λ metric m, sample_FinancialMetrics metric = Ok m)
      (filter (λ metric, reported_until "2024-06-30" metric = true)
         (cached_metrics "AAPL" metrics_world)) all ∧
    ms ++ rest ≡ₚ all ∧
    StronglySorted (not_older fst) (ms ++ rest) ∧
    length ms = slice_length 1 (length all).
Proof.
  apply (get_financial_metrics_cache_hit sample_FinancialMetrics fst
           sample_metrics_dump Ok metrics_service_down
           "AAPL" "2024-06-30" "annual" 1 metrics_world).
  - rewrite metrics_world_cached. repeat constructor; vm_compute; reflexivity.
  - rewrite metrics_world_cached. apply Exists_cons_hd. vm_compute.
    reflexivity.
Defined.

Lemma get_market_cap_cache_hit_witness :
  ∃ latest all,
    get_market_cap sample_FinancialMetrics fst snd sample_metrics_dump Ok
      metrics_service_down "AAPL" "2024-06-30" metrics_world
    = (Ok (match latest.2 with
           | Some f => if float_truthy f then Some f else None
           | None => None
           end), metrics_world) ∧
    Forall2 (λ metric m, sample_FinancialMetrics metric = Ok m)
      (filter (λ metric, reported_until "2024-06-30" metric = true)
         (cached_metrics "AAPL" metrics_world)) all ∧
    latest ∈ all ∧
    Forall (not_older fst latest) all.
Proof.
  apply (get_market_cap_cache_hit sample_FinancialMetrics fst snd
           sample_metrics_dump Ok metrics_service_down
           "AAPL" "2024-06-30" metrics_world).
  - rewrite metrics_world_cached. repeat constructor; vm_compute; reflexivity.
  - rewrite metrics_world_cached. apply Exists_cons_hd. vm_compute.
    reflexivity.
Defined.

Lemma get_financial_metrics_fetch_then_hit_witness :
  ∃ w1,
    get_financial_metrics sample_FinancialMetrics fst sample_metrics_dump Ok
      metrics_service_up "AAPL" "2024-06-30" "ttm" 1 fresh_world
    = (Ok [("2023-12-31", None); ("2024-03-31", None)], w1) ∧
    requests w1
    = requests fresh_world ++
      [(metrics_url "AAPL" "2024-06-30" 1 "ttm",
        headers_of (environ fresh_world !! "FINANCIAL_DATASETS_API_KEY"))] ∧
    ∀ period',
      get_financial_metrics sample_FinancialMetrics fst sample_metrics_dump Ok
        metrics_service_up "AAPL" "2024-06-30" period' 1 w1
      = (Ok (slice_to 1
               (sort_desc fst [("2023-12-31", None); ("2024-03-31", None)])),
         w1).
Proof.
  apply (get_financial_metrics_fetch_then_hit sample_FinancialMetrics fst
           sample_metrics_dump Ok metrics_service_up
           "AAPL" "2024-06-30" "ttm" 1 fresh_world
           (mk_response 200 "OK"
              (Ok [("2023-12-31", None); ("2024-03-31", None)]))
           [("2023-12-31", None); ("2024-03-31", None)]).
  - constructor.
  - reflexivity.
  - reflexivity.
  - reflexivity.
  - reflexivity.
  - discriminate.
  - repeat constructor; vm_compute; reflexivity.
Defined.

End ApiFacts.

(** ** The caller of the wrapper *)
Module AgentFacts.
Import Llm Agent.

(** The instance that default synthesis builds for the signal class. *)
Lemma generic_signal lax :
  ∃ v, create_default_response lax WarrenBuffettSignal = Ok v ∧
       field_of v "signal" = Some (VStr "bullish") ∧
       field_of v "confidence" = Some (VFloat float_zero) ∧
       field_of v "reasoning" = Some (VStr "Error in analysis, using default").
Proof.
  eexists. split; [vm_compute; reflexivity |]. vm_compute. auto.
Qed.

Lemma neutral_signal_fields :
  field_of neutral_signal "signal" = Some (VStr "neutral") ∧
  field_of neutral_signal "confidence" = Some (VFloat float_zero) ∧
  field_of neutral_signal "reasoning" = Some (VStr "Analysis error").
Proof. vm_compute. auto. Qed.

Section output.
Context {Prompt AnalysisData : Type}.
Variable lax : annotation → value → result value.
Variable json_loads : string → result value.
Variable backend : runnable → Prompt → nat → result value.
Variable template_invoke : string → AnalysisData → result Prompt.

Abbreviation generate :=
  (generate_buffett_output lax json_loads backend template_invoke).

(** X21: [generate_buffett_output] returns no signal.  For every ticker,
    model and backend it raises: what the prompt template raises, or,
    once the prompt is built, the [AttributeError] of the import at the
    head of [call_llm].  The backend is not called and neither of the
    agent's two fallbacks is reached.  The two fallbacks themselves
    disagree: the agent's own factory builds a neutral signal, default
    synthesis a signal whose value is the first one of the annotation,
    bullish. *)
Theorem generate_buffett_output_raises (ticker : string)
    (analysis_data : AnalysisData) (model_name model_provider : string)
    (w : World) :
  generate ticker analysis_data model_name model_provider w
  = (Raise (match template_invoke ticker analysis_data with
            | Ok _ => AttributeError "DEEPSEEK"
            | Raise e => e
            end), w) ∧
  (create_default_signal lax = Ok neutral_signal ∧
   field_of neutral_signal "signal" = Some (VStr "neutral")) ∧
  (∃ v, create_default_response lax WarrenBuffettSignal = Ok v ∧
        field_of v "signal" = Some (VStr "bullish")).
Proof.
  split; [| split].
  - unfold generate_buffett_output, mbind, M_mbind, m_bind, m_lift.
    destruct (template_invoke ticker analysis_data) as [prompt | e]; [| done].
    apply LlmFacts.call_llm_import_error.
  - split; [apply LlmFacts.create_default_signal_value |].
    apply neutral_signal_fields.
  - destruct (generic_signal lax) as (v & Hv & Hsignal & _). eauto.
Qed.

End output.

Example generate_buffett_output_gpt_4o :
  generate_buffett_output sample_lax sample_loads backend_down sample_template
    "AAPL" "{}" "gpt-4o" "OpenAI" world_with_keys
  = (Raise (AttributeError "DEEPSEEK"), world_with_keys).
Proof. vm_compute. reflexivity. Qed.

End AgentFacts.
